(** * Numbas exam packager ([bin/numbas.py]): a shallow embedding

    The build script collects files from a list of overlay directories into
    a table (a Python [dict], insertion ordered), injects generated entries,
    merges style sheets and scripts, optionally minifies, and writes the
    result to a directory or a zip archive.

    Python strings are [string]; the [dict] is an association list with the
    update-in-place / append-at-end behaviour of Python dicts, because the
    script merge depends on iteration order; the file system read by the
    build is a record of functions ([os.walk], [os.path.isdir], ...);
    the file system written by the directory writer is a [gmap]. *)

From Stdlib Require Import String Ascii List ZArith Lia Bool DecimalString.
From stdpp Require Import base option gmap strings.
Import ListNotations.
Local Open Scope string_scope.

(** ** Python string helpers *)

Module Str.

Definition sep : ascii := "/"%char.

Definition is_sep (c : ascii) : bool := Ascii.eqb c sep.

Definition is_empty (s : string) : bool :=
  match s with EmptyString => true | _ => false end.

(** [s.startswith(p)] *)
Definition startswith (p s : string) : bool := String.prefix p s.

Fixpoint rev_acc (s acc : string) : string :=
  match s with
  | EmptyString => acc
  | String c r => rev_acc r (String c acc)
  end.

Definition rev (s : string) : string := rev_acc s EmptyString.

(** [s.endswith(p)] *)
Definition endswith (p s : string) : bool := String.prefix (rev p) (rev s).

(** [s[n:]] for [0 <= n] *)
Fixpoint drop (n : nat) (s : string) : string :=
  match n, s with
  | O, _ => s
  | S n', EmptyString => EmptyString
  | S n', String _ r => drop n' r
  end.

(** [s.replace(old, new, 1)]: only the leftmost occurrence is replaced *)
Fixpoint replace1 (old new s : string) : string :=
  if String.prefix old s then new ++ drop (String.length old) s
  else match s with
       | EmptyString => EmptyString
       | String c r => String c (replace1 old new r)
       end.

(** [sep.join(l)] *)
Fixpoint join (d : string) (l : list string) : string :=
  match l with
  | [] => EmptyString
  | [x] => x
  | x :: r => x ++ d ++ join d r
  end.

(** [s.split('/')] *)
Fixpoint split_sep (s : string) : list string :=
  match s with
  | EmptyString => [EmptyString]
  | String c r =>
      if is_sep c then EmptyString :: split_sep r
      else match split_sep r with
           | [] => [String c EmptyString]
           | x :: l => String c x :: l
           end
  end.

(** [s.rstrip('/')] *)
Fixpoint rstrip_sep (s : string) : string :=
  match s with
  | EmptyString => EmptyString
  | String c r =>
      let r' := rstrip_sep r in
      if is_empty r' && is_sep c then EmptyString else String c r'
  end.

(** [s == '/' * len(s)] *)
Fixpoint all_sep (s : string) : bool :=
  match s with
  | EmptyString => true
  | String c r => is_sep c && all_sep r
  end.

(** [(s[:i], s[i:])] for [i = s.rfind('/') + 1] *)
Fixpoint cut_last_sep (s : string) : string * string :=
  match s with
  | EmptyString => (EmptyString, EmptyString)
  | String c r =>
      let '(h, t) := cut_last_sep r in
      if negb (is_empty h) then (String c h, t)
      else if is_sep c then (String c EmptyString, t)
      else (EmptyString, String c t)
  end.

(** [(s[:i], s[i:])] for [i = s.rfind('.')], or [None] when there is no dot *)
Fixpoint cut_last_dot (s : string) : option (string * string) :=
  match s with
  | EmptyString => None
  | String c r =>
      match cut_last_dot r with
      | Some (h, t) => Some (String c h, t)
      | None => if Ascii.eqb c "."%char then Some (EmptyString, s) else None
      end
  end.

(** every character of [s] is a dot *)
Fixpoint all_dots (s : string) : bool :=
  match s with
  | EmptyString => true
  | String c r => Ascii.eqb c "."%char && all_dots r
  end.

End Str.

(** ** [os.path] on POSIX *)

Module Path.
Import Str.

(** [posixpath.join(a, b)] *)
Definition join (a b : string) : string :=
  if startswith "/" b then b
  else if is_empty a || endswith "/" a then a ++ b
  else a ++ "/" ++ b.

(** [posixpath.split(p)] *)
Definition split (p : string) : string * string :=
  let '(head, tail) := cut_last_sep p in
  (if negb (is_empty head) && negb (all_sep head) then rstrip_sep head
   else head, tail).

(** [posixpath.splitext(p)]: the extension starts at the last dot of the
    last component, unless that component has only leading dots before it *)
Definition splitext (p : string) : string * string :=
  let '(dir, base) := cut_last_sep p in
  match cut_last_dot base with
  | Some (stem, ext) =>
      if all_dots stem then (p, EmptyString) else (dir ++ stem, ext)
  | None => (p, EmptyString)
  end.

Definition ext (p : string) : string := snd (splitext p).

(** the component loop of [posixpath.normpath] *)
Fixpoint norm_comps (initial_slashes : nat) (comps new_comps : list string)
  : list string :=
  match comps with
  | [] => new_comps
  | comp :: rest =>
      if String.eqb comp "" || String.eqb comp "." then
        norm_comps initial_slashes rest new_comps
      else if negb (String.eqb comp "..")
              || (Nat.eqb initial_slashes 0 && Nat.eqb (List.length new_comps) 0)
              || (match List.last (List.map Some new_comps) None with
                  | Some l => String.eqb l ".."
                  | None => false
                  end)
      then norm_comps initial_slashes rest (new_comps ++ [comp])%list
      else norm_comps initial_slashes rest (List.removelast new_comps)
  end.

(** [posixpath.normpath(path)] *)
Definition normpath (path : string) : string :=
  if is_empty path then "."
  else
    let initial_slashes :=
      if startswith "/" path then
        if startswith "//" path && negb (startswith "///" path) then 2%nat
        else 1%nat
      else 0%nat in
    let comps := norm_comps initial_slashes (split_sep path) [] in
    let p := Str.join "/" comps in
    let p := match initial_slashes with
             | O => p
             | S O => "/" ++ p
             | _ => "//" ++ p
             end in
    if is_empty p then "." else p.

End Path.

(** ** The virtual file table: a Python [dict] *)

(** A table value is either a [str] naming a file on disk or an
    [io.StringIO] holding generated text. *)
Inductive source : Type :=
| OnDisk (path : string)
| InMemory (text : string).

(** [isinstance(src, basestring)] *)
Definition is_basestring (s : source) : bool :=
  match s with OnDisk _ => true | InMemory _ => false end.

Module Dict.
Section Dict.
Context {V : Type}.

(** the items in insertion order; a key occurs once *)
Definition t := list (string * V).

(** [d.get(k)] *)
Fixpoint get (k : string) (d : t) : option V :=
  match d with
  | [] => None
  | (k', v) :: r => if String.eqb k' k then Some v else get k r
  end.

(** [d[k] = v]: an existing key keeps its position, a new key goes last *)
Fixpoint set (k : string) (v : V) (d : t) : t :=
  match d with
  | [] => [(k, v)]
  | (k', v') :: r =>
      if String.eqb k' k then (k', v) :: r else (k', v') :: set k v r
  end.

(** [del d[k]] for a key that is present *)
Fixpoint del (k : string) (d : t) : t :=
  match d with
  | [] => []
  | (k', v') :: r => if String.eqb k' k then r else (k', v') :: del k r
  end.

(** [d.update(items)] *)
Definition update (d : t) (items : list (string * V)) : t :=
  fold_left (fun acc kv => set (fst kv) (snd kv) acc) items d.

(** [d.keys()] *)
Definition keys (d : t) : list string := List.map fst d.
End Dict.
Arguments t : clear implicits.
End Dict.

Abbreviation table := (Dict.t source).

(** ** Build options and the collaborators the build reads from *)

(** an entry of [exam.resources]: a bare path or a [name, path] list *)
Inductive resource : Type :=
| ResBare (x : string)
| ResPair (name path : string).

Inductive action : Type := Update | Clean.

Record options : Type := {
  opt_path : string;
  opt_theme : string;
  opt_themepaths : list string;
  opt_resources : list resource;
  opt_extensions : list string;
  opt_followlinks : bool;
  opt_action : action;
  opt_zip : bool;
  opt_scorm : bool;
  opt_output : string;
  opt_minify : string;
  opt_xmls : string;
}.

(** The file system as the build reads it. [walk followlinks top] lists
    [(dirpath, filenames)] as [os.walk] yields them; [read_file] is
    [open(p).read()], [None] when it raises; [read_lines] is
    [open(p).read().splitlines()] and [read_bytes] is
    [open(p,'rb').read()], likewise. *)
Record filesystem : Type := {
  cwd : string;
  isdir : string -> bool;
  exists_ : string -> bool;
  walk : bool -> string -> list (string * list string);
  read_file : string -> option string;
  read_lines : string -> option (list string);
  read_bytes : string -> option string;
}.

(** ** [realFile] and [collectFiles] *)

(** [not (file[-1]=='~' or file[-4:]=='.swp')]; on the empty name Python
    raises [IndexError], which [os.walk] never produces. *)
Definition realFile (file : string) : bool :=
  negb (Str.endswith "~" file
        || (if Nat.leb (String.length file) 4 then String.eqb file ".swp"
            else Str.endswith ".swp" file)).

Definition overlay : Type := string * string.

(** [[x if isinstance(x,list) else [x,x] for x in options.resources]] *)
Definition resource_pair (r : resource) : string * string :=
  match r with
  | ResBare x => (x, x)
  | ResPair name path => (name, path)
  end.

Definition resource_dirs (fs : filesystem) (o : options) : list overlay :=
  List.map (fun np => (Path.join (cwd fs) (snd np), Path.join "resources" (fst np)))
    (List.filter (fun np => isdir fs (snd np)) (List.map resource_pair (opt_resources o))).

Definition extfiles (fs : filesystem) (o : options) : list overlay :=
  List.map (fun x => (Path.join (cwd fs) x, Path.join "extensions" (snd (Path.split x))))
    (List.filter (isdir fs)
       (List.map (fun x => Path.join (Path.join (opt_path o) "extensions") x)
          (opt_extensions o))).

Definition theme_dirs (o : options) : list overlay :=
  List.map (fun themepath => (Path.join themepath "files", ".")) (opt_themepaths o).

(** the overlays one call appends to its [dirs] list, in the order of the
    three appending statements *)
Definition added_dirs (fs : filesystem) (o : options) : list overlay :=
  (resource_dirs fs o ++ extfiles fs o ++ theme_dirs o)%list.

(** the [(key, value)] assignments of the walk over one overlay, in order *)
Definition overlay_entries (fs : filesystem) (o : options) (d : overlay)
  : list (string * source) :=
  let src := Path.join (opt_path o) (fst d) in
  let dst := snd d in
  List.flat_map
    (fun x =>
       let xsrc := fst x in
       let xdst := Str.replace1 src dst (fst x) in
       List.map (fun y => (Path.join xdst y, OnDisk (Path.join xsrc y)))
         (List.filter realFile (snd x)))
    (walk fs (opt_followlinks o) src).

(** the assignments of the final loop over file-valued resources *)
Definition resource_file_entries (fs : filesystem) (o : options)
  : list (string * source) :=
  List.map (fun np => (Path.join "resources" (fst np),
                       OnDisk (Path.join (opt_path o) (snd np))))
    (List.filter (fun np => negb (isdir fs (snd np)))
       (List.map resource_pair (opt_resources o))).

(** the table after the loop over [dirs] *)
Definition overlay_table (fs : filesystem) (o : options) (dirs : list overlay)
  : table :=
  Dict.update [] (List.flat_map (overlay_entries fs o) dirs).

(** [collectFiles(options, dirs)]: returns the table and the list object
    [dirs] as the call leaves it (it is extended in place). *)
Definition collectFiles (fs : filesystem) (o : options) (dirs : list overlay)
  : table * list overlay :=
  let dirs' := (dirs ++ added_dirs fs o)%list in
  (Dict.update (overlay_table fs o dirs') (resource_file_entries fs o), dirs').

(** The default value of [dirs] is one list object, created when the
    function is defined and shared by every call that omits the argument. *)
Definition initial_default_dirs : list overlay := [("runtime", ".")].

Inductive dirs_arg : Type :=
| DefaultDirs
| GivenDirs (dirs : list overlay).

(** A call of [collectFiles] in a process whose shared default list is
    [default_dirs]: the table returned and the default list afterwards. A
    list given by the caller is extended too, but it is the caller's. *)
Definition call_collectFiles (fs : filesystem) (o : options) (arg : dirs_arg)
  (default_dirs : list overlay) : table * list overlay :=
  match arg with
  | DefaultDirs => collectFiles fs o default_dirs
  | GivenDirs dirs => (fst (collectFiles fs o dirs), default_dirs)
  end.

(** ** The default list as an object of the process *)

(** The list objects of a process, by address. *)
Abbreviation heap := (list (list overlay)).

Module Heap.

(** the list stored at [r] *)
Definition get (r : nat) (h : heap) : list overlay :=
  match h !! r with Some l => l | None => [] end.

(** a list display [[...]] evaluates to a new object *)
Definition alloc (l : list overlay) (h : heap) : nat * heap :=
  (List.length h, (h ++ [l])%list).

(** [l += xs], and [l.append(x)] as [extend r [x]]: the object at [r] is
    changed in place, so every name bound to it sees the longer list *)
Definition extend (r : nat) (xs : list overlay) (h : heap) : heap :=
  <[r := (get r h ++ xs)%list]> h.

End Heap.

(** [def collectFiles(options,dirs=[('runtime','.')])] evaluates the default
    expression once, when the module is loaded, and the function keeps a
    reference to that one list: [collectFiles_defaults] is its address in
    the heap [module_heap] of a process that has just loaded the module. *)
Definition collectFiles_defaults : nat := 0.

Definition module_heap : heap := [initial_default_dirs].

(** the body of [collectFiles], run with the name [dirs] bound to the list
    at address [dirs]: the three appending statements change that list, the
    overlay loop reads it *)
Definition collectFiles_at (fs : filesystem) (o : options) (dirs : nat) (h : heap)
  : table * heap :=
  let resources := List.map resource_pair (opt_resources o) in
  let h :=
    fold_left
      (fun h np =>
         if isdir fs (snd np)
         then Heap.extend dirs
                [(Path.join (cwd fs) (snd np), Path.join "resources" (fst np))] h
         else h)
      resources h in
  let h := Heap.extend dirs (extfiles fs o) h in
  let h :=
    fold_left
      (fun h themepath => Heap.extend dirs [(Path.join themepath "files", ".")] h)
      (opt_themepaths o) h in
  let files := overlay_table fs o (Heap.get dirs h) in
  (Dict.update files (resource_file_entries fs o), h).

(** a call [collectFiles(options)] or [collectFiles(options, [...])]: a
    call that omits [dirs] binds it to the function's default object, a
    call that gives a list display binds it to a new object *)
Definition collectFiles_call (fs : filesystem) (o : options) (arg : dirs_arg)
  (h : heap) : table * heap :=
  match arg with
  | DefaultDirs => collectFiles_at fs o collectFiles_defaults h
  | GivenDirs dirs =>
      let '(r, h) := Heap.alloc dirs h in
      collectFiles_at fs o r h
  end.

(** successive calls in one process: the tables they return, and the heap
    they leave *)
Fixpoint collectFiles_calls (fs : filesystem) (calls : list (options * dirs_arg))
  (h : heap) : list table * heap :=
  match calls with
  | [] => ([], h)
  | (o, arg) :: rest =>
      let '(t, h) := collectFiles_call fs o arg h in
      let '(ts, h) := collectFiles_calls fs rest h in
      (t :: ts, h)
  end.

(** ** Exceptions *)

(** The exceptions the modelled code raises. [OutOfFuel] is not a Python
    exception: it marks a loop or recursion that the given fuel did not
    see terminate. *)
Inductive error : Type :=
| ExamCompileError
| LocaleLoadError
| ManifestTemplateError
| ThemeNotFound (theme : string)
| IOError (path : string)
| MissingBootstrapScript
| MinificationFailed (src cmd : string)
| OutOfFuel.

Inductive result (A : Type) : Type :=
| Ok (a : A)
| Err (e : error).
Arguments Ok {A} a.
Arguments Err {A} e.

Definition bind {A B : Type} (r : result A) (k : A -> result B) : result B :=
  match r with
  | Ok a => k a
  | Err e => Err e
  end.

Notation "'let*' x ':=' c 'in' k" := (bind c (fun x => k))
  (at level 10, x name, c at level 100, k at level 200).

Definition is_ok {A : Type} (r : result A) : bool :=
  match r with Ok _ => true | Err _ => false end.

Fixpoint mapM {A B : Type} (f : A -> result B) (l : list A) : result (list B) :=
  match l with
  | [] => Ok []
  | x :: r => let* y := f x in let* ys := mapM f r in Ok (y :: ys)
  end.

(** ** Theme chain resolution (in [run]) *)

(** [get_theme_path(theme, options)] *)
Definition get_theme_path (fs : filesystem) (path theme : string) : result string :=
  if exists_ fs theme then Ok theme
  else
    let ntheme := Path.join (Path.join path "themes") theme in
    if exists_ fs ntheme then Ok ntheme
    else Err (ThemeNotFound theme).

(** The [for theme,i in zip(options.themepaths,count())] loop. The list
    iterator sees the elements the body appends, so the loop ends when [i]
    reaches the current length; [fuel] bounds the iterations. *)
Fixpoint theme_loop (fuel : nat) (fs : filesystem) (path : string)
  (themepaths : list string) (i : nat) : result (list string) :=
  match fuel with
  | O => Err OutOfFuel
  | S fuel' =>
      match themepaths !! i with
      | None => Ok themepaths
      | Some theme =>
          let* theme' := get_theme_path fs path theme in
          let themepaths1 := <[i := theme']> themepaths in
          let inherit_file := Path.join theme' "inherit.txt" in
          let* themepaths2 :=
            (if exists_ fs inherit_file then
               match read_lines fs inherit_file with
               | Some lines => Ok (themepaths1 ++ lines)%list
               | None => Err (IOError inherit_file)
               end
             else Ok themepaths1) in
          theme_loop fuel' fs path themepaths2 (S i)
      end
  end.

(** [options.themepaths] as [run] leaves it: the loop, then [reverse()] *)
Definition resolve_themepaths (fuel : nat) (fs : filesystem) (path theme : string)
  : result (list string) :=
  let* themepaths := theme_loop fuel fs path [theme] 0 in
  Ok (List.rev themepaths).

(** ** Archive names and manifest URLs *)

(** [cleanpath] of [compileToZip]; [fuel] bounds the recursion depth *)
Fixpoint cleanpath (fuel : nat) (path : string) : result string :=
  match fuel with
  | O => Err OutOfFuel
  | S fuel' =>
      if String.eqb path "" then Ok ""
      else
        let '(dirname, basename) := Path.split path in
        let* dirname := cleanpath fuel' dirname in
        Ok (if negb (String.eqb basename ".") then Path.join dirname basename
            else dirname)
  end.

(** the [while head!=''] loop of [to_relative_url] *)
Fixpoint url_loop (fuel : nat) (head tail : string) (bits : list string)
  : result (list string) :=
  match fuel with
  | O => Err OutOfFuel
  | S fuel' =>
      if negb (String.eqb head "") then
        let bits := tail :: bits in
        let '(head, tail) := Path.split head in
        url_loop fuel' head tail bits
      else Ok (tail :: bits)
  end.

(** [to_relative_url] of [makeExam] *)
Definition to_relative_url (fuel : nat) (path : string) : result string :=
  let path := Path.normpath path in
  let '(head, tail) := Path.split path in
  let* bits := url_loop fuel head tail [] in
  Ok (Str.join "/" bits).

(** ** Collaborators outside the packaging pipeline *)

Record exam : Type := {
  exam_name : string;
  exam_resources : list resource;
  exam_extensions : list string;
}.

(** What the build sees of the SCORM manifest: the root's [identifier]
    attribute, the organization title, and the [href]s of the [file]
    children of the resource element, in document order. *)
Record manifest : Type := {
  mf_identifier : string;
  mf_title : string;
  mf_files : list string;
}.

(** The exam compiler, the settings translation, the locale loader, the
    XML library and the minifier process; [None] stands for a raised
    exception. [run_minifier cmd src] is the exit status and the standard
    output of the process. *)
Record collaborators : Type := {
  parse_exam : string -> option exam;
  xml2js : options -> string;
  locale_js : options -> option string;
  manifest_template : string -> option manifest;
  manifest_tostring : manifest -> string;
  run_minifier : string -> string -> Z * string;
}.

(** ** [makeExam]: the stages before the package writer *)

Definition set_exam (o : options) (ex : exam) (xmls : string) : options :=
  {| opt_path := opt_path o; opt_theme := opt_theme o;
     opt_themepaths := opt_themepaths o;
     opt_resources := exam_resources ex;
     opt_extensions := exam_extensions ex;
     opt_followlinks := opt_followlinks o; opt_action := opt_action o;
     opt_zip := opt_zip o; opt_scorm := opt_scorm o;
     opt_output := opt_output o; opt_minify := opt_minify o;
     opt_xmls := xmls |}.

(** [open(src).read() if isinstance(src,basestring) else src.read()] *)
Definition read_source (fs : filesystem) (src : source) : result string :=
  match src with
  | OnDisk p =>
      match read_file fs p with
      | Some c => Ok c
      | None => Err (IOError p)
      end
  | InMemory t => Ok t
  end.

(** the entries whose key has extension [e], in table order *)
Definition with_ext (e : string) (files : table) : list (string * source) :=
  List.filter (fun kv => String.eqb (Path.ext (fst kv)) e) files.

(** [for dst,src in l: del files[dst]] *)
Definition del_all (l : list (string * source)) (files : table) : table :=
  fold_left (fun acc kv => Dict.del (fst kv) acc) l files.

(** the manifest as patched from the table [files] *)
Definition patch_manifest (fuel : nat) (cb : collaborators) (o : options)
  (ex : exam) (files : table) : result manifest :=
  match manifest_template cb
          (Path.join (Path.join (opt_path o) "scormfiles") "imsmanifest.xml") with
  | None => Err ManifestTemplateError
  | Some m =>
      let* resource_files := mapM (to_relative_url fuel) (Dict.keys files) in
      Ok {| mf_identifier := "Numbas: " ++ exam_name ex;
            mf_title := exam_name ex;
            mf_files := (mf_files m ++ resource_files)%list |}
  end.

(** the [if options.scorm:] block *)
Definition scorm_stage (fuel : nat) (fs : filesystem) (cb : collaborators)
  (o : options) (ex : exam) (default_dirs : list overlay) (files : table)
  : result (table * manifest) :=
  let* m := patch_manifest fuel cb o ex files in
  let scormfiles :=
    fst (call_collectFiles fs o (GivenDirs [("scormfiles", ".")]) default_dirs) in
  let files := Dict.update files scormfiles in
  Ok (Dict.set (Path.join "." "imsmanifest.xml")
        (InMemory (manifest_tostring cb m)) files, m).

(** the style sheet merge *)
Definition merge_styles (fs : filesystem) (files : table) : result table :=
  let stylesheets := with_ext ".css" files in
  let files := del_all stylesheets files in
  let* texts := mapM (read_source fs) (List.map snd stylesheets) in
  Ok (Dict.set (Path.join "." "styles.css") (InMemory (Str.join (String "010" "") texts)) files).

(** [l.remove(x)] for a [str] [x]: drops the first element equal to it, and
    raises when there is none; an [io.StringIO] never equals a [str] *)
Fixpoint list_remove (x : string) (l : list source) : option (list source) :=
  match l with
  | [] => None
  | OnDisk p :: r =>
      if String.eqb p x then Some r
      else option_map (cons (OnDisk p)) (list_remove x r)
  | InMemory t :: r => option_map (cons (InMemory t)) (list_remove x r)
  end.

Definition numbas_loader_path (o : options) : string :=
  Path.join (Path.join (Path.join (opt_path o) "runtime") "scripts") "numbas.js".

(** the key under which the runtime overlay files the loader *)
Definition numbas_loader_dst : string :=
  Path.join (Path.join "." "scripts") "numbas.js".

(** the script list in concatenation order *)
Definition script_order (o : options) (files : table) : result (list source) :=
  match list_remove (numbas_loader_path o) (List.map snd (with_ext ".js" files)) with
  | None => Err MissingBootstrapScript
  | Some rest => Ok (OnDisk (numbas_loader_path o) :: rest)
  end.

(** the script merge *)
Definition merge_scripts (fs : filesystem) (o : options) (files : table)
  : result table :=
  let javascripts := with_ext ".js" files in
  let files' := del_all javascripts files in
  let* javascripts := script_order o files in
  let* texts := mapM (read_source fs) javascripts in
  Ok (Dict.set (Path.join "." "scripts.js") (InMemory (Str.join (String "010" "") texts)) files').

(** asset aggregation: styles, then scripts *)
Definition aggregate (fs : filesystem) (o : options) (files : table) : result table :=
  let* files := merge_styles fs files in
  merge_scripts fs o files.

(** the body of the minification loop for one item *)
Definition minify_entry (cb : collaborators) (o : options)
  (acc : result table) (kv : string * source) : result table :=
  let* files := acc in
  match snd kv with
  | OnDisk src =>
      if String.eqb (Path.ext (fst kv)) ".js" then
        let '(code, out) := run_minifier cb (opt_minify o) src in
        if negb (Z.eqb code 0) then Err (MinificationFailed src (opt_minify o))
        else Ok (Dict.set (fst kv) (InMemory out) files)
      else Ok files
  | InMemory _ => Ok files
  end.

(** the [if options.minify:] block *)
Definition minify_stage (cb : collaborators) (o : options) (files : table)
  : result table :=
  if negb (String.eqb (opt_minify o) "") then
    fold_left (minify_entry cb o) files (Ok files)
  else Ok files.

(** the table after generated-content injection *)
Definition injected_table (files : table) (xmls locale : string) : table :=
  Dict.set (Path.join "." "locale.js") (InMemory locale)
    (Dict.set (Path.join "." "settings.js") (InMemory xmls) files).

(** [makeExam] up to the call of the writer: the table handed to it, the
    table as it was after generated-content injection, the patched manifest
    of a SCORM build, and the shared default [dirs] list as the build
    leaves it. *)
Record build : Type := {
  b_options : options;
  b_exam : exam;
  b_injected : table;
  b_manifest : option manifest;
  b_final : table;
  b_default_dirs : list overlay;
}.

Definition makeExam_table (fuel : nat) (fs : filesystem) (cb : collaborators)
  (o : options) (source_text : string) (default_dirs : list overlay)
  : result build :=
  match parse_exam cb source_text with
  | None => Err ExamCompileError
  | Some ex =>
      let o := set_exam o ex (opt_xmls o) in
      let o := set_exam o ex (xml2js cb o) in
      let '(files, default_dirs') :=
        call_collectFiles fs o DefaultDirs default_dirs in
      match locale_js cb o with
      | None => Err LocaleLoadError
      | Some locale =>
          let injected := injected_table files (opt_xmls o) locale in
          let* fm := (if opt_scorm o then
                        let* fm := scorm_stage fuel fs cb o ex default_dirs' injected in
                        Ok (fst fm, Some (snd fm))
                      else Ok (injected, None)) in
          let* files := aggregate fs o (fst fm) in
          let* files := minify_stage cb o files in
          Ok {| b_options := o; b_exam := ex; b_injected := injected;
                b_manifest := snd fm;
                b_final := files; b_default_dirs := default_dirs' |}
      end
  end.

(** ** The archive writer *)

(** what [writestr] is given for a table value: a file is read with
    [open(src,'rb').read()], a text buffer with [src.read()] *)
Definition read_member (fs : filesystem) (src : source) : result string :=
  match src with
  | OnDisk p =>
      match read_bytes fs p with
      | Some bytes => Ok bytes
      | None => Err (IOError p)
      end
  | InMemory text => Ok text
  end.

(** [compileToZip]: the archive as the list of [(name, bytes)] written by
    [writestr], in order. *)
Definition zip_entry (fuel : nat) (fs : filesystem) (kv : string * source)
  : result (string * string) :=
  let* name := cleanpath fuel (fst kv) in
  let* data := read_member fs (snd kv) in
  Ok (name, data).

Definition compileToZip (fuel : nat) (fs : filesystem) (files : table)
  : result (list (string * string)) :=
  mapM (zip_entry fuel fs) files.

(** ** The directory writer *)

(** The disk the directory writer works on. A path names the node stored
    under its normal form ([.] and empty components do not matter to the
    operating system); [mtime] is the value [os.path.getmtime] returns,
    through an order embedding into [Z]; [writes] logs the destination of
    every [copyfile] and [copyfileobj], oldest first. *)
Inductive node : Type :=
| File (content : string) (mtime : Z)
| Dir (mtime : Z).

Record disk : Type := {
  nodes : gmap string node;
  now : Z;
  writes : list string;
}.

Module Disk.

Definition key (p : string) : string := Path.normpath p.

(** the node a path names; the empty path names none *)
Definition lookup (d : disk) (p : string) : option node :=
  if String.eqb p "" then None else nodes d !! key p.

(** [os.path.exists(p)] *)
Definition exists_ (d : disk) (p : string) : bool :=
  match lookup d p with Some _ => true | None => false end.

(** [os.path.getmtime(p)] *)
Definition getmtime (d : disk) (p : string) : result Z :=
  match lookup d p with
  | Some (File _ t) => Ok t
  | Some (Dir t) => Ok t
  | None => Err (IOError p)
  end.

Definition is_dir (d : disk) (p : string) : bool :=
  match lookup d p with Some (Dir _) => true | _ => false end.

Definition with_nodes (d : disk) (m : gmap string node) : disk :=
  {| nodes := m; now := now d; writes := writes d |}.

(** the directory that holds the node of [p]: the working directory for a
    one-component relative path *)
Definition parent (p : string) : string :=
  let h := fst (Path.split (key p)) in
  if String.eqb h "" then "." else h.

(** [os.mkdir(p)] *)
Definition mkdir (d : disk) (p : string) : result disk :=
  if String.eqb p "" then Err (IOError p)
  else if exists_ d p then Err (IOError p)
  else if is_dir d (parent p)
  then Ok (with_nodes d (<[key p := Dir (now d)]> (nodes d)))
  else Err (IOError p).

(** [try: os.mkdir(p) except OSError: pass] *)
Definition try_mkdir (d : disk) (p : string) : disk :=
  match mkdir d p with Ok d' => d' | Err _ => d end.

(** [p] is [root] or lies below it *)
Definition under (root p : string) : bool :=
  String.eqb p root || Str.startswith (Path.join root "") p.

(** [try: shutil.rmtree(p) except OSError: pass] *)
Definition try_rmtree (d : disk) (p : string) : disk :=
  if is_dir d p then
    with_nodes d (filter (fun kv => Is_true (negb (under (key p) (fst kv)))) (nodes d))
  else d.

(** the write that [shutil.copyfile] and [open(dst,'w')] share *)
Definition write (d : disk) (dst content : string) : result disk :=
  if String.eqb dst "" then Err (IOError dst)
  else if is_dir d dst then Err (IOError dst)
  else if is_dir d (parent dst) then
    Ok {| nodes := <[key dst := File content (now d)]> (nodes d);
          now := now d;
          writes := (writes d ++ [dst])%list |}
  else Err (IOError dst).

(** [shutil.copyfile(src, dst)] *)
Definition copyfile (d : disk) (src dst : string) : result disk :=
  match lookup d src with
  | Some (File content _) => write d dst content
  | _ => Err (IOError src)
  end.

End Disk.

(** [makepath] of [compileToDir]; [fuel] bounds the recursion depth *)
Fixpoint makepath (fuel : nat) (d : disk) (path : string) : result disk :=
  match fuel with
  | O => Err OutOfFuel
  | S fuel' =>
      let dir := fst (Path.split path) in
      if negb (Disk.exists_ d dir) then
        let* d := makepath fuel' d dir in
        Ok (Disk.try_mkdir d dir)
      else Ok d
  end.

(** the copy test of [compileToDir] *)
Definition must_copy (act : action) (d : disk) (src dst : string) : result bool :=
  match act with
  | Clean => Ok true
  | Update =>
      if negb (Disk.exists_ d dst) then Ok true
      else
        let* ts := Disk.getmtime d src in
        let* td := Disk.getmtime d dst in
        Ok (Z.ltb td ts)
  end.

(** the body of the loop of [compileToDir] for one table item *)
Definition write_entry (fuel : nat) (o : options) (d : disk) (kv : string * source)
  : result disk :=
  let dst := Path.join (opt_output o) (fst kv) in
  let* d := makepath fuel d dst in
  match snd kv with
  | OnDisk src =>
      let* c := must_copy (opt_action o) d src dst in
      if c then Disk.copyfile d src dst else Ok d
  | InMemory text => Disk.write d dst text
  end.

Fixpoint write_entries (fuel : nat) (o : options) (d : disk) (files : table)
  : result disk :=
  match files with
  | [] => Ok d
  | kv :: rest =>
      let* d := write_entry fuel o d kv in
      write_entries fuel o d rest
  end.

(** [compileToDir(exam, files, options)] *)
Definition compileToDir (fuel : nat) (o : options) (files : table) (d : disk)
  : result disk :=
  let d := match opt_action o with
           | Clean => Disk.try_rmtree d (opt_output o)
           | Update => d
           end in
  let d := Disk.try_mkdir d (opt_output o) in
  write_entries fuel o d files.

(** ** [makeExam] *)

Inductive bundle : Type :=
| Archive (entries : list (string * string))
| Directory (d : disk).

(** [makeExam(options)]: the bundle written, and the shared default
    [dirs] list afterwards. [fs] is what the build reads of the source
    trees, [d] the disk the directory writer works on. *)
Definition makeExam (fuel : nat) (fs : filesystem) (cb : collaborators)
  (o : options) (source_text : string) (default_dirs : list overlay) (d : disk)
  : result (bundle * list overlay) :=
  let* b := makeExam_table fuel fs cb o source_text default_dirs in
  if opt_zip (b_options b) then
    let* entries := compileToZip fuel fs (b_final b) in
    Ok (Archive entries, b_default_dirs b)
  else
    let* d := compileToDir fuel (b_options b) (b_final b) d in
    Ok (Directory d, b_default_dirs b).

(** [run()] from the resolution of the theme chain on *)
Definition run (fuel : nat) (fs : filesystem) (cb : collaborators)
  (o : options) (source_text : string) (d : disk) : result bundle :=
  let* themepaths := resolve_themepaths fuel fs (opt_path o) (opt_theme o) in
  let o := {| opt_path := opt_path o; opt_theme := opt_theme o;
              opt_themepaths := themepaths;
              opt_resources := opt_resources o;
              opt_extensions := opt_extensions o;
              opt_followlinks := opt_followlinks o; opt_action := opt_action o;
              opt_zip := opt_zip o; opt_scorm := opt_scorm o;
              opt_output := opt_output o; opt_minify := opt_minify o;
              opt_xmls := opt_xmls o |} in
  let* r := makeExam fuel fs cb o source_text initial_default_dirs d in
  Ok (fst r).

(** ** A small installation, for examples *)

Module Demo.

Fixpoint assoc {A : Type} (k : string) (l : list (string * A)) : option A :=
  match l with
  | [] => None
  | (k', v) :: r => if String.eqb k' k then Some v else assoc k r
  end.

Definition member (k : string) (l : list string) : bool :=
  List.existsb (String.eqb k) l.

(** a file system given by its tables *)
Definition mk_fs (dirs existing : list string)
  (walks : list (string * list (string * list string)))
  (contents : list (string * string))
  (lines : list (string * list string)) : filesystem :=
  {| cwd := "/n";
     isdir := fun p => member p dirs;
     exists_ := fun p => member p existing;
     walk := fun _ top => match assoc top walks with Some l => l | None => [] end;
     read_file := fun p => assoc p contents;
     read_lines := fun p => assoc p lines;
     read_bytes := fun p => assoc p contents |}.

Definition runtime_walk : list (string * list string) :=
  [("/n/runtime", ["index.html"]);
   ("/n/runtime/scripts", ["jme.js"; "numbas.js"; "numbas.js~"]);
   ("/n/runtime/css", ["main.css"])].

Definition contents : list (string * string) :=
  [("/n/runtime/index.html", "<html>");
   ("/n/runtime/scripts/jme.js", "jme();");
   ("/n/runtime/scripts/numbas.js", "boot();");
   ("/n/runtime/css/main.css", "body{}");
   ("/n/themes/leaf/files/css/leaf.css", "p{}");
   ("/n/themes/leaf/files/index.html", "<leaf>");
   ("/n/themes/leaf/files/scripts/numbas.js", "leafboot();");
   ("/n/themes/dots/files/.js", "dot();");
   ("/n/scormfiles/scorm.js", "scorm();")].

(** the theme [leaf] inherits from [A] then [B]; [leaf] has files *)
Definition fs : filesystem :=
  mk_fs ["/n/runtime"; "/n/pics"]
    ["/n/themes/leaf"; "/n/themes/A"; "/n/themes/B"; "/n/themes/default";
     "/n/themes/leaf/inherit.txt"]
    [("/n/runtime", runtime_walk);
     ("/n/themes/leaf/files",
      [("/n/themes/leaf/files", ["index.html"]);
       ("/n/themes/leaf/files/css", ["leaf.css"])]);
     ("/n/themes/dots/files", [("/n/themes/dots/files", [".js"])]);
     ("/n/themes/over/files",
      [("/n/themes/over/files/scripts", ["numbas.js"])]);
     ("/n/scormfiles", [("/n/scormfiles", ["scorm.js"])])]
    (contents ++ [("/n/themes/over/files/scripts/numbas.js", "over();")])%list
    [("/n/themes/leaf/inherit.txt", ["A"; "B"])].

Definition opts : options :=
  {| opt_path := "/n"; opt_theme := "leaf";
     opt_themepaths := ["/n/themes/leaf"];
     opt_resources := []; opt_extensions := [];
     opt_followlinks := false; opt_action := Update;
     opt_zip := true; opt_scorm := false;
     opt_output := "/out/exam.zip"; opt_minify := "";
     opt_xmls := "" |}.

Definition with_themes (o : options) (themepaths : list string) : options :=
  {| opt_path := opt_path o; opt_theme := opt_theme o;
     opt_themepaths := themepaths;
     opt_resources := opt_resources o; opt_extensions := opt_extensions o;
     opt_followlinks := opt_followlinks o; opt_action := opt_action o;
     opt_zip := opt_zip o; opt_scorm := opt_scorm o;
     opt_output := opt_output o; opt_minify := opt_minify o;
     opt_xmls := opt_xmls o |}.

Definition with_flags (o : options) (scorm : bool) (minify : string) : options :=
  {| opt_path := opt_path o; opt_theme := opt_theme o;
     opt_themepaths := opt_themepaths o;
     opt_resources := opt_resources o; opt_extensions := opt_extensions o;
     opt_followlinks := opt_followlinks o; opt_action := opt_action o;
     opt_zip := opt_zip o; opt_scorm := scorm;
     opt_output := opt_output o; opt_minify := minify;
     opt_xmls := opt_xmls o |}.

Definition the_exam (resources : list resource) : exam :=
  {| exam_name := "Quiz 1"; exam_resources := resources; exam_extensions := [] |}.

(** collaborators: the exam declares [resources]; the minifier exits with
    [status] whatever it is given *)
Definition cb (resources : list resource) (status : Z) : collaborators :=
  {| parse_exam := fun _ => Some (the_exam resources);
     xml2js := fun _ => "settings();";
     locale_js := fun _ => Some "locale();";
     manifest_template := fun _ =>
       Some {| mf_identifier := ""; mf_title := ""; mf_files := [] |};
     manifest_tostring := fun m => Str.join "," (mf_files m);
     run_minifier := fun _ _ => (status, "") |}.

(** the table of the demo build with theme chain [themepaths] and
    declared resources [resources] *)
Definition collected (themepaths : list string) (resources : list resource)
  : table :=
  fst (collectFiles fs
         (set_exam (with_themes opts themepaths) (the_exam resources) "")
         initial_default_dirs).

Definition empty_disk : disk := {| nodes := ∅; now := 0; writes := [] |}.

(** an output directory written by an earlier build: [index.html] was
    copied at time 7 from a source last changed at time 5, [jme.js] at
    time 3 from a source changed at time 6 since *)
Definition built_disk : disk :=
  {| nodes :=
       list_to_map
         [("/", Dir 0); ("/n", Dir 0); ("/n/runtime", Dir 0);
          ("/n/runtime/scripts", Dir 0);
          ("/n/runtime/index.html", File "<html>" 5);
          ("/n/runtime/scripts/jme.js", File "jme2();" 6);
          ("/out", Dir 1); ("/out/scripts", Dir 1);
          ("/out/index.html", File "<html>" 7);
          ("/out/scripts/jme.js", File "jme();" 3)];
     now := 9;
     writes := [] |}.

Definition dir_opts : options :=
  {| opt_path := "/n"; opt_theme := "default";
     opt_themepaths := [];
     opt_resources := []; opt_extensions := [];
     opt_followlinks := false; opt_action := Update;
     opt_zip := false; opt_scorm := false;
     opt_output := "/out"; opt_minify := "";
     opt_xmls := "" |}.


(** an installation whose theme [pic] ships [resources/pics/a.png], for an
    exam that names its own directory [pics], which holds [a.png] *)
Definition pics_fs : filesystem :=
  mk_fs ["pics"] ["/n/themes/pic"]
    [("/n/runtime", [("/n/runtime", ["index.html"])]);
     ("/n/themes/pic/files",
      [("/n/themes/pic/files", []);
       ("/n/themes/pic/files/resources", []);
       ("/n/themes/pic/files/resources/pics", ["a.png"])]);
     ("/n/pics", [("/n/pics", ["a.png"])])]
    [("/n/runtime/index.html", "<html>");
     ("/n/themes/pic/files/resources/pics/a.png", "theme picture");
     ("/n/pics/a.png", "exam picture")]
    [].

Definition pics_opts : options :=
  {| opt_path := "/n"; opt_theme := "pic";
     opt_themepaths := ["/n/themes/pic"];
     opt_resources := [ResBare "pics"]; opt_extensions := [];
     opt_followlinks := false; opt_action := Clean;
     opt_zip := false; opt_scorm := false;
     opt_output := "/out"; opt_minify := "";
     opt_xmls := "" |}.

(** the disk of that installation, with no output directory yet *)
Definition pics_disk : disk :=
  {| nodes :=
       list_to_map
         [("/", Dir 0); ("/n", Dir 0); ("/n/runtime", Dir 0);
          ("/n/runtime/index.html", File "<html>" 1);
          ("/n/pics", Dir 0); ("/n/pics/a.png", File "exam picture" 2);
          ("/n/themes", Dir 0); ("/n/themes/pic", Dir 0);
          ("/n/themes/pic/files", Dir 0);
          ("/n/themes/pic/files/resources", Dir 0);
          ("/n/themes/pic/files/resources/pics", Dir 0);
          ("/n/themes/pic/files/resources/pics/a.png", File "theme picture" 1)];
     now := 9;
     writes := [] |}.

End Demo.

(** ** Notions used in the statements *)

(** The statement that a theme declaring ancestors [A] then [B] resolves
    to the chain [[A; B; requested]]. *)
Definition chain_keeps_declaration_order : Prop :=
  forall (fs : filesystem) (path theme A B t a b : string),
    get_theme_path fs path theme = Ok t ->
    exists_ fs (Path.join t "inherit.txt") = true ->
    read_lines fs (Path.join t "inherit.txt") = Some [A; B] ->
    get_theme_path fs path A = Ok a ->
    exists_ fs (Path.join a "inherit.txt") = false ->
    get_theme_path fs path B = Ok b ->
    exists_ fs (Path.join b "inherit.txt") = false ->
    exists fuel, resolve_themepaths fuel fs path theme = Ok [a; b; t].

(** the entries whose key does not have extension [e], in table order *)
Definition without_ext (e : string) (files : table) : table :=
  List.filter (fun kv => negb (String.eqb (Path.ext (fst kv)) e)) files.

(** The statement that after aggregation the merged entries are the only
    ones with a style or script extension, and that no other key ends in
    [.css] or [.js]. *)
Definition collapse_by_suffix : Prop :=
  forall (fs : filesystem) (o : options) (files t : table),
    aggregate fs o files = Ok t ->
    List.map fst (with_ext ".css" t) = ["./styles.css"] /\
    List.map fst (with_ext ".js" t) = ["./scripts.js"] /\
    forall k, In k (Dict.keys t) ->
      Str.endswith ".css" k = true \/ Str.endswith ".js" k = true ->
      k = "./styles.css" \/ k = "./scripts.js".

(** The statement that replacing the entry at the loader's key by another
    source always makes aggregation fail. *)
Definition override_always_aborts : Prop :=
  forall (fs : filesystem) (o : options) (files : table) (s : string),
    List.NoDup (Dict.keys files) ->
    Dict.get numbas_loader_dst files = Some (OnDisk s) ->
    s <> numbas_loader_path o ->
    is_ok (aggregate fs o files) = false.

(** The statement that the manifest of a SCORM build has a [file] element
    for the URL of every key of the table handed to the writer, and for
    nothing else. *)
Definition manifest_lists_final_table : Prop :=
  forall (fuel : nat) (fs : filesystem) (cb : collaborators) (o : options)
         (text : string) (b : build) (m : manifest),
    makeExam_table fuel fs cb o text initial_default_dirs = Ok b ->
    b_manifest b = Some m ->
    (forall k, In k (Dict.keys (b_final b)) ->
       exists href, to_relative_url fuel k = Ok href /\ In href (mf_files m)) /\
    (forall href, In href (mf_files m) ->
       exists k, In k (Dict.keys (b_final b)) /\ to_relative_url fuel k = Ok href).

(** [s] has no slash *)
Fixpoint slash_free (s : string) : bool :=
  match s with
  | EmptyString => true
  | String c r => negb (Str.is_sep c) && slash_free r
  end.

(** the last character of [s] is a slash *)
Fixpoint last_is_sep (s : string) : bool :=
  match s with
  | EmptyString => false
  | String c EmptyString => Str.is_sep c
  | String _ r => last_is_sep r
  end.

(** the components that are neither empty nor [.] *)
Definition proper (l : list string) : list string :=
  List.filter (fun s => negb (String.eqb s "" || String.eqb s ".")) l.

(** the components of the path [p] that are neither empty nor [.] *)
Definition proper_segments (p : string) : list string := proper (Str.split_sep p).

(** [l] without its trailing empty components *)
Fixpoint strip (l : list string) : list string :=
  match l with
  | [] => []
  | x :: r =>
      match strip r with
      | [] => if String.eqb x "" then [] else [x]
      | r' => x :: r'
      end
  end.

(** every component is free of slashes *)
Definition all_slash_free (l : list string) : Prop :=
  List.Forall (fun x => slash_free x = true) l.

(** every component is free of slashes and not empty *)
Definition all_proper (l : list string) : Prop :=
  List.Forall (fun x => slash_free x = true /\ x <> "") l.

(** The statement that two paths with the same components, empty and [.]
    components apart, get the same archive entry name. *)
Definition cleanpath_collapses_all : Prop :=
  forall p q : string,
    proper_segments p = proper_segments q ->
    exists fuel name, cleanpath fuel p = Ok name /\ cleanpath fuel q = Ok name.

(** the value of the last assignment to [k] in a list of assignments *)
Fixpoint lookup_last {V : Type} (k : string) (l : list (string * V)) : option V :=
  match l with
  | [] => None
  | (k', v) :: r =>
      match lookup_last k r with
      | Some v' => Some v'
      | None => if String.eqb k' k then Some v else None
      end
  end.

(** what [os.walk] guarantees: every directory it yields starts with the
    top it was given, and no file name starts with a slash *)
Definition wf_walk (fs : filesystem) : Prop :=
  forall (followlinks : bool) (top d : string) (names : list string),
    In (d, names) (walk fs followlinks top) ->
    Str.startswith top d = true /\
    forall y, In y names -> Str.startswith "/" y = false.

(** what [os.walk] guarantees of file names: they hold no slash *)
Definition plain_names (fs : filesystem) : Prop :=
  forall (followlinks : bool) (top d : string) (names : list string) (y : string),
    In (d, names) (walk fs followlinks top) -> In y names -> slash_free y = true.

(** The overlays of a build, kind by kind, from the options and the file
    system: the runtime root; one overlay for every named resource that is
    a directory, in declaration order; one for every declared extension
    whose directory exists, in declaration order; one for every theme of
    the chain, from the base to the requested theme. *)
Definition runtime_overlay : overlay := ("runtime", ".").

Definition resource_overlays (fs : filesystem) (o : options) : list overlay :=
  List.flat_map
    (fun r =>
       match r with
       | ResBare x =>
           if isdir fs x
           then [(Path.join (cwd fs) x, Path.join "resources" x)] else []
       | ResPair name path =>
           if isdir fs path
           then [(Path.join (cwd fs) path, Path.join "resources" name)] else []
       end)
    (opt_resources o).

Definition extension_overlays (fs : filesystem) (o : options) : list overlay :=
  List.flat_map
    (fun e =>
       let x := Path.join (Path.join (opt_path o) "extensions") e in
       if isdir fs x
       then [(Path.join (cwd fs) x, Path.join "extensions" (snd (Path.split x)))]
       else [])
    (opt_extensions o).

Definition theme_overlays (o : options) : list overlay :=
  List.map (fun themepath => (Path.join themepath "files", ".")) (opt_themepaths o).

(** what one build appends to the list of overlays it is given *)
Definition appended_overlays (fs : filesystem) (o : options) : list overlay :=
  (resource_overlays fs o ++ extension_overlays fs o ++ theme_overlays o)%list.

(** The overlays in the order in which [collectFiles(options)] applies
    them: the resource directories come right after the runtime root. *)
Definition append_order (fs : filesystem) (o : options) : list overlay :=
  runtime_overlay :: appended_overlays fs o.

(** The overlays in the priority order of the specification: the runtime
    root, the extension roots, the theme chain, the resource directories. *)
Definition claimed_order (fs : filesystem) (o : options) : list overlay :=
  (runtime_overlay :: extension_overlays fs o ++ theme_overlays o
     ++ resource_overlays fs o)%list.

(** The overlay [d] has an entry with key [k] and value [s]: the walk of
    its source root lists a directory [dir] with a file [y] that passes
    [realFile]; the key is [y] under [dir] with the source root replaced by
    the destination root, the value is the path of the file. *)
Definition contributes (fs : filesystem) (o : options) (d : overlay)
  (k : string) (s : source) : Prop :=
  exists (dir : string) (names : list string) (y : string),
    In (dir, names) (walk fs (opt_followlinks o) (Path.join (opt_path o) (fst d))) /\
    In y names /\ realFile y = true /\
    k = Path.join (Str.replace1 (Path.join (opt_path o) (fst d)) (snd d) dir) y /\
    s = OnDisk (Path.join dir y).

(** [x] stands before [y] in [l] *)
Definition stands_before {A : Type} (x y : A) (l : list A) : Prop :=
  exists a b c : list A, l = (a ++ x :: b ++ y :: c)%list.

(** The entry of a table that a writer handles last among those whose keys
    name the bundle path [p]: keys that differ only in empty and [.]
    components name the same path. *)
Fixpoint last_at (p : string) (files : table) : option (string * source) :=
  match files with
  | [] => None
  | (k, v) :: rest =>
      match last_at p rest with
      | Some e => Some e
      | None => if String.eqb (Path.normpath k) p then Some (k, v) else None
      end
  end.

(** The statement that of two overlay entries naming the same bundle path,
    the one whose overlay is later in the specification's order wins: the
    entry of the table that is written last at that path comes from that
    overlay or from a later one. *)
Definition claimed_order_decides : Prop :=
  forall (fs : filesystem) (o : options) (i j : nat) (d1 d2 : overlay)
         (k1 k2 : string) (s1 s2 : source),
    wf_walk fs -> plain_names fs ->
    i < j ->
    claimed_order fs o !! i = Some d1 ->
    claimed_order fs o !! j = Some d2 ->
    contributes fs o d1 k1 s1 ->
    contributes fs o d2 k2 s2 ->
    Path.normpath k1 = Path.normpath k2 ->
    exists (j' : nat) (d' : overlay) (k' : string) (s' : source),
      j <= j' /\ claimed_order fs o !! j' = Some d' /\
      contributes fs o d' k' s' /\
      last_at (Path.normpath k2) (fst (collectFiles fs o initial_default_dirs))
      = Some (k', s').

(** the collaborators [cb] with another minifier process *)
Definition with_minifier (cb : collaborators) (f : string -> string -> Z * string)
  : collaborators :=
  {| parse_exam := parse_exam cb;
     xml2js := xml2js cb;
     locale_js := locale_js cb;
     manifest_template := manifest_template cb;
     manifest_tostring := manifest_tostring cb;
     run_minifier := f |}.

(** ** The namespace prefixes of the serialised manifest *)

(** the module-level [namespaces] table: prefix, then URI *)
Definition namespaces : list (string * string) :=
  [("", "http://www.imsglobal.org/xsd/imscp_v1p1");
   ("xsi", "http://www.w3.org/2001/XMLSchema-instance");
   ("adlcp", "http://www.adlnet.org/xsd/adlcp_v1p3");
   ("adlseq", "http://www.adlnet.org/xsd/adlseq_v1p3");
   ("adlnav", "http://www.adlnet.org/xsd/adlnav_v1p3");
   ("imsss", "http://www.imsglobal.org/xsd/imsss")].

(** [for ns,url in namespaces.items(): etree._namespace_map[url] = ns if
    len(ns) else None], on the map [etree] starts with; a value is a
    prefix or Python's [None] *)
Definition register_namespaces (namespace_map : Dict.t (option string))
  : Dict.t (option string) :=
  Dict.update namespace_map
    (List.map (fun nu => (snd nu, if Str.is_empty (fst nu) then None else Some (fst nu)))
       namespaces).

(** [s.split(c, 1)] when [c] occurs in [s]: the parts before and after its
    first occurrence *)
Fixpoint cut_first (c : ascii) (s : string) : option (string * string) :=
  match s with
  | EmptyString => None
  | String x r =>
      if Ascii.eqb x c then Some (EmptyString, r)
      else match cut_first c r with
           | Some (a, b) => Some (String x a, b)
           | None => None
           end
  end.

(** ["%d" % n] *)
Definition decimal (n : nat) : string := NilEmpty.string_of_uint (Nat.to_uint n).

(** [fixtag(tag, namespaces)] with [etree._namespace_map] as
    [namespace_map]: the prefixed tag, the namespace declaration if one is
    due, and the dictionary [namespaces] as the call leaves it; [None] when
    unpacking the split raises because the tag has no closing brace. *)
Definition fixtag (namespace_map : Dict.t (option string)) (tag : string)
  (nss : Dict.t (option string))
  : option (string * option (string * string) * Dict.t (option string)) :=
  match cut_first "}" (Str.drop 1 tag) with
  | None => None
  | Some (namespace_uri, tag) =>
      let '(prefix, xmlns, nss) :=
        match Dict.get namespace_uri nss with
        | None =>
            let prefix :=
              match Dict.get namespace_uri namespace_map with
              | Some prefix => prefix
              | None => Some ("ns" ++ decimal (List.length nss))
              end in
            let nss := Dict.set namespace_uri prefix nss in
            let xmlns :=
              match prefix with
              | Some "xml" => None
              | Some prefix => Some ("xmlns" ++ ":" ++ prefix, namespace_uri)
              | None => Some ("xmlns" ++ "", namespace_uri)
              end in
            (prefix, xmlns, nss)
        | Some prefix => (prefix, None, nss)
        end in
      let prefix := match prefix with Some prefix => prefix ++ ":" | None => "" end in
      Some (prefix ++ tag, xmlns, nss)
  end.

(* ================================================================== *)
(** * Properties *)

Example join_ex1 : Path.join "resources" "img" = "resources/img". Proof. reflexivity. Qed.
Example join_ex2 : Path.join "a/" "b" = "a/b". Proof. reflexivity. Qed.
Example join_ex3 : Path.join "a" "/b" = "/b". Proof. reflexivity. Qed.
Example join_ex4 : Path.join "" "b" = "b". Proof. reflexivity. Qed.
Example split_ex1 : Path.split "./a/b.js" = ("./a", "b.js"). Proof. reflexivity. Qed.
Example split_ex2 : Path.split "a//b" = ("a", "b"). Proof. reflexivity. Qed.
Example split_ex3 : Path.split "/" = ("/", ""). Proof. reflexivity. Qed.
Example split_ex4 : Path.split "a" = ("", "a"). Proof. reflexivity. Qed.
Example split_ex5 : Path.split "a/b/" = ("a/b", ""). Proof. reflexivity. Qed.
Example splitext_ex1 : Path.splitext "./a/b.js" = ("./a/b", ".js"). Proof. reflexivity. Qed.
Example splitext_ex2 : Path.splitext "./a/.js" = ("./a/.js", ""). Proof. reflexivity. Qed.
Example splitext_ex3 : Path.splitext "./a.b/c" = ("./a.b/c", ""). Proof. reflexivity. Qed.
Example splitext_ex4 : Path.splitext "x.min.js" = ("x.min", ".js"). Proof. reflexivity. Qed.
Example normpath_ex1 : Path.normpath "./a//b/../c.js" = "a/c.js". Proof. reflexivity. Qed.
Example normpath_ex2 : Path.normpath "./settings.js" = "settings.js". Proof. reflexivity. Qed.
Example normpath_ex3 : Path.normpath "//a" = "//a". Proof. reflexivity. Qed.
Example replace1_ex : Str.replace1 "/n/t" "." "/n/t/x/n/t" = "./x/n/t". Proof. reflexivity. Qed.

Example cleanpath_ex1 : cleanpath 10 "./a/b.js" = Ok "a/b.js". Proof. reflexivity. Qed.
Example cleanpath_ex2 : cleanpath 10 "a/b.js" = Ok "a/b.js". Proof. reflexivity. Qed.
Example cleanpath_ex3 : cleanpath 10 "a/b/" = Ok "a/b/". Proof. reflexivity. Qed.
Example cleanpath_ex4 : cleanpath 10 "/a" = Err OutOfFuel. Proof. reflexivity. Qed.
Example cleanpath_ex5 : cleanpath 10 "a//./b" = Ok "a/b". Proof. reflexivity. Qed.
Example url_ex1 : to_relative_url 10 "./a/b.js" = Ok "a/b.js". Proof. reflexivity. Qed.
Example url_ex2 : to_relative_url 10 "/a/b.js" = Err OutOfFuel. Proof. reflexivity. Qed.

Example demo_table :
  fst (collectFiles Demo.fs Demo.opts initial_default_dirs) =
  [("./index.html", OnDisk "/n/themes/leaf/files/index.html");
   ("./scripts/jme.js", OnDisk "/n/runtime/scripts/jme.js");
   ("./scripts/numbas.js", OnDisk "/n/runtime/scripts/numbas.js");
   ("./css/main.css", OnDisk "/n/runtime/css/main.css");
   ("./css/leaf.css", OnDisk "/n/themes/leaf/files/css/leaf.css")].
Proof. vm_compute. reflexivity. Qed.

Example demo_build :
  match makeExam_table 10 Demo.fs (Demo.cb [] 0) Demo.opts "" initial_default_dirs with
  | Ok b => b_final b
  | Err _ => []
  end =
  [("./index.html", OnDisk "/n/themes/leaf/files/index.html");
   ("./styles.css", InMemory ("body{}" ++ String "010" "p{}"));
   ("./scripts.js",
    InMemory ("boot();" ++ String "010" ("jme();" ++ String "010"
              ("settings();" ++ String "010" "locale();"))))].
Proof. vm_compute. reflexivity. Qed.

Example demo_themes :
  resolve_themepaths 10 Demo.fs "/n" "leaf" =
  Ok ["/n/themes/B"; "/n/themes/A"; "/n/themes/leaf"].
Proof. vm_compute. reflexivity. Qed.

(** ** Theme chain resolution *)

Lemma demo_chain (fuel : nat) :
  resolve_themepaths fuel Demo.fs "/n" "leaf" = Err OutOfFuel \/
  resolve_themepaths fuel Demo.fs "/n" "leaf" =
    Ok ["/n/themes/B"; "/n/themes/A"; "/n/themes/leaf"].
Proof.
  destruct fuel as [|[|[|[|fuel]]]]; [left; reflexivity ..|right].
  vm_compute. reflexivity.
Qed.

(** C2, as stated, fails: in the demo installation the theme [leaf]
    declares [A] then [B], and the chain is [[B; A; leaf]]. *)
Lemma chain_keeps_declaration_order_fails : ~ chain_keeps_declaration_order.
Proof.
  intros H.
  destruct (H Demo.fs "/n" "leaf" "A" "B"
              "/n/themes/leaf" "/n/themes/A" "/n/themes/B")
    as [fuel Hf]; try reflexivity.
  destruct (demo_chain fuel) as [He | He]; rewrite He in Hf; discriminate.
Qed.

(** C2, amended: a theme whose inheritance file lists [A] then [B], neither
    with an inheritance file of its own, resolves to [[B; A; requested]]:
    the requested theme is last and the ancestors come in the reverse of
    their declaration order. *)
Theorem chain_reverses_declaration_order
  (fs : filesystem) (path theme A B t a b : string) (fuel : nat) :
  get_theme_path fs path theme = Ok t ->
  exists_ fs (Path.join t "inherit.txt") = true ->
  read_lines fs (Path.join t "inherit.txt") = Some [A; B] ->
  get_theme_path fs path A = Ok a ->
  exists_ fs (Path.join a "inherit.txt") = false ->
  get_theme_path fs path B = Ok b ->
  exists_ fs (Path.join b "inherit.txt") = false ->
  4 <= fuel ->
  resolve_themepaths fuel fs path theme = Ok [b; a; t].
Proof.
  intros Ht Hti Htl Ha Hai Hb Hbi Hfuel.
  destruct fuel as [|[|[|[|fuel]]]]; try lia.
  unfold resolve_themepaths.
  cbn [theme_loop lookup list_lookup].
  rewrite Ht. cbn [bind]. rewrite Hti, Htl. cbn [bind insert list_insert app].
  cbn [lookup list_lookup]. rewrite Ha. cbn [bind]. rewrite Hai.
  cbn [bind insert list_insert lookup list_lookup]. rewrite Hb. cbn [bind].
  rewrite Hbi. cbn [bind insert list_insert lookup list_lookup].
  reflexivity.
Qed.

Lemma chain_reverses_declaration_order_witness :
  resolve_themepaths 4 Demo.fs "/n" "leaf" =
  Ok ["/n/themes/B"; "/n/themes/A"; "/n/themes/leaf"].
Proof.
  apply (chain_reverses_declaration_order Demo.fs "/n" "leaf" "A" "B");
    first [reflexivity | lia].
Defined.

(** ** The table operations of asset aggregation *)

Lemma del_other {V : Type} (k : string) (x : string * V) (l : Dict.t V) :
  fst x <> k -> Dict.del k (x :: l) = x :: Dict.del k l.
Proof.
  intros Hne. destruct x as [k' v]. simpl in *.
  destruct (String.eqb_spec k' k); [contradiction | reflexivity].
Qed.

Lemma del_head {V : Type} (x : string * V) (l : Dict.t V) :
  Dict.del (fst x) (x :: l) = l.
Proof. destruct x as [k v]. simpl. now rewrite String.eqb_refl. Qed.

Lemma del_all_skip (m : list (string * source)) (x : string * source) (l : table) :
  (forall kv, In kv m -> fst kv <> fst x) ->
  del_all m (x :: l) = x :: del_all m l.
Proof.
  unfold del_all. revert l.
  induction m as [|y m IH]; intros l Hm; [reflexivity|].
  cbn [fold_left].
  rewrite del_other by (intros E; apply (Hm y); [now left | now symmetry]).
  apply IH. intros kv Hin. apply Hm. now right.
Qed.

Lemma del_all_with_ext (e : string) (files : table) :
  del_all (with_ext e files) files = without_ext e files.
Proof.
  induction files as [|x l IH]; [reflexivity|].
  unfold with_ext, without_ext in *. cbn [List.filter].
  destruct (String.eqb_spec (Path.ext (fst x)) e) as [He | He]; cbn [negb].
  - unfold del_all. cbn [fold_left]. rewrite del_head. exact IH.
  - rewrite del_all_skip.
    + now rewrite IH.
    + intros kv Hin E. apply filter_In in Hin as [_ Hkv].
      apply String.eqb_eq in Hkv. rewrite E in Hkv. contradiction.
Qed.

Lemma set_fresh {V : Type} (k : string) (v : V) (l : Dict.t V) :
  (forall kv, In kv l -> fst kv <> k) -> Dict.set k v l = (l ++ [(k, v)])%list.
Proof.
  induction l as [|[k' v'] l IH]; intros Hl; [reflexivity|].
  simpl. destruct (String.eqb_spec k' k) as [E | E].
  - exfalso. apply (Hl (k', v')); [now left | exact E].
  - f_equal. apply IH. intros kv Hin. apply Hl. now right.
Qed.

Lemma set_merged (e k : string) (v : source) (files : table) :
  Path.ext k = e ->
  Dict.set k v (without_ext e files) = (without_ext e files ++ [(k, v)])%list.
Proof.
  intros He. apply set_fresh. intros kv Hin E.
  apply filter_In in Hin as [_ Hkv]. rewrite E, He, String.eqb_refl in Hkv.
  discriminate.
Qed.

Lemma with_ext_app (e : string) (l1 l2 : table) :
  with_ext e (l1 ++ l2)%list = (with_ext e l1 ++ with_ext e l2)%list.
Proof. apply List.filter_app. Qed.

Lemma without_ext_app (e : string) (l1 l2 : table) :
  without_ext e (l1 ++ l2)%list = (without_ext e l1 ++ without_ext e l2)%list.
Proof. apply List.filter_app. Qed.

Lemma with_ext_without_same (e : string) (l : table) :
  with_ext e (without_ext e l) = [].
Proof.
  induction l as [|x l IH]; [reflexivity|].
  unfold with_ext, without_ext in *. cbn [List.filter].
  destruct (String.eqb (Path.ext (fst x)) e) eqn:E; cbn [negb List.filter].
  - exact IH.
  - now rewrite E.
Qed.

Lemma with_ext_without_other (e e' : string) (l : table) :
  e <> e' -> with_ext e (without_ext e' l) = with_ext e l.
Proof.
  intros Hne. induction l as [|x l IH]; [reflexivity|].
  unfold with_ext, without_ext in *. cbn [List.filter].
  destruct (String.eqb_spec (Path.ext (fst x)) e') as [E' | E']; cbn [negb List.filter].
  - destruct (String.eqb_spec (Path.ext (fst x)) e) as [E | E]; [congruence | exact IH].
  - now rewrite IH.
Qed.

Lemma bind_ok {A B : Type} (r : result A) (k : A -> result B) (b : B) :
  bind r k = Ok b -> exists a, r = Ok a /\ k a = Ok b.
Proof. destruct r as [a|e]; simpl; [eauto | discriminate]. Qed.

(** the table [merge_styles] returns, when it returns *)
Lemma merge_styles_ok (fs : filesystem) (files t : table) :
  merge_styles fs files = Ok t ->
  exists css, t = (without_ext ".css" files ++ [("./styles.css", InMemory css)])%list.
Proof.
  unfold merge_styles. intros H.
  apply bind_ok in H as (texts & _ & H). injection H as <-.
  rewrite del_all_with_ext. eexists. apply set_merged. reflexivity.
Qed.

(** the table [merge_scripts] returns, when it returns *)
Lemma merge_scripts_ok (fs : filesystem) (o : options) (files t : table) :
  merge_scripts fs o files = Ok t ->
  exists srcs texts,
    script_order o files = Ok srcs /\
    mapM (read_source fs) srcs = Ok texts /\
    t = (without_ext ".js" files ++
         [("./scripts.js", InMemory (Str.join (String "010" "") texts))])%list.
Proof.
  unfold merge_scripts. intros H.
  apply bind_ok in H as (srcs & Hs & H).
  apply bind_ok in H as (texts & Ht & H). injection H as <-.
  exists srcs, texts. repeat split; try assumption.
  rewrite del_all_with_ext. apply set_merged. reflexivity.
Qed.

(** the table after aggregation: the entries that are neither style sheets
    nor scripts, in their order, then the two merged entries *)
Lemma aggregate_ok (fs : filesystem) (o : options) (files t : table) :
  aggregate fs o files = Ok t ->
  exists css js,
    t = (without_ext ".js" (without_ext ".css" files) ++
         [("./styles.css", InMemory css); ("./scripts.js", InMemory js)])%list.
Proof.
  unfold aggregate. intros H.
  apply bind_ok in H as (t1 & H1 & H2).
  apply merge_styles_ok in H1 as (css & ->).
  apply merge_scripts_ok in H2 as (srcs & texts & _ & _ & ->).
  exists css, (Str.join (String "010" "") texts).
  rewrite without_ext_app, <- app_assoc. reflexivity.
Qed.

Lemma get_app_fresh {V : Type} (k : string) (v : V) (l : Dict.t V) :
  (forall kv, In kv l -> fst kv <> k) ->
  Dict.get k (l ++ [(k, v)])%list = Some v.
Proof.
  induction l as [|[k' v'] l IH]; intros Hl; simpl.
  - now rewrite String.eqb_refl.
  - destruct (String.eqb_spec k' k) as [E | E].
    + exfalso. apply (Hl (k', v')); [now left | exact E].
    + apply IH. intros kv Hin. apply Hl. now right.
Qed.

Lemma without_ext_key (e : string) (l : table) (kv : string * source) :
  In kv (without_ext e l) -> Path.ext (fst kv) <> e.
Proof.
  intros Hin E. apply filter_In in Hin as [_ H].
  rewrite E, String.eqb_refl in H. discriminate.
Qed.



(** [list_remove] drops the first occurrence and keeps the order of the rest *)
Lemma list_remove_in (x : string) (l : list source) :
  In (OnDisk x) l ->
  exists before after,
    l = (before ++ OnDisk x :: after)%list /\
    ~ In (OnDisk x) before /\
    list_remove x l = Some (before ++ after)%list.
Proof.
  induction l as [|[p|t] l IH]; intros Hin; [contradiction| |].
  - cbn [list_remove]. destruct (String.eqb_spec p x) as [-> | Hne].
    + exists [], l. repeat split. intros [].
    + destruct Hin as [E | Hin]; [congruence|].
      destruct (IH Hin) as (b & a & -> & Hb & ->).
      exists (OnDisk p :: b), a. repeat split.
      intros [E | Hin']; [congruence | contradiction].
  - destruct Hin as [E | Hin]; [discriminate|].
    destruct (IH Hin) as (b & a & -> & Hb & Hr).
    exists (InMemory t :: b), a. cbn [list_remove]. rewrite Hr. repeat split.
    intros [E | Hin']; [discriminate | contradiction].
Qed.

Lemma list_remove_not_in (x : string) (l : list source) :
  ~ In (OnDisk x) l -> list_remove x l = None.
Proof.
  induction l as [|[p|t] l IH]; intros Hn; [reflexivity| |]; cbn [list_remove].
  - destruct (String.eqb_spec p x) as [-> | Hne].
    + exfalso. apply Hn. now left.
    + rewrite IH; [reflexivity|]. intros H. apply Hn. now right.
  - rewrite IH; [reflexivity|]. intros H. apply Hn. now right.
Qed.

(** the style merge leaves the script entries as they were *)
Lemma merge_styles_scripts (fs : filesystem) (files t : table) :
  merge_styles fs files = Ok t -> with_ext ".js" t = with_ext ".js" files.
Proof.
  intros H. apply merge_styles_ok in H as (css & ->).
  rewrite with_ext_app, with_ext_without_other by discriminate.
  cbn. apply app_nil_r.
Qed.

Lemma no_loader_aborts (fs : filesystem) (o : options) (files : table) :
  ~ In (OnDisk (numbas_loader_path o)) (List.map snd (with_ext ".js" files)) ->
  merge_scripts fs o files = Err MissingBootstrapScript /\
  is_ok (aggregate fs o files) = false.
Proof.
  intros Hn. split.
  - unfold merge_scripts, script_order. now rewrite list_remove_not_in.
  - unfold aggregate. destruct (merge_styles fs files) as [t|e] eqn:Hs; [|reflexivity].
    cbn [bind]. unfold merge_scripts, script_order.
    rewrite (merge_styles_scripts _ _ _ Hs), list_remove_not_in by exact Hn.
    reflexivity.
Qed.

(** ** Bootstrap first *)



(** ** The minifier after aggregation *)

Lemma minify_fold_skip (cb : collaborators) (o : options) (l t : table) :
  (forall kv, In kv l ->
     is_basestring (snd kv) = true -> Path.ext (fst kv) <> ".js") ->
  fold_left (minify_entry cb o) l (Ok t) = Ok t.
Proof.
  induction l as [|[k v] l IH]; intros Hl; [reflexivity|].
  cbn [fold_left]. replace (minify_entry cb o (Ok t) (k, v)) with (Ok t).
  - apply IH. intros kv Hin. apply Hl. now right.
  - unfold minify_entry. cbn [bind fst snd]. destruct v as [src|text]; [|reflexivity].
    destruct (String.eqb_spec (Path.ext k) ".js") as [E|E]; [|reflexivity].
    exfalso. apply (Hl (k, OnDisk src)); [now left | reflexivity | exact E].
Qed.

(** After aggregation no script entry is file-backed, so the minification
    loop never starts the minifier and leaves the table as it is,
    whatever the minifier would answer. *)
Lemma minify_after_aggregate (fs : filesystem) (cb : collaborators) (o : options)
  (files t : table) :
  aggregate fs o files = Ok t -> minify_stage cb o t = Ok t.
Proof.
  intros H. apply aggregate_ok in H as (css & js & ->).
  unfold minify_stage. destruct (negb (String.eqb (opt_minify o) "")); [|reflexivity].
  apply minify_fold_skip. intros kv Hin Hb.
  apply in_app_or in Hin as [Hin | [<- | [<- | []]]]; try discriminate.
  now apply without_ext_key in Hin.
Qed.

(** C4: in the demo installation, a build whose minifier always exits with
    status 1 completes and writes the archive, with the scripts merged and
    not minified. *)
Theorem failing_minifier_build_completes :
  makeExam 10 Demo.fs (Demo.cb [] 1)
    (Demo.with_flags Demo.opts false "/bin/false") "" initial_default_dirs
    Demo.empty_disk =
  Ok (Archive
        [("index.html", "<leaf>");
         ("styles.css", "body{}" ++ String "010" "p{}");
         ("scripts.js",
          "boot();" ++ String "010" ("jme();" ++ String "010"
            ("settings();" ++ String "010" "locale();")))],
      [("runtime", "."); ("/n/themes/leaf/files", ".")]).
Proof. vm_compute. reflexivity. Qed.

(** ** Asset collapse *)

(** C5, as stated, fails: a theme file named [.js] has no extension for
    [os.path.splitext], so its entry [./.js] stays in the table. *)
Lemma collapse_by_suffix_fails : ~ collapse_by_suffix.
Proof.
  intros H.
  destruct (aggregate Demo.fs Demo.opts (Demo.collected ["/n/themes/dots"] []))
    as [t|e] eqn:Ht; [|vm_compute in Ht; discriminate].
  destruct (H _ _ _ _ Ht) as (_ & _ & Hk).
  vm_compute in Ht. injection Ht as <-.
  destruct (Hk "./.js") as [E | E]; try discriminate.
  - vm_compute. tauto.
  - right. reflexivity.
Qed.

Lemma mapM_all_ok {A B : Type} (f : A -> result B) (l : list A) :
  (forall x, In x l -> is_ok (f x) = true) -> exists r, mapM f l = Ok r.
Proof.
  induction l as [|x l IH]; intros H; [now exists []|].
  cbn [mapM]. destruct (f x) as [y|e] eqn:E.
  - destruct IH as (ys & ->); [intros z Hz; apply H; now right|].
    cbn [bind]. eauto.
  - specialize (H x (or_introl eq_refl)). rewrite E in H. discriminate.
Qed.

(** aggregation completes when the loader's path is among the script
    sources and every style sheet and script can be read *)
Lemma aggregate_completes (fs : filesystem) (o : options) (files : table) :
  (forall kv, In kv files ->
     Path.ext (fst kv) = ".css" \/ Path.ext (fst kv) = ".js" ->
     is_ok (read_source fs (snd kv)) = true) ->
  In (OnDisk (numbas_loader_path o)) (List.map snd (with_ext ".js" files)) ->
  exists t, aggregate fs o files = Ok t.
Proof.
  intros Hread Hin.
  assert (Hsrc : forall e, e = ".css" \/ e = ".js" ->
            forall x, In x (List.map snd (with_ext e files)) ->
                      is_ok (read_source fs x) = true).
  { intros e He x Hx. apply in_map_iff in Hx as (kv & <- & Hkv).
    apply filter_In in Hkv as [Hkv Hext]. apply String.eqb_eq in Hext.
    apply Hread; [exact Hkv | destruct He; subst e; tauto]. }
  unfold aggregate.
  destruct (mapM_all_ok (read_source fs) _ (Hsrc ".css" (or_introl eq_refl)))
    as (css & Hcss).
  assert (Hs : merge_styles fs files =
               Ok (Dict.set (Path.join "." "styles.css")
                     (InMemory (Str.join (String "010" "") css))
                     (del_all (with_ext ".css" files) files)))
    by (unfold merge_styles; now rewrite Hcss).
  rewrite Hs. cbn [bind]. unfold merge_scripts, script_order.
  rewrite (merge_styles_scripts _ _ _ Hs).
  destruct (list_remove_in _ _ Hin) as (bf & af & Hl & _ & ->). cbn [bind].
  destruct (mapM_all_ok (read_source fs) (OnDisk (numbas_loader_path o) :: bf ++ af))
    as (js & ->); [|cbn [bind]; eauto].
  intros x [<- | Hx]; apply (Hsrc ".js" (or_intror eq_refl)); [exact Hin|].
  rewrite Hl. apply in_app_or in Hx as [Hx | Hx]; apply in_or_app;
    [now left | right; now right].
Qed.

(** C5, amended: after aggregation the table has exactly one entry whose
    key has the extension [.css], the merged [./styles.css], and exactly
    one whose key has the extension [.js], the merged [./scripts.js],
    where the extension is what [os.path.splitext] returns; and
    aggregation completes when the loader is among the scripts and the
    style sheets and scripts can be read. *)
Theorem collapse_by_extension (fs : filesystem) (o : options) (files : table) :
  (forall t, aggregate fs o files = Ok t ->
   exists css js,
     with_ext ".css" t = [("./styles.css", InMemory css)] /\
     with_ext ".js" t = [("./scripts.js", InMemory js)] /\
     forall k, In k (Dict.keys t) ->
       Path.ext k = ".css" \/ Path.ext k = ".js" ->
       k = "./styles.css" \/ k = "./scripts.js")
  /\ ((forall kv, In kv files ->
         Path.ext (fst kv) = ".css" \/ Path.ext (fst kv) = ".js" ->
         is_ok (read_source fs (snd kv)) = true) ->
      In (OnDisk (numbas_loader_path o)) (List.map snd (with_ext ".js" files)) ->
      exists t, aggregate fs o files = Ok t).
Proof.
  split; [|apply aggregate_completes].
  intros t H. apply aggregate_ok in H as (css & js & ->).
  exists css, js.
  assert (Hcss : with_ext ".css" (without_ext ".js" (without_ext ".css" files)) = []).
  { rewrite with_ext_without_other by discriminate. apply with_ext_without_same. }
  split; [|split].
  - rewrite with_ext_app, Hcss. reflexivity.
  - rewrite with_ext_app, with_ext_without_same. reflexivity.
  - intros k Hin Hext. unfold Dict.keys in Hin.
    apply in_map_iff in Hin as (kv & <- & Hin).
    apply in_app_or in Hin as [Hin | [<- | [<- | []]]]; [exfalso | now left | now right].
    destruct Hext as [E | E].
    + assert (Hc : In kv (with_ext ".css" (without_ext ".js" (without_ext ".css" files)))).
      { apply filter_In. split; [exact Hin | now rewrite E]. }
      rewrite Hcss in Hc. exact Hc.
    + now apply without_ext_key in Hin.
Qed.

Lemma collapse_by_extension_witness :
  exists css js,
    with_ext ".css" [("./index.html", OnDisk "/n/themes/leaf/files/index.html");
                     ("./styles.css", InMemory ("body{}" ++ String "010" "p{}"));
                     ("./scripts.js", InMemory ("boot();" ++ String "010" "jme();"))] =
      [("./styles.css", InMemory css)] /\
    with_ext ".js" [("./index.html", OnDisk "/n/themes/leaf/files/index.html");
                    ("./styles.css", InMemory ("body{}" ++ String "010" "p{}"));
                    ("./scripts.js", InMemory ("boot();" ++ String "010" "jme();"))] =
      [("./scripts.js", InMemory js)].
Proof.
  destruct (proj1 (collapse_by_extension Demo.fs Demo.opts
                     (Demo.collected ["/n/themes/leaf"] [])) _ eq_refl)
    as (css & js & H1 & H2 & _).
  exists css, js. split; [exact H1 | exact H2].
Defined.

(** ** The loader is looked up by its source path *)

Lemma set_keys_in {V : Type} (k k' : string) (v : V) (d : Dict.t V) :
  In k' (Dict.keys (Dict.set k v d)) -> In k' (Dict.keys d) \/ k' = k.
Proof.
  induction d as [|[k0 v0] d IH]; cbn [Dict.set Dict.keys List.map fst In].
  - intros [<- | []]. now right.
  - destruct (String.eqb_spec k0 k) as [-> | Hne]; cbn [List.map fst In]; [tauto|].
    intros [<- | H]; [tauto|]. apply IH in H. tauto.
Qed.

Lemma set_nodup {V : Type} (k : string) (v : V) (d : Dict.t V) :
  List.NoDup (Dict.keys d) -> List.NoDup (Dict.keys (Dict.set k v d)).
Proof.
  induction d as [|[k0 v0] d IH]; cbn [Dict.set Dict.keys List.map fst]; intros H.
  - repeat constructor. intros [].
  - apply List.NoDup_cons_iff in H as [Hk H].
    destruct (String.eqb_spec k0 k) as [-> | Hne]; cbn [List.map fst].
    + now constructor.
    + constructor; [|now apply IH].
      intros Hin. apply set_keys_in in Hin as [Hin | E]; [now apply Hk | now apply Hne].
Qed.

(** the keys of a table built by assignments are distinct *)
Lemma update_nodup {V : Type} (l : list (string * V)) (d : Dict.t V) :
  List.NoDup (Dict.keys d) -> List.NoDup (Dict.keys (Dict.update d l)).
Proof.
  unfold Dict.update. revert d. induction l as [|[k v] l IH]; intros d H; [exact H|].
  cbn [fold_left]. apply IH. now apply set_nodup.
Qed.

Lemma collectFiles_nodup (fs : filesystem) (o : options) (dirs : list overlay) :
  List.NoDup (Dict.keys (fst (collectFiles fs o dirs))).
Proof.
  unfold collectFiles, overlay_table. cbn [fst].
  apply update_nodup, update_nodup. constructor.
Qed.

Lemma get_in_nodup {V : Type} (k : string) (v : V) (l : Dict.t V) :
  List.NoDup (Dict.keys l) -> In (k, v) l -> Dict.get k l = Some v.
Proof.
  induction l as [|[k' v'] l IH]; intros Hnd Hin; [contradiction|].
  cbn [Dict.keys List.map fst] in Hnd. apply List.NoDup_cons_iff in Hnd as [Hk Hnd].
  simpl. destruct (String.eqb_spec k' k) as [-> | Hne].
  - destruct Hin as [E | Hin]; [congruence|].
    exfalso. apply Hk. apply in_map_iff. now exists (k, v).
  - destruct Hin as [E | Hin]; [congruence|]. now apply IH.
Qed.

Lemma get_in {V : Type} (k : string) (v : V) (l : Dict.t V) :
  Dict.get k l = Some v -> In (k, v) l.
Proof.
  induction l as [|[k' v'] l IH]; simpl; [discriminate|].
  destruct (String.eqb_spec k' k) as [-> | Hne]; intros H.
  - injection H as ->. now left.
  - right. now apply IH.
Qed.

(** C10, as stated, fails: in the demo installation the theme [over]
    replaces the entry at [./scripts/numbas.js], the exam declares the
    runtime directory as a resource, the loader's path is found under
    [resources/rt/scripts/numbas.js], and aggregation completes. *)
Lemma override_always_aborts_fails : ~ override_always_aborts.
Proof.
  intros H.
  specialize (H Demo.fs Demo.opts
                (Demo.collected ["/n/themes/over"] [ResPair "rt" "/n/runtime"])
                "/n/themes/over/files/scripts/numbas.js").
  assert (Hok : is_ok (aggregate Demo.fs Demo.opts
                  (Demo.collected ["/n/themes/over"] [ResPair "rt" "/n/runtime"]))
                = true) by (vm_compute; reflexivity).
  rewrite H in Hok; [discriminate | | reflexivity | discriminate].
  apply collectFiles_nodup.
Qed.

Example demo_override_build_completes :
  match makeExam_table 10 Demo.fs (Demo.cb [ResPair "rt" "/n/runtime"] 0)
          (Demo.with_themes Demo.opts ["/n/themes/over"]) "" initial_default_dirs with
  | Ok b => (Dict.get numbas_loader_dst (b_injected b),
             Dict.get "resources/rt/scripts/numbas.js" (b_injected b),
             Dict.keys (b_final b))
  | Err _ => (None, None, [])
  end =
  (Some (OnDisk "/n/themes/over/files/scripts/numbas.js"),
   Some (OnDisk "/n/runtime/scripts/numbas.js"),
   ["./index.html"; "resources/rt/index.html"; "./styles.css"; "./scripts.js"]).
Proof. vm_compute. reflexivity. Qed.

(** C10, amended: when the entry at the loader's key holds another source
    file and no entry under any other key holds the loader's path, the
    script merge raises and aggregation does not complete, although a
    script entry exists at the loader's key. *)
Theorem loader_found_by_source_path
  (fs : filesystem) (o : options) (files : table) (s : string) :
  List.NoDup (Dict.keys files) ->
  Dict.get numbas_loader_dst files = Some (OnDisk s) ->
  s <> numbas_loader_path o ->
  (forall k, k <> numbas_loader_dst ->
     Dict.get k files <> Some (OnDisk (numbas_loader_path o))) ->
  Path.ext numbas_loader_dst = ".js" /\
  merge_scripts fs o files = Err MissingBootstrapScript /\
  is_ok (aggregate fs o files) = false.
Proof.
  intros Hnd Hget Hs Hother. split; [reflexivity|].
  apply no_loader_aborts. intros Hin.
  apply in_map_iff in Hin as ([k v] & Hv & Hin). cbn [snd] in Hv. subst v.
  apply filter_In in Hin as [Hin _].
  apply (get_in_nodup _ _ _ Hnd) in Hin.
  destruct (String.eqb_spec k numbas_loader_dst) as [-> | Hne].
  - rewrite Hget in Hin. congruence.
  - now apply (Hother k).
Qed.

Lemma loader_found_by_source_path_witness :
  merge_scripts Demo.fs Demo.opts (Demo.collected ["/n/themes/over"] []) =
    Err MissingBootstrapScript /\
  is_ok (aggregate Demo.fs Demo.opts (Demo.collected ["/n/themes/over"] [])) = false.
Proof.
  apply (loader_found_by_source_path Demo.fs Demo.opts
           (Demo.collected ["/n/themes/over"] [])
           "/n/themes/over/files/scripts/numbas.js").
  - apply collectFiles_nodup.
  - reflexivity.
  - discriminate.
  - intros k Hk Hget. apply get_in in Hget. vm_compute in Hget.
    intuition discriminate.
Defined.

(** ** The directory writer *)

(** [os.path.dirname] of a path with no directory part is the empty
    string, which [os.path.exists] rejects and whose own [dirname] is empty
    again: [makepath] of such a path recurses without end. The loop of
    [compileToDir] never asks for one, as it joins every key to the output
    path. *)
Lemma makepath_without_directory (fuel : nat) (d : disk) (name : string) :
  fst (Path.split name) = "" -> makepath fuel d name = Err OutOfFuel.
Proof.
  revert name. induction fuel as [|fuel IH]; intros name H; [reflexivity|].
  cbn [makepath]. rewrite H.
  change (Disk.exists_ d "") with false. cbn [negb].
  now rewrite (IH "" eq_refl).
Qed.

Example update_copies_newer_source :
  match write_entry 5 Demo.dir_opts Demo.built_disk
          ("./scripts/jme.js", OnDisk "/n/runtime/scripts/jme.js") with
  | Ok d => (Disk.lookup d "/out/scripts/jme.js", writes d)
  | Err _ => (None, [])
  end = (Some (File "jme2();" 9), ["/out/./scripts/jme.js"]).
Proof. vm_compute. reflexivity. Qed.

Lemma must_copy_true (act : action) (d : disk) (src dst : string) :
  must_copy act d src dst = Ok true ->
  act = Clean \/ Disk.exists_ d dst = false \/
  exists ts td, Disk.getmtime d src = Ok ts /\ Disk.getmtime d dst = Ok td /\
                (td < ts)%Z.
Proof.
  unfold must_copy. destruct act; [|now left].
  destruct (Disk.exists_ d dst); cbn [negb]; [|now (right; left)].
  intros H. apply bind_ok in H as (ts & Hs & H). apply bind_ok in H as (td & Hd & H).
  injection H as H. apply Z.ltb_lt in H. right. right. now exists ts, td.
Qed.

(** C7: in an update build, for a file-backed entry whose destination
    exists (in a directory that exists) with a modification time not older
    than the source's, the loop body leaves the disk as it is: nothing is
    copied. And whenever the loop body changes the disk after [makepath],
    it has copied the source, and the build is a clean build, or the
    destination was missing, or the source was strictly newer. *)
Theorem incremental_skip (fuel : nat) (o : options) (d : disk) (k src : string) :
  let dst := Path.join (opt_output o) k in
  (forall ts td : Z,
     opt_action o = Update ->
     Disk.exists_ d (fst (Path.split dst)) = true ->
     Disk.getmtime d src = Ok ts ->
     Disk.getmtime d dst = Ok td ->
     (ts <= td)%Z ->
     write_entry (S fuel) o d (k, OnDisk src) = Ok d)
  /\ (forall d1 d' : disk,
        makepath fuel d dst = Ok d1 ->
        write_entry fuel o d (k, OnDisk src) = Ok d' ->
        d' <> d1 ->
        Disk.copyfile d1 src dst = Ok d' /\
        (opt_action o = Clean \/ Disk.exists_ d1 dst = false \/
         exists ts td, Disk.getmtime d1 src = Ok ts /\
                       Disk.getmtime d1 dst = Ok td /\ (td < ts)%Z)).
Proof.
  cbv zeta. split.
  - intros ts td Hact Hdir Hs Hd Hle.
    unfold write_entry. cbn [fst snd makepath]. rewrite Hdir. cbn [negb bind].
    unfold must_copy. rewrite Hact.
    assert (He : Disk.exists_ d (Path.join (opt_output o) k) = true).
    { unfold Disk.getmtime in Hd. unfold Disk.exists_.
      destruct (Disk.lookup d (Path.join (opt_output o) k)); [reflexivity | discriminate]. }
    rewrite He, Hs, Hd. cbn [negb bind].
    replace (td <? ts)%Z with false; [reflexivity|].
    symmetry. apply Z.ltb_ge. exact Hle.
  - intros d1 d' Hmk Hw Hne. unfold write_entry in Hw. cbn [fst snd] in Hw.
    rewrite Hmk in Hw. cbn [bind] in Hw.
    apply bind_ok in Hw as (c & Hc & Hw). destruct c.
    + split; [exact Hw | now apply must_copy_true].
    + injection Hw as <-. contradiction.
Qed.

Lemma incremental_skip_witness :
  write_entry 1 Demo.dir_opts Demo.built_disk
    ("./index.html", OnDisk "/n/runtime/index.html") = Ok Demo.built_disk.
Proof.
  apply (proj1 (incremental_skip 0 Demo.dir_opts Demo.built_disk
                  "./index.html" "/n/runtime/index.html") 5%Z 7%Z).
  - reflexivity.
  - vm_compute. reflexivity.
  - vm_compute. reflexivity.
  - vm_compute. reflexivity.
  - lia.
Defined.

(** ** Paths as lists of components *)

Lemma is_sep_eq (c : ascii) : Str.is_sep c = true -> c = "/"%char.
Proof. unfold Str.is_sep, Str.sep. apply Ascii.eqb_eq. Qed.

Lemma app_cons (c : ascii) (s t : string) : String c s ++ t = String c (s ++ t).
Proof. reflexivity. Qed.

Lemma app_nil_s (t : string) : "" ++ t = t.
Proof. reflexivity. Qed.

Ltac push_app := rewrite ?app_cons, ?app_nil_s.

Lemma app_empty_r (s : string) : s ++ "" = s.
Proof. induction s as [|c s IH]; push_app; [reflexivity | now rewrite IH]. Qed.

Lemma app_assoc_s (a b c : string) : (a ++ b) ++ c = a ++ (b ++ c).
Proof. induction a as [|x a IH]; push_app; [reflexivity | now rewrite IH]. Qed.

Lemma rev_acc_app (s acc : string) : Str.rev_acc s acc = Str.rev_acc s "" ++ acc.
Proof.
  revert acc. induction s as [|c s IH]; intros acc; cbn [Str.rev_acc]; [reflexivity|].
  rewrite (IH (String c acc)), (IH (String c "")), app_assoc_s. reflexivity.
Qed.

Lemma rev_cons (c : ascii) (s : string) : Str.rev (String c s) = Str.rev s ++ String c "".
Proof. unfold Str.rev. cbn [Str.rev_acc]. apply rev_acc_app. Qed.

Lemma rev_nonempty (c : ascii) (s : string) :
  exists c' s', Str.rev (String c s) = String c' s'.
Proof.
  rewrite rev_cons. destruct (Str.rev s) as [|c' s']; push_app; eauto.
Qed.

Lemma prefix_sep_cons (c : ascii) (s : string) :
  String.prefix "/" (String c s) = Str.is_sep c.
Proof.
  cbn [String.prefix]. unfold Str.is_sep, Str.sep.
  destruct (ascii_dec "/" c) as [<- | Hne].
  - now destruct s.
  - symmetry. apply Ascii.eqb_neq. congruence.
Qed.

(** [endswith "/"] looks at the last character *)
Lemma endswith_sep (s : string) : Str.endswith "/" s = last_is_sep s.
Proof.
  unfold Str.endswith. change (Str.rev "/") with "/".
  induction s as [|c s IH]; [reflexivity|].
  rewrite rev_cons. destruct s as [|c2 s].
  - change (Str.rev "") with "". push_app. rewrite prefix_sep_cons. reflexivity.
  - destruct (rev_nonempty c2 s) as (c' & s' & E). rewrite E in *.
    push_app. rewrite prefix_sep_cons. rewrite prefix_sep_cons in IH.
    exact IH.
Qed.

Lemma startswith_sep (s : string) :
  Str.startswith "/" s = match s with String c _ => Str.is_sep c | _ => false end.
Proof. destruct s as [|c s]; [reflexivity | apply prefix_sep_cons]. Qed.

Lemma last_is_sep_app (a : string) (c : ascii) (r : string) :
  last_is_sep (a ++ String c r) = last_is_sep (String c r).
Proof.
  induction a as [|x a IH]; [reflexivity|].
  push_app. destruct a as [|y a]; [exact IH|].
  rewrite app_cons in *. exact IH.
Qed.

Lemma slash_free_last (s : string) : slash_free s = true -> last_is_sep s = false.
Proof.
  induction s as [|c s IH]; [reflexivity|]. cbn [slash_free]. intros H.
  apply andb_true_iff in H as [Hc Hs]. destruct s as [|c2 s].
  - simpl. now apply negb_true_iff in Hc.
  - now apply IH.
Qed.

Lemma split_sep_nonempty (p : string) : Str.split_sep p <> [].
Proof.
  destruct p as [|c r]; cbn [Str.split_sep]; [discriminate|].
  destruct (Str.is_sep c); [discriminate|].
  destruct (Str.split_sep r); discriminate.
Qed.

Lemma join_cons2 (d x y : string) (l : list string) :
  Str.join d (x :: y :: l) = x ++ d ++ Str.join d (y :: l).
Proof. reflexivity. Qed.

Lemma join_split_sep (p : string) : Str.join "/" (Str.split_sep p) = p.
Proof.
  induction p as [|c r IH]; [reflexivity|]. cbn [Str.split_sep].
  destruct (Str.is_sep c) eqn:Hc.
  - apply is_sep_eq in Hc as ->.
    destruct (Str.split_sep r) as [|y l] eqn:E; [now apply split_sep_nonempty in E|].
    rewrite join_cons2, IH. reflexivity.
  - destruct (Str.split_sep r) as [|y l] eqn:E; [now apply split_sep_nonempty in E|].
    destruct l as [|z l].
    + cbn [Str.join] in *. now rewrite IH.
    + rewrite join_cons2 in *. rewrite app_cons, IH. reflexivity.
Qed.

Lemma split_sep_slash_free (p : string) : all_slash_free (Str.split_sep p).
Proof.
  unfold all_slash_free.
  induction p as [|c r IH]; cbn [Str.split_sep]; [repeat constructor|].
  destruct (Str.is_sep c) eqn:Hc; [constructor; [reflexivity | exact IH]|].
  destruct (Str.split_sep r) as [|y l]; [repeat constructor; cbn; now rewrite Hc|].
  inversion IH as [|? ? Hy Hl]; subst. constructor; [|exact Hl].
  cbn [slash_free]. now rewrite Hc, Hy.
Qed.

Lemma join_snoc (l : list string) (t : string) :
  l <> [] -> Str.join "/" (l ++ [t])%list = Str.join "/" l ++ "/" ++ t.
Proof.
  induction l as [|x l IH]; intros Hne; [contradiction|].
  destruct l as [|y l]; [reflexivity|].
  change ((x :: y :: l) ++ [t])%list with (x :: ((y :: l) ++ [t]))%list.
  change ((y :: l) ++ [t])%list with (y :: (l ++ [t]))%list at 1.
  rewrite join_cons2. change (y :: (l ++ [t]))%list with ((y :: l) ++ [t])%list.
  rewrite IH by discriminate. rewrite join_cons2, !app_assoc_s. reflexivity.
Qed.

Lemma cut_last_sep_free (t : string) :
  slash_free t = true -> Str.cut_last_sep t = ("", t).
Proof.
  induction t as [|c t IH]; [reflexivity|]. cbn [slash_free Str.cut_last_sep].
  intros H. apply andb_true_iff in H as [Hc Ht]. rewrite (IH Ht).
  apply negb_true_iff in Hc. cbn [Str.is_empty negb]. now rewrite Hc.
Qed.

Lemma cut_last_sep_cons (c : ascii) (r : string) :
  Str.cut_last_sep (String c r) =
  (if negb (Str.is_empty (fst (Str.cut_last_sep r)))
   then (String c (fst (Str.cut_last_sep r)), snd (Str.cut_last_sep r))
   else if Str.is_sep c then (String c "", snd (Str.cut_last_sep r))
        else ("", String c (snd (Str.cut_last_sep r)))).
Proof. cbn [Str.cut_last_sep]. now destruct (Str.cut_last_sep r). Qed.

Lemma cut_last_sep_app (a t : string) :
  slash_free t = true -> Str.cut_last_sep (a ++ String "/" t) = (a ++ "/", t).
Proof.
  intros Ht. induction a as [|c a IH]; push_app; rewrite cut_last_sep_cons.
  - rewrite (cut_last_sep_free _ Ht). reflexivity.
  - rewrite IH. cbn [fst snd].
    destruct (a ++ "/") as [|x y] eqn:E; [|reflexivity].
    destruct a; discriminate.
Qed.

Lemma rstrip_free_app (x s : string) :
  slash_free x = true -> Str.rstrip_sep (x ++ s) = x ++ Str.rstrip_sep s.
Proof.
  induction x as [|c x IH]; intros H; push_app; [reflexivity|].
  cbn [slash_free] in H. apply andb_true_iff in H as [Hc Hx].
  apply negb_true_iff in Hc.
  cbn [Str.rstrip_sep]. rewrite (IH Hx), Hc, andb_false_r. reflexivity.
Qed.

Lemma rstrip_sep_cons (s : string) :
  Str.rstrip_sep ("/" ++ s) =
  if Str.is_empty (Str.rstrip_sep s) then "" else "/" ++ Str.rstrip_sep s.
Proof.
  push_app. cbn [Str.rstrip_sep].
  change (Str.is_sep "/") with true. rewrite andb_true_r. reflexivity.
Qed.

Lemma strip_join_nonempty (l : list string) :
  strip l <> [] -> Str.is_empty (Str.join "/" (strip l)) = false.
Proof.
  destruct l as [|x l]; [contradiction|]. cbn [strip].
  destruct (strip l) as [|y l'] eqn:E.
  - destruct (String.eqb_spec x "") as [-> | Hne]; [contradiction|].
    intros _. destruct x; [contradiction | reflexivity].
  - intros _. rewrite join_cons2. destruct x; reflexivity.
Qed.

Lemma rstrip_join (l : list string) :
  all_slash_free l -> Str.rstrip_sep (Str.join "/" l ++ "/") = Str.join "/" (strip l).
Proof.
  unfold all_slash_free.
  induction l as [|x l IH]; intros Hl; [reflexivity|].
  inversion Hl as [|? ? Hx Hl']; subst. specialize (IH Hl').
  destruct l as [|y l].
  - cbn [Str.join strip]. rewrite rstrip_free_app by exact Hx.
    change (Str.rstrip_sep "/") with "". rewrite app_empty_r.
    destruct (String.eqb_spec x "") as [-> | Hne]; reflexivity.
  - rewrite join_cons2, !app_assoc_s, rstrip_free_app by exact Hx.
    rewrite rstrip_sep_cons, IH.
    change (strip (x :: y :: l)) with
      (match strip (y :: l) with
       | [] => if String.eqb x "" then [] else [x]
       | r' => x :: r'
       end).
    destruct (strip (y :: l)) as [|z r'] eqn:E.
    + cbn [Str.join Str.is_empty]. rewrite app_empty_r.
      destruct (String.eqb_spec x "") as [-> | Hne]; reflexivity.
    + rewrite <- E, strip_join_nonempty by (rewrite E; discriminate).
      rewrite E. rewrite join_cons2. reflexivity.
Qed.

Lemma proper_cons (x : string) (l : list string) :
  proper (x :: l) =
  if negb (String.eqb x "" || String.eqb x ".") then x :: proper l else proper l.
Proof. reflexivity. Qed.

Lemma proper_strip (l : list string) : proper (strip l) = proper l.
Proof.
  induction l as [|x l IH]; [reflexivity|]. cbn [strip].
  destruct (strip l) as [|z r'] eqn:E.
  - rewrite proper_cons, <- IH.
    destruct (String.eqb x "") eqn:Ex; [reflexivity|].
    rewrite proper_cons, Ex. reflexivity.
  - rewrite !(proper_cons x), IH. reflexivity.
Qed.

Lemma strip_slash_free (l : list string) : all_slash_free l -> all_slash_free (strip l).
Proof.
  unfold all_slash_free. induction l as [|x l IH]; intros Hl; [constructor|].
  inversion Hl as [|? ? Hx Hl']; subst. specialize (IH Hl'). cbn [strip].
  destruct (strip l) as [|z r'].
  - destruct (String.eqb x ""); repeat constructor. exact Hx.
  - constructor; assumption.
Qed.

Lemma strip_length (l : list string) : List.length (strip l) <= List.length l.
Proof.
  induction l as [|x l IH]; [reflexivity|]. cbn [strip].
  destruct (strip l) as [|z r'].
  - destruct (String.eqb x ""); cbn [List.length]; lia.
  - cbn [List.length] in *. lia.
Qed.

Lemma strip_hd (l : list string) :
  List.hd "" l <> "" -> strip l <> [] /\ List.hd "" (strip l) = List.hd "" l.
Proof.
  destruct l as [|x l]; [intros H; now contradiction H|]. cbn [List.hd strip].
  intros Hx. destruct (strip l) as [|z r'].
  - destruct (String.eqb_spec x "") as [-> | Hne]; [contradiction|].
    split; [discriminate | reflexivity].
  - split; [discriminate | reflexivity].
Qed.

Lemma strip_last (l : list string) : strip l <> [] -> List.last (strip l) "" <> "".
Proof.
  induction l as [|x l IH]; [contradiction|]. cbn [strip].
  destruct (strip l) as [|z r'] eqn:E.
  - destruct (String.eqb_spec x "") as [-> | Hne]; [contradiction|].
    intros _. exact Hne.
  - intros _. change (List.last (x :: z :: r') "") with (List.last (z :: r') "").
    apply IH. discriminate.
Qed.

Lemma join_hd_cons (c : ascii) (x : string) (l : list string) :
  exists r, Str.join "/" (String c x :: l) = String c r.
Proof.
  destruct l as [|y l]; [now exists x|].
  rewrite join_cons2, app_cons. eauto.
Qed.

(** [os.path.split] in terms of components *)
Lemma split_join (l : list string) (t : string) :
  all_slash_free l -> slash_free t = true ->
  l = [] \/ List.hd "" l <> "" ->
  Path.split (Str.join "/" (l ++ [t])%list) = (Str.join "/" (strip l), t).
Proof.
  intros Hl Ht Hhd. unfold Path.split. destruct l as [|x l].
  - cbn [app Str.join strip]. rewrite (cut_last_sep_free _ Ht). reflexivity.
  - destruct Hhd as [E | Hx]; [discriminate|]. cbn [List.hd] in Hx.
    rewrite join_snoc by discriminate.
    change ("/" ++ t) with (String "/" t). rewrite cut_last_sep_app by exact Ht.
    destruct x as [|c x]; [contradiction|].
    inversion Hl as [|? ? Hcx _]; subst. cbn [slash_free] in Hcx.
    apply andb_true_iff in Hcx as [Hc _]. apply negb_true_iff in Hc.
    destruct (join_hd_cons c x l) as (r & Er).
    assert (Hemp : Str.is_empty (Str.join "/" (String c x :: l) ++ "/") = false)
      by (rewrite Er; reflexivity).
    assert (Hall : Str.all_sep (Str.join "/" (String c x :: l) ++ "/") = false)
      by (rewrite Er, app_cons; cbn [Str.all_sep]; now rewrite Hc).
    rewrite Hemp, Hall. cbn [negb andb].
    now rewrite rstrip_join.
Qed.

Lemma proper_all_proper (l : list string) : all_slash_free l -> all_proper (proper l).
Proof.
  unfold all_slash_free, all_proper. induction l as [|x l IH]; intros Hl; [constructor|].
  inversion Hl as [|? ? Hx Hl']; subst. rewrite proper_cons.
  destruct (String.eqb_spec x "") as [-> | Hne]; cbn [orb negb]; [now apply IH|].
  destruct (String.eqb x "."); cbn [negb]; [now apply IH|].
  constructor; [split; assumption | now apply IH].
Qed.

Lemma join_proper_last (l : list string) :
  all_proper l -> l <> [] ->
  Str.is_empty (Str.join "/" l) = false /\ last_is_sep (Str.join "/" l) = false.
Proof.
  intros Hl Hne. split.
  - destruct l as [|x l]; [contradiction|].
    inversion Hl as [|? ? [_ Hx] _]; subst. destruct x as [|c x]; [contradiction|].
    destruct (join_hd_cons c x l) as (r & ->). reflexivity.
  - destruct (exists_last Hne) as (l' & z & ->).
    apply Forall_app in Hl as [_ Hz]. inversion Hz as [|? ? [Hf Hz'] _]; subst.
    destruct z as [|c z]; [contradiction|].
    destruct l' as [|y l'].
    + cbn [app Str.join]. now apply slash_free_last.
    + rewrite join_snoc by discriminate. rewrite <- app_assoc_s.
      rewrite last_is_sep_app. now apply slash_free_last.
Qed.

(** [os.path.join] of a cleaned directory and one more component *)
Lemma path_join_snoc (l : list string) (t : string) :
  all_proper l -> slash_free t = true -> t <> "" ->
  Path.join (Str.join "/" l) t = Str.join "/" (l ++ [t])%list.
Proof.
  intros Hl Ht Hne. unfold Path.join.
  rewrite startswith_sep. destruct t as [|c t]; [contradiction|].
  cbn [slash_free] in Ht. apply andb_true_iff in Ht as [Hc _].
  apply negb_true_iff in Hc. rewrite Hc.
  destruct l as [|x l]; [reflexivity|].
  destruct (join_proper_last (x :: l) Hl) as [He Hs]; [discriminate|].
  rewrite He, endswith_sep, Hs. cbn [orb].
  now rewrite join_snoc by discriminate.
Qed.

Lemma proper_snoc (l : list string) (t : string) :
  proper (l ++ [t])%list =
  (proper l ++ (if negb (String.eqb t "" || String.eqb t ".") then [t] else []))%list.
Proof. unfold proper. now rewrite List.filter_app. Qed.

Lemma join_last_nonempty (l : list string) (t : string) :
  t <> "" -> Str.join "/" (l ++ [t])%list <> "".
Proof.
  intros Ht. destruct l as [|x l]; [exact Ht|].
  rewrite join_snoc by discriminate.
  destruct (Str.join "/" (x :: l)); push_app; discriminate.
Qed.

(** [cleanpath] on a path given by its components: a relative path that
    does not end in a slash *)
Lemma cleanpath_segs (fuel : nat) (segs : list string) :
  all_slash_free segs ->
  List.hd "" segs <> "" -> List.last segs "" <> "" ->
  List.length segs < fuel ->
  cleanpath fuel (Str.join "/" segs) = Ok (Str.join "/" (proper segs)).
Proof.
  revert segs. induction fuel as [|fuel IH]; intros segs Hsf Hhd Hlast Hlen; [lia|].
  assert (Hne : segs <> []) by (intros ->; now apply Hhd).
  destruct (exists_last Hne) as (l & t & ->).
  rewrite last_last in Hlast.
  pose proof Hsf as Hsf'. apply Forall_app in Hsf' as [Hl Ht].
  inversion Ht as [|? ? Ht' _]; subst.
  cbn [cleanpath].
  destruct (String.eqb_spec (Str.join "/" (l ++ [t])) "") as [E | _];
    [now apply join_last_nonempty in E|].
  rewrite split_join; [|exact Hl|exact Ht'|].
  2:{ destruct l as [|x l]; [now left | right; exact Hhd]. }
  assert (Hrec : cleanpath fuel (Str.join "/" (strip l)) = Ok (Str.join "/" (proper l))).
  { destruct (strip l) as [|z r] eqn:E.
    - rewrite <- (proper_strip l), E. rewrite length_app in Hlen. cbn in Hlen.
      destruct fuel; [lia | reflexivity].
    - rewrite <- (proper_strip l), <- E.
      destruct l as [|x l]; [discriminate|].
      destruct (strip_hd (x :: l) Hhd) as [Hs Hh].
      apply IH.
      + now apply strip_slash_free.
      + rewrite Hh. exact Hhd.
      + now apply strip_last.
      + pose proof (strip_length (x :: l)). rewrite length_app in Hlen.
        cbn [List.length] in *. lia. }
  rewrite Hrec. cbn [bind]. rewrite proper_snoc.
  apply String.eqb_neq in Hlast. rewrite Hlast. cbn [orb].
  destruct (String.eqb t "."); cbn [negb].
  - now rewrite app_nil_r.
  - f_equal. apply path_join_snoc; [now apply proper_all_proper | exact Ht' |].
    now apply String.eqb_neq.
Qed.

Lemma split_sep_last (p : string) :
  List.last (Str.split_sep p) "" = "" -> p = "" \/ last_is_sep p = true.
Proof.
  induction p as [|c r IH]; [now left|]. right. cbn [Str.split_sep] in H.
  destruct (Str.split_sep r) as [|y l] eqn:E; [now apply split_sep_nonempty in E|].
  destruct (Str.is_sep c) eqn:Hc.
  - change (List.last ("" :: y :: l) "") with (List.last (y :: l) "") in H.
    destruct (IH H) as [-> | Hr]; [exact Hc|].
    destruct r; [discriminate | exact Hr].
  - destruct l as [|z l]; [discriminate|].
    change (List.last (String c y :: z :: l) "") with (List.last (y :: z :: l) "") in H.
    destruct (IH H) as [-> | Hr]; [discriminate|].
    destruct r; [discriminate | exact Hr].
Qed.

(** [cleanpath] of a relative path that does not end in a slash: the
    components that are neither empty nor [.], joined by slashes *)
Lemma cleanpath_relative (fuel : nat) (p : string) :
  Str.startswith "/" p = false -> Str.endswith "/" p = false ->
  List.length (Str.split_sep p) < fuel ->
  cleanpath fuel p = Ok (Str.join "/" (proper_segments p)).
Proof.
  intros Hs He Hlen. destruct p as [|c r].
  - destruct fuel; [cbn in Hlen; lia | reflexivity].
  - unfold proper_segments. rewrite <- (join_split_sep (String c r)) at 1.
    apply cleanpath_segs.
    + apply split_sep_slash_free.
    + rewrite startswith_sep in Hs. cbn [Str.split_sep]. rewrite Hs.
      destruct (Str.split_sep r); discriminate.
    + intros Hl. apply split_sep_last in Hl as [E | Hl]; [discriminate|].
      rewrite endswith_sep in He. congruence.
    + exact Hlen.
Qed.

(** ** Archive entry names *)

Lemma cleanpath_trailing_slash (fuel : nat) :
  (cleanpath fuel "a/b/" = Err OutOfFuel \/ cleanpath fuel "a/b/" = Ok "a/b/") /\
  (cleanpath fuel "a/b" = Err OutOfFuel \/ cleanpath fuel "a/b" = Ok "a/b").
Proof.
  destruct fuel as [|[|[|[|fuel]]]];
    (split; [first [left; reflexivity | right; reflexivity]
            |first [left; reflexivity | right; reflexivity]]).
Qed.

(** C8, as stated, fails: [a/b/] and [a/b] differ only in an empty
    component, and their archive entry names are [a/b/] and [a/b]. *)
Lemma cleanpath_collapses_all_fails : ~ cleanpath_collapses_all.
Proof.
  intros H. destruct (H "a/b/" "a/b") as (fuel & name & H1 & H2); [reflexivity|].
  destruct (cleanpath_trailing_slash fuel) as [[E1 | E1] [E2 | E2]];
    rewrite E1 in H1; rewrite E2 in H2; congruence.
Qed.

(** C8, amended: [./a/b.js] and [a/b.js] both get the archive entry name
    [a/b.js]; for a destination path that does not start and does not end
    with a slash, the name is the slash-joined list of its components that
    are neither empty nor [.], so two such paths that differ only in empty
    and [.] components get equal names. *)
Theorem archive_names :
  cleanpath 4 "./a/b.js" = Ok "a/b.js" /\
  cleanpath 4 "a/b.js" = Ok "a/b.js" /\
  (forall (fuel : nat) (p : string),
     Str.startswith "/" p = false -> Str.endswith "/" p = false ->
     List.length (Str.split_sep p) < fuel ->
     cleanpath fuel p = Ok (Str.join "/" (proper_segments p))) /\
  (forall (fuel : nat) (p q : string),
     Str.startswith "/" p = false -> Str.endswith "/" p = false ->
     Str.startswith "/" q = false -> Str.endswith "/" q = false ->
     List.length (Str.split_sep p) < fuel -> List.length (Str.split_sep q) < fuel ->
     proper_segments p = proper_segments q ->
     exists name, cleanpath fuel p = Ok name /\ cleanpath fuel q = Ok name).
Proof.
  split; [reflexivity|]. split; [reflexivity|]. split.
  - intros fuel p. apply cleanpath_relative.
  - intros fuel p q Hp1 Hp2 Hq1 Hq2 Hlp Hlq Heq.
    exists (Str.join "/" (proper_segments p)). split.
    + now apply cleanpath_relative.
    + rewrite Heq. now apply cleanpath_relative.
Qed.

Lemma archive_names_witness :
  exists name, cleanpath 7 "./a//b/./c.js" = Ok name /\ cleanpath 7 "a/b/c.js" = Ok name.
Proof.
  apply (proj2 (proj2 (proj2 archive_names)) 7 "./a//b/./c.js" "a/b/c.js");
    first [reflexivity | cbn; lia].
Defined.

(** ** Lookups in a table built by successive assignments *)

Lemma get_set {V : Type} (k k' : string) (v : V) (d : Dict.t V) :
  Dict.get k (Dict.set k' v d) = if String.eqb k' k then Some v else Dict.get k d.
Proof.
  induction d as [|[k0 v0] d IH]; cbn [Dict.set Dict.get]; [reflexivity|].
  destruct (String.eqb_spec k0 k') as [-> | Hne]; cbn [Dict.get].
  - destruct (String.eqb k' k); reflexivity.
  - rewrite IH. destruct (String.eqb_spec k0 k) as [-> | Hne2]; [|reflexivity].
    apply not_eq_sym in Hne. apply String.eqb_neq in Hne. now rewrite Hne.
Qed.

Lemma get_update {V : Type} (k : string) (l : list (string * V)) (d : Dict.t V) :
  Dict.get k (Dict.update d l) =
  match lookup_last k l with
  | Some v => Some v
  | None => Dict.get k d
  end.
Proof.
  unfold Dict.update. revert d.
  induction l as [|[k' v] l IH]; intros d; [reflexivity|].
  cbn [fold_left lookup_last fst snd]. rewrite IH, get_set.
  destruct (lookup_last k l); [reflexivity|].
  destruct (String.eqb k' k); reflexivity.
Qed.

Lemma lookup_last_app {V : Type} (k : string) (a b : list (string * V)) :
  lookup_last k (a ++ b)%list =
  match lookup_last k b with
  | Some v => Some v
  | None => lookup_last k a
  end.
Proof.
  induction a as [|[k' v] a IH]; cbn [app lookup_last].
  - destruct (lookup_last k b); reflexivity.
  - rewrite IH. destruct (lookup_last k b); reflexivity.
Qed.

Lemma lookup_last_in {V : Type} (k : string) (v : V) (l : list (string * V)) :
  lookup_last k l = Some v -> In (k, v) l.
Proof.
  induction l as [|[k' v'] l IH]; cbn [lookup_last]; [discriminate|].
  destruct (lookup_last k l) as [v0|].
  - intros H. right. now apply IH.
  - destruct (String.eqb_spec k' k) as [-> | Hne]; [|discriminate].
    intros H. injection H as ->. now left.
Qed.

Lemma lookup_last_some {V : Type} (k : string) (v : V) (l : list (string * V)) :
  In (k, v) l -> exists v', lookup_last k l = Some v'.
Proof.
  induction l as [|[k' v'] l IH]; [contradiction|]. cbn [lookup_last].
  intros [E | Hin].
  - injection E as -> ->. destruct (lookup_last k l); [eauto|].
    rewrite String.eqb_refl. eauto.
  - destruct (IH Hin) as (v0 & ->). eauto.
Qed.

(** in a list of overlays applied in order, an entry of the overlay at
    position [j] loses only to an entry of an overlay at a later position
    or of the same overlay *)
Lemma lookup_last_overlays {D V : Type} (entries : D -> list (string * V))
  (L : list D) (j : nat) (d : D) (k : string) (s : V) :
  List.nth_error L j = Some d -> In (k, s) (entries d) ->
  exists j' d' s',
    j <= j' /\ List.nth_error L j' = Some d' /\ In (k, s') (entries d') /\
    lookup_last k (List.flat_map entries L) = Some s'.
Proof.
  revert j. induction L as [|d0 L IH]; intros j Hj Hin.
  - destruct j; discriminate.
  - cbn [List.flat_map]. rewrite lookup_last_app.
    destruct j as [|j]; cbn [List.nth_error] in Hj.
    + injection Hj as ->.
      destruct (lookup_last k (List.flat_map entries L)) as [v|] eqn:E.
      * apply lookup_last_in in E. apply in_flat_map in E as (d' & Hd' & Hv).
        apply In_nth_error in Hd' as (j' & Hj').
        exists (S j'), d', v.
        split; [lia|]. split; [exact Hj'|]. split; [exact Hv | reflexivity].
      * destruct (lookup_last_some _ _ _ Hin) as (v' & Hv').
        exists 0, d, v'.
        split; [lia|]. split; [reflexivity|].
        split; [exact (lookup_last_in _ _ _ Hv') | exact Hv'].
    + destruct (IH j Hj Hin) as (j' & d' & s' & Hle & Hj' & Hs' & ->).
      exists (S j'), d', s'.
      split; [lia|]. split; [exact Hj'|]. split; [exact Hs' | reflexivity].
Qed.

(** ** Keys of the overlays *)

Lemma slash_free_startswith (b : string) :
  slash_free b = true -> Str.startswith "/" b = false.
Proof.
  rewrite startswith_sep. destruct b as [|c b]; [reflexivity|].
  cbn [slash_free]. intros H. apply andb_true_iff in H as [H _].
  now apply negb_true_iff in H.
Qed.

Lemma demo_wf_walk : wf_walk Demo.fs.
Proof.
  intros fl top d names Hin. cbn [walk Demo.fs Demo.mk_fs Demo.assoc] in Hin.
  repeat match type of Hin with
         | context [String.eqb ?a top] =>
             destruct (String.eqb_spec a top) as [<- | _]
         end;
    cbv [Demo.runtime_walk] in Hin; cbn [In] in Hin;
    repeat match type of Hin with
           | _ \/ _ => destruct Hin as [Hin | Hin]
           | False => contradiction
           | (_, _) = (_, _) => injection Hin as <- <-
           end;
    (split; [reflexivity | cbn [In]; intros y Hy;
             repeat (destruct Hy as [<- | Hy]; [reflexivity|]); contradiction]).
Defined.

Lemma pics_wf_walk : wf_walk Demo.pics_fs.
Proof.
  intros fl top d names Hin. cbn [walk Demo.pics_fs Demo.mk_fs Demo.assoc] in Hin.
  repeat match type of Hin with
         | context [String.eqb ?a top] =>
             destruct (String.eqb_spec a top) as [<- | _]
         end;
    cbn [In] in Hin;
    repeat match type of Hin with
           | _ \/ _ => destruct Hin as [Hin | Hin]
           | False => contradiction
           | (_, _) = (_, _) => injection Hin as <- <-
           end;
    (split; [reflexivity | cbn [In]; intros y Hy;
             repeat (destruct Hy as [<- | Hy]; [reflexivity|]); contradiction]).
Defined.

Lemma pics_plain_names : plain_names Demo.pics_fs.
Proof.
  intros fl top d names y Hin Hy.
  cbn [walk Demo.pics_fs Demo.mk_fs Demo.assoc] in Hin.
  repeat match type of Hin with
         | context [String.eqb ?a top] =>
             destruct (String.eqb_spec a top) as [<- | _]
         end;
    cbn [In] in Hin;
    repeat match type of Hin with
           | _ \/ _ => destruct Hin as [Hin | Hin]
           | False => contradiction
           | (_, _) = (_, _) => injection Hin as <- <-
           end;
    cbn [In] in Hy;
    repeat (destruct Hy as [<- | Hy]; [reflexivity|]); contradiction.
Defined.

(** ** The overlays of a build, from its inputs *)

Lemma resource_overlays_eq (fs : filesystem) (o : options) :
  resource_overlays fs o = resource_dirs fs o.
Proof.
  unfold resource_overlays, resource_dirs.
  induction (opt_resources o) as [|r l IH]; [reflexivity|].
  cbn [List.flat_map List.map List.filter]. rewrite IH.
  destruct r as [x | name path]; cbn [resource_pair fst snd].
  - destruct (isdir fs x); reflexivity.
  - destruct (isdir fs path); reflexivity.
Qed.

Lemma extension_overlays_eq (fs : filesystem) (o : options) :
  extension_overlays fs o = extfiles fs o.
Proof.
  unfold extension_overlays, extfiles.
  induction (opt_extensions o) as [|e l IH]; [reflexivity|].
  cbn [List.flat_map List.map List.filter]. rewrite IH. cbv zeta.
  destruct (isdir fs _); reflexivity.
Qed.

Lemma appended_overlays_eq (fs : filesystem) (o : options) :
  appended_overlays fs o = added_dirs fs o.
Proof.
  unfold appended_overlays, added_dirs.
  now rewrite resource_overlays_eq, extension_overlays_eq.
Qed.

Lemma append_order_eq (fs : filesystem) (o : options) :
  append_order fs o = (initial_default_dirs ++ added_dirs fs o)%list.
Proof. unfold append_order. now rewrite appended_overlays_eq. Qed.

Lemma contributes_iff (fs : filesystem) (o : options) (d : overlay)
  (k : string) (s : source) :
  contributes fs o d k s <-> In (k, s) (overlay_entries fs o d).
Proof.
  unfold contributes, overlay_entries. cbv zeta. split.
  - intros (dir & names & y & Hw & Hy & Hr & -> & ->).
    apply in_flat_map. exists (dir, names). split; [exact Hw|].
    apply in_map_iff. exists y. split; [reflexivity|]. apply filter_In. now split.
  - intros H. apply in_flat_map in H as ([dir names] & Hw & H).
    apply in_map_iff in H as (y & E & Hy). apply filter_In in Hy as [Hy Hr].
    cbn [fst snd] in E. injection E as <- <-. exists dir, names, y.
    split; [exact Hw|]. split; [exact Hy|]. split; [exact Hr|]. split; reflexivity.
Qed.

(** ** The order of assignments and the order of the table *)

Lemma lookup_In {A : Type} (l : list A) (i : nat) (x : A) :
  l !! i = Some x -> In x l.
Proof.
  revert i. induction l as [|y l IH]; intros i H; [destruct i; discriminate|].
  destruct i as [|i]; [injection H as ->; now left | right; exact (IH i H)].
Qed.

Lemma In_firstn_lookup {A : Type} (l : list A) (n : nat) (x : A) :
  In x (List.firstn n l) -> exists i, i < n /\ l !! i = Some x.
Proof.
  revert n. induction l as [|y l IH]; intros n H.
  - destruct n; contradiction.
  - destruct n as [|n]; [contradiction|]. cbn [List.firstn] in H.
    destruct H as [-> | H].
    + exists 0. split; [lia | reflexivity].
    + destruct (IH n H) as (i & Hi & Hl). exists (S i). split; [lia | exact Hl].
Qed.

Lemma lookup_In_firstn {A : Type} (l : list A) (n i : nat) (x : A) :
  l !! i = Some x -> i < n -> In x (List.firstn n l).
Proof.
  revert n i. induction l as [|y l IH]; intros n i H Hlt; [destruct i; discriminate|].
  destruct n as [|n]; [lia|]. cbn [List.firstn]. destruct i as [|i].
  - injection H as ->. now left.
  - right. apply (IH n i H). lia.
Qed.

(** the value a key ends with comes from the last overlay that has the key *)
Lemma lookup_last_flat {D V : Type} (entries : D -> list (string * V))
  (L : list D) (k : string) (v : V) :
  lookup_last k (List.flat_map entries L) = Some v ->
  exists j d,
    L !! j = Some d /\ In (k, v) (entries d) /\
    forall j' d' v', j < j' -> L !! j' = Some d' -> ~ In (k, v') (entries d').
Proof.
  induction L as [|d0 L IH]; [discriminate|].
  cbn [List.flat_map]. rewrite lookup_last_app.
  destruct (lookup_last k (List.flat_map entries L)) as [v0|] eqn:E.
  - intros H. injection H as ->.
    destruct (IH eq_refl) as (j & d & Hj & Hin & Hlast).
    exists (S j), d. split; [exact Hj|]. split; [exact Hin|].
    intros j' d' v' Hlt Hj' Hin'. destruct j' as [|j']; [lia|].
    apply (Hlast j' d' v'); [lia | exact Hj' | exact Hin'].
  - intros H. exists 0, d0. split; [reflexivity|].
    split; [exact (lookup_last_in _ _ _ H)|].
    intros j' d' v' Hlt Hj' Hin'. destruct j' as [|j']; [lia|].
    assert (Hf : In (k, v') (List.flat_map entries L)).
    { apply in_flat_map. exists d'. split; [exact (lookup_In L j' d' Hj') | exact Hin']. }
    destruct (lookup_last_some _ _ _ Hf) as (v1 & Hv1). congruence.
Qed.

Lemma set_keys_prefix {V : Type} (k : string) (v : V) (d : Dict.t V) :
  exists X, Dict.keys (Dict.set k v d) = (Dict.keys d ++ X)%list.
Proof.
  unfold Dict.keys.
  induction d as [|[k0 v0] d (X & IH)]; cbn [Dict.set List.map fst].
  - now exists [k].
  - destruct (String.eqb k0 k); cbn [List.map fst].
    + exists []. now rewrite List.app_nil_r.
    + exists X. now rewrite IH.
Qed.

(** assignments keep the keys a table has, in their order, and put new
    keys after them *)
Lemma update_keys_prefix {V : Type} (l : list (string * V)) (d : Dict.t V) :
  exists X, Dict.keys (Dict.update d l) = (Dict.keys d ++ X)%list.
Proof.
  unfold Dict.update. revert d.
  induction l as [|[k v] l IH]; intros d; cbn [fold_left fst snd].
  - exists []. now rewrite List.app_nil_r.
  - destruct (IH (Dict.set k v d)) as (X2 & ->).
    destruct (set_keys_prefix k v d) as (X1 & ->).
    exists (X1 ++ X2)%list. now rewrite <- List.app_assoc.
Qed.

Lemma update_update {V : Type} (a b : list (string * V)) (d : Dict.t V) :
  Dict.update (Dict.update d a) b = Dict.update d (a ++ b).
Proof. unfold Dict.update. now rewrite fold_left_app. Qed.

Lemma update_keys_in {V : Type} (k : string) (l : list (string * V)) (d : Dict.t V) :
  In k (Dict.keys (Dict.update d l)) -> In k (Dict.keys d) \/ In k (List.map fst l).
Proof.
  unfold Dict.update. revert d.
  induction l as [|[k' v] l IH]; intros d H; cbn [fold_left fst snd] in H.
  - now left.
  - apply IH in H as [H | H]; [|right; now right].
    apply set_keys_in in H as [H | ->]; [now left | right; now left].
Qed.

Lemma update_has_key {V : Type} (k : string) (v : V) (l : list (string * V))
  (d : Dict.t V) :
  In (k, v) l -> In k (Dict.keys (Dict.update d l)).
Proof.
  intros H. destruct (lookup_last_some _ _ _ H) as (v' & Hv').
  assert (Hg : Dict.get k (Dict.update d l) = Some v') by (now rewrite get_update, Hv').
  apply get_in in Hg. unfold Dict.keys. apply in_map_iff. now exists (k, v').
Qed.

(** a key assigned by the first assignments stands before a key that only
    later assignments bring *)
Lemma keys_order {V : Type} (a b : list (string * V)) (k1 k2 : string) :
  In k1 (List.map fst a) -> ~ In k2 (List.map fst a) ->
  In k2 (Dict.keys (Dict.update [] (a ++ b))) ->
  stands_before k1 k2 (Dict.keys (Dict.update [] (a ++ b))).
Proof.
  intros H1 H2 Hin. rewrite <- update_update in Hin. rewrite <- update_update.
  destruct (update_keys_prefix b (Dict.update [] a)) as (X & HX).
  rewrite HX in Hin. rewrite HX.
  apply in_map_iff in H1 as ([k v] & E & H1). cbn [fst] in E. subst k.
  apply (update_has_key _ _ _ []) in H1. apply in_split in H1 as (x & y & H1).
  apply in_app_or in Hin as [Hin | Hin].
  - apply update_keys_in in Hin as [[] | Hin]. contradiction.
  - apply in_split in Hin as (y' & z & ->). rewrite H1.
    exists x, (y ++ y')%list, z. rewrite <- !List.app_assoc. reflexivity.
Qed.

(** ** Override order *)

Example pics_overlays :
  snd (collectFiles Demo.pics_fs Demo.pics_opts initial_default_dirs) =
    [("runtime", "."); ("/n/pics", "resources/pics"); ("/n/themes/pic/files", ".")] /\
  append_order Demo.pics_fs Demo.pics_opts =
    [("runtime", "."); ("/n/pics", "resources/pics"); ("/n/themes/pic/files", ".")] /\
  claimed_order Demo.pics_fs Demo.pics_opts =
    [("runtime", "."); ("/n/themes/pic/files", "."); ("/n/pics", "resources/pics")].
Proof. vm_compute. repeat split. Qed.

Example pics_table :
  fst (collectFiles Demo.pics_fs Demo.pics_opts initial_default_dirs) =
  [("./index.html", OnDisk "/n/runtime/index.html");
   ("resources/pics/a.png", OnDisk "/n/pics/a.png");
   ("./resources/pics/a.png", OnDisk "/n/themes/pic/files/resources/pics/a.png")].
Proof. vm_compute. reflexivity. Qed.

(** the two pictures reach one path of the bundle, the theme's last: the
    archive gets two members of that name, the theme's second, and a clean
    directory build ends with the theme's picture *)
Example pics_bundles :
  let files := fst (collectFiles Demo.pics_fs Demo.pics_opts initial_default_dirs) in
  compileToZip 10 Demo.pics_fs files =
    Ok [("index.html", "<html>");
        ("resources/pics/a.png", "exam picture");
        ("resources/pics/a.png", "theme picture")] /\
  match compileToDir 10 Demo.pics_opts files Demo.pics_disk with
  | Ok d => (Disk.lookup d "/out/resources/pics/a.png", writes d)
  | Err _ => (None, [])
  end =
  (Some (File "theme picture" 9),
   ["/out/./index.html"; "/out/resources/pics/a.png"; "/out/./resources/pics/a.png"]).
Proof. vm_compute. split; reflexivity. Qed.

(** C1, as stated, fails: a theme's [files/resources/pics/a.png] and the
    [a.png] of the resource directory [pics] name the same path of the
    bundle, and the resource directory is later in the stated order; yet
    the table lists the theme's entry after the resource's, so the theme's
    entry is the one written last at that path. *)
Lemma claimed_order_decides_fails : ~ claimed_order_decides.
Proof.
  intros H.
  destruct (H Demo.pics_fs Demo.pics_opts 1 2
              ("/n/themes/pic/files", ".") ("/n/pics", "resources/pics")
              "./resources/pics/a.png" "resources/pics/a.png"
              (OnDisk "/n/themes/pic/files/resources/pics/a.png")
              (OnDisk "/n/pics/a.png"))
    as (j' & d' & k' & s' & Hle & Hj' & Hc & Hlast).
  - exact pics_wf_walk.
  - exact pics_plain_names.
  - lia.
  - vm_compute. reflexivity.
  - vm_compute. reflexivity.
  - exists "/n/themes/pic/files/resources/pics", ["a.png"], "a.png".
    split; [vm_compute; tauto|]. split; [now left|]. repeat split.
  - exists "/n/pics", ["a.png"], "a.png".
    split; [vm_compute; tauto|]. split; [now left|]. repeat split.
  - reflexivity.
  - vm_compute in Hlast. injection Hlast as <- <-.
    apply contributes_iff in Hc.
    destruct j' as [|[|[|j']]]; [lia | lia | |vm_compute in Hj'; discriminate Hj'].
    vm_compute in Hj'. injection Hj' as <-.
    vm_compute in Hc. destruct Hc as [Hc | []]. discriminate Hc.
Qed.

(** C1, amended: the overlays apply in the order in which
    [collectFiles(options)] appends them, which is the runtime root, then
    the resource directories in declaration order, then the extension
    roots in declaration order, then the theme chain from the base to the
    requested theme. For an entry with key [k1] of the overlay at position
    [i] of that order: the table holds at [k1] an entry of the last overlay
    that has the key, which is at position [i] or later, unless [k1] is
    also the key of a file-valued resource; and [k1] stands in the table
    before every key that no overlay up to position [i] has. So entries
    with the same key collide and the later overlay wins, while entries
    whose keys differ stay apart even when they name one path of the
    bundle, the later overlay's entry coming later. This holds for every
    order in which [os.walk] lists an overlay. *)
Theorem later_appended_overlay_wins (fs : filesystem) (o : options)
  (i : nat) (d1 : overlay) (k1 : string) (s1 : source) :
  append_order fs o !! i = Some d1 ->
  contributes fs o d1 k1 s1 ->
  let files := fst (collectFiles fs o initial_default_dirs) in
  (exists j d s,
     i <= j /\ append_order fs o !! j = Some d /\ contributes fs o d k1 s /\
     (forall j' d' s',
        j < j' -> append_order fs o !! j' = Some d' -> ~ contributes fs o d' k1 s') /\
     ((forall name path,
         In (name, path) (List.map resource_pair (opt_resources o)) ->
         isdir fs path = false -> Path.join "resources" name <> k1) ->
      Dict.get k1 files = Some s))
  /\ (forall k2,
        In k2 (Dict.keys files) ->
        (forall i' d' s',
           i' <= i -> append_order fs o !! i' = Some d' -> ~ contributes fs o d' k2 s') ->
        stands_before k1 k2 (Dict.keys files)).
Proof.
  intros Hi Hc. cbv zeta. apply contributes_iff in Hc.
  assert (Hiff : forall d k s, contributes fs o d k s <-> In (k, s) (overlay_entries fs o d))
    by (intros; apply contributes_iff).
  rewrite append_order_eq in *.
  set (L := (initial_default_dirs ++ added_dirs fs o)%list) in *.
  assert (Hflat : In (k1, s1) (List.flat_map (overlay_entries fs o) L)).
  { apply in_flat_map. exists d1. split; [exact (lookup_In _ _ _ Hi) | exact Hc]. }
  destruct (lookup_last_some _ _ _ Hflat) as (v & Hv).
  destruct (lookup_last_flat _ _ _ _ Hv) as (j & d & Hj & Hin & Hlast).
  split.
  - exists j, d, v. split.
    { destruct (le_lt_dec i j) as [Hle | Hlt]; [exact Hle|].
      exfalso. exact (Hlast i d1 s1 Hlt Hi Hc). }
    split; [exact Hj|]. split; [apply Hiff; exact Hin|]. split.
    + intros j' d' s' Hlt Hj' Hc'. apply Hiff in Hc'.
      exact (Hlast _ _ _ Hlt Hj' Hc').
    + intros Hres. unfold collectFiles. cbn [fst]. rewrite get_update.
      destruct (lookup_last k1 (resource_file_entries fs o)) as [w|] eqn:E.
      * exfalso. apply lookup_last_in in E. unfold resource_file_entries in E.
        apply in_map_iff in E as ([name path] & E & Hnp).
        apply filter_In in Hnp as [Hnp Hd]. cbn [fst snd] in *.
        injection E as Ek _. apply negb_true_iff in Hd.
        exact (Hres name path Hnp Hd Ek).
      * unfold overlay_table. rewrite get_update. fold L. now rewrite Hv.
  - intros k2 Hk2 Hnone. unfold collectFiles in *. cbn [fst] in *.
    unfold overlay_table in *. fold L in Hk2 |- *. rewrite update_update in *.
    set (a := List.flat_map (overlay_entries fs o) (List.firstn (S i) L)).
    set (b := (List.flat_map (overlay_entries fs o) (List.skipn (S i) L)
               ++ resource_file_entries fs o)%list).
    assert (E : (List.flat_map (overlay_entries fs o) L ++ resource_file_entries fs o
                 = a ++ b)%list).
    { unfold a, b. rewrite List.app_assoc, <- flat_map_app, List.firstn_skipn.
      reflexivity. }
    rewrite E in *. apply keys_order.
    + apply in_map_iff. exists (k1, s1). split; [reflexivity|].
      apply in_flat_map. exists d1. split; [|exact Hc].
      apply (lookup_In_firstn _ _ i); [exact Hi | lia].
    + intros Hin'. apply in_map_iff in Hin' as ([k s'] & Ek & Hin').
      cbn [fst] in Ek. subst k.
      apply in_flat_map in Hin' as (d' & Hd' & Hin').
      apply In_firstn_lookup in Hd' as (i' & Hlt & Hl).
      apply (Hnone i' d' s'); [lia | exact Hl | apply Hiff; exact Hin'].
    + exact Hk2.
Qed.

Lemma later_appended_overlay_wins_witness :
  (exists j d s,
     1 <= j /\ append_order Demo.pics_fs Demo.pics_opts !! j = Some d /\
     contributes Demo.pics_fs Demo.pics_opts d "resources/pics/a.png" s /\
     (forall j' d' s',
        j < j' -> append_order Demo.pics_fs Demo.pics_opts !! j' = Some d' ->
        ~ contributes Demo.pics_fs Demo.pics_opts d' "resources/pics/a.png" s') /\
     ((forall name path,
         In (name, path) (List.map resource_pair (opt_resources Demo.pics_opts)) ->
         isdir Demo.pics_fs path = false ->
         Path.join "resources" name <> "resources/pics/a.png") ->
      Dict.get "resources/pics/a.png"
        (fst (collectFiles Demo.pics_fs Demo.pics_opts initial_default_dirs)) = Some s))
  /\ stands_before "resources/pics/a.png" "./resources/pics/a.png"
       (Dict.keys (fst (collectFiles Demo.pics_fs Demo.pics_opts initial_default_dirs))).
Proof.
  destruct (later_appended_overlay_wins Demo.pics_fs Demo.pics_opts 1
              ("/n/pics", "resources/pics") "resources/pics/a.png"
              (OnDisk "/n/pics/a.png")) as [Hwin Hbefore].
  - vm_compute. reflexivity.
  - exists "/n/pics", ["a.png"], "a.png".
    split; [vm_compute; tauto|]. split; [now left|]. repeat split.
  - split; [exact Hwin|]. apply Hbefore.
    + vm_compute. tauto.
    + intros i' d' s' Hle Hl Hc. apply contributes_iff in Hc.
      destruct i' as [|[|i']]; [| |lia].
      * vm_compute in Hl. injection Hl as <-.
        vm_compute in Hc. destruct Hc as [Hc | []]. discriminate Hc.
      * vm_compute in Hl. injection Hl as <-.
        vm_compute in Hc. destruct Hc as [Hc | []]. discriminate Hc.
Defined.

(** ** The shared default overlay list *)

Lemma heap_get_extend (r : nat) (xs : list overlay) (h : heap) :
  r < List.length h ->
  Heap.get r (Heap.extend r xs h) = (Heap.get r h ++ xs)%list.
Proof.
  intros H. unfold Heap.extend. set (l := (Heap.get r h ++ xs)%list).
  unfold Heap.get. now rewrite list_lookup_insert_eq.
Qed.

Lemma heap_get_extend_ne (r r' : nat) (xs : list overlay) (h : heap) :
  r <> r' -> Heap.get r' (Heap.extend r xs h) = Heap.get r' h.
Proof.
  intros H. unfold Heap.extend. set (l := (Heap.get r h ++ xs)%list).
  unfold Heap.get. now rewrite list_lookup_insert_ne.
Qed.

Lemma heap_extend_length (r : nat) (xs : list overlay) (h : heap) :
  List.length (Heap.extend r xs h) = List.length h.
Proof. unfold Heap.extend. apply length_insert. Qed.

(** a loop whose steps append to the list at [r] extends that list by what
    the steps append, and leaves every other list as it was *)
Lemma fold_extend {X : Type} (step : heap -> X -> heap) (g : X -> list overlay)
  (r : nat) :
  (forall h x, step h x = Heap.extend r (g x) h \/ (g x = [] /\ step h x = h)) ->
  forall (l : list X) (h : heap),
    r < List.length h ->
    Heap.get r (fold_left step l h) = (Heap.get r h ++ List.flat_map g l)%list /\
    List.length (fold_left step l h) = List.length h /\
    forall r', r <> r' -> Heap.get r' (fold_left step l h) = Heap.get r' h.
Proof.
  intros Hstep. induction l as [|x l IH]; intros h Hr; cbn [fold_left List.flat_map].
  - rewrite List.app_nil_r. split; [reflexivity|]. split; reflexivity.
  - destruct (Hstep h x) as [E | [Eg E]]; rewrite E.
    + destruct (IH (Heap.extend r (g x) h)) as (Hg & Hl & Hf);
        [now rewrite heap_extend_length|].
      rewrite Hg, Hl, heap_get_extend, heap_extend_length by exact Hr.
      split; [now rewrite <- List.app_assoc|]. split; [reflexivity|].
      intros r' Hne. rewrite Hf by exact Hne. now apply heap_get_extend_ne.
    + rewrite Eg. cbn [app]. now apply IH.
Qed.

Lemma resource_appends (fs : filesystem) (o : options) :
  List.flat_map
    (fun np : string * string =>
       if isdir fs (snd np)
       then [(Path.join (cwd fs) (snd np), Path.join "resources" (fst np))]
       else [])
    (List.map resource_pair (opt_resources o))
  = resource_overlays fs o.
Proof.
  unfold resource_overlays.
  induction (opt_resources o) as [|r l IH]; [reflexivity|].
  cbn [List.map List.flat_map]. rewrite IH. now destruct r.
Qed.

Lemma theme_appends (o : options) :
  List.flat_map (fun themepath => [(Path.join themepath "files", ".")])
    (opt_themepaths o)
  = theme_overlays o.
Proof.
  unfold theme_overlays.
  induction (opt_themepaths o) as [|t l IH]; [reflexivity|].
  cbn [List.map List.flat_map]. now rewrite IH.
Qed.

(** the body of [collectFiles], run on the list at [r]: the table is built
    from that list as the three appending statements leave it, and no other
    list changes *)
Lemma collectFiles_at_spec (fs : filesystem) (o : options) (r : nat) (h : heap) :
  r < List.length h ->
  fst (collectFiles_at fs o r h) = fst (collectFiles fs o (Heap.get r h)) /\
  Heap.get r (snd (collectFiles_at fs o r h))
    = (Heap.get r h ++ appended_overlays fs o)%list /\
  List.length (snd (collectFiles_at fs o r h)) = List.length h /\
  forall r', r <> r' -> Heap.get r' (snd (collectFiles_at fs o r h)) = Heap.get r' h.
Proof.
  intros Hr. unfold collectFiles_at. cbv zeta. cbn [fst snd].
  match goal with
  | |- context [fold_left ?step1 (List.map resource_pair (opt_resources o)) h] =>
      destruct (fold_extend step1
                  (fun np : string * string =>
                     if isdir fs (snd np)
                     then [(Path.join (cwd fs) (snd np), Path.join "resources" (fst np))]
                     else [])
                  r) with (l := List.map resource_pair (opt_resources o)) (h := h)
        as (G1 & L1 & F1);
      [intros h0 [name path]; cbn [fst snd]; destruct (isdir fs path);
         [left; reflexivity | right; split; reflexivity]
      | exact Hr |];
      set (h1 := fold_left step1 (List.map resource_pair (opt_resources o)) h) in *
  end.
  set (h2 := Heap.extend r (extfiles fs o) h1).
  assert (G2 : Heap.get r h2 = (Heap.get r h1 ++ extfiles fs o)%list)
    by (apply heap_get_extend; now rewrite L1).
  assert (L2 : List.length h2 = List.length h)
    by (unfold h2; now rewrite heap_extend_length).
  match goal with
  | |- context [fold_left ?step3 (opt_themepaths o) h2] =>
      destruct (fold_extend step3
                  (fun themepath => [(Path.join themepath "files", ".")]) r)
        with (l := opt_themepaths o) (h := h2) as (G3 & L3 & F3);
      [intros h0 t; left; reflexivity | now rewrite L2 |];
      set (h3 := fold_left step3 (opt_themepaths o) h2) in *
  end.
  assert (G : Heap.get r h3 = (Heap.get r h ++ appended_overlays fs o)%list).
  { rewrite G3, G2, G1, resource_appends, theme_appends.
    unfold appended_overlays. rewrite extension_overlays_eq.
    now rewrite <- !List.app_assoc. }
  split.
  - rewrite G, appended_overlays_eq. reflexivity.
  - split; [exact G|]. split; [now rewrite L3|].
    intros r' Hne. rewrite F3 by exact Hne. unfold h2.
    rewrite heap_get_extend_ne by exact Hne. now apply F1.
Qed.

(** The state-passing form of a call, which [makeExam] uses, is the call
    on the heap, seen from the function's default object. *)
Lemma collectFiles_call_spec (fs : filesystem) (o : options) (arg : dirs_arg)
  (h : heap) :
  0 < List.length h ->
  fst (collectFiles_call fs o arg h)
    = fst (call_collectFiles fs o arg (Heap.get collectFiles_defaults h)) /\
  Heap.get collectFiles_defaults (snd (collectFiles_call fs o arg h))
    = snd (call_collectFiles fs o arg (Heap.get collectFiles_defaults h)) /\
  0 < List.length (snd (collectFiles_call fs o arg h)).
Proof.
  intros Hh. destruct arg as [|dirs]; cbn [collectFiles_call call_collectFiles].
  - destruct (collectFiles_at_spec fs o collectFiles_defaults h Hh) as (F & G & L & _).
    split; [exact F|]. split; [|now rewrite L].
    rewrite G, appended_overlays_eq. reflexivity.
  - unfold Heap.alloc.
    assert (Hr : List.length h < List.length (h ++ [dirs])%list)
      by (rewrite List.length_app; cbn; lia).
    destruct (collectFiles_at_spec fs o (List.length h) (h ++ [dirs])%list Hr)
      as (F & _ & L & Fr).
    assert (Hg : Heap.get (List.length h) (h ++ [dirs])%list = dirs)
      by (unfold Heap.get; now rewrite list_lookup_middle).
    split; [now rewrite F, Hg|]. cbn [fst snd]. split; [|rewrite L; lia].
    rewrite Fr by (unfold collectFiles_defaults; lia).
    unfold Heap.get, collectFiles_defaults.
    destruct h as [|l0 h]; [cbn in Hh; lia | reflexivity].
Qed.

Example second_default_call_sees_first :
  let o2 := Demo.with_themes Demo.opts [] in
  let both :=
    collectFiles_calls Demo.fs [(Demo.opts, DefaultDirs); (o2, DefaultDirs)] module_heap in
  let alone := collectFiles_calls Demo.fs [(o2, DefaultDirs)] module_heap in
  snd both = [[("runtime", "."); ("/n/themes/leaf/files", ".")]] /\
  option_map (Dict.get "./css/leaf.css") (fst both !! 1)
    = Some (Some (OnDisk "/n/themes/leaf/files/css/leaf.css")) /\
  option_map (Dict.get "./css/leaf.css") (fst alone !! 0) = Some None.
Proof. vm_compute. repeat split. Qed.

(** C9: two calls of [collectFiles] that omit [dirs], made one after the
    other in a process that has just loaded the module, share the list the
    function was defined with. The second call returns the table that a
    call given the runtime root followed by the overlays of the first
    build returns, not the table of a call given the runtime root alone:
    it has a key for every file that an overlay of the first build has
    under the options of the second. The shared list ends as the runtime
    root followed by the resource-directory, extension and theme overlays
    of the first build and then those of the second. A call that is given
    a list leaves the shared list as it was. *)
Theorem default_dirs_shared_between_calls (fs : filesystem) (o1 o2 : options) :
  exists (t1 t2 : table) (h : heap),
    collectFiles_calls fs [(o1, DefaultDirs); (o2, DefaultDirs)] module_heap
      = ([t1; t2], h) /\
    t1 = fst (collectFiles_call fs o1 (GivenDirs [runtime_overlay]) module_heap) /\
    t2 = fst (collectFiles_call fs o2
                (GivenDirs (runtime_overlay :: appended_overlays fs o1)) module_heap) /\
    (forall d k s,
       In d (appended_overlays fs o1) -> contributes fs o2 d k s ->
       In k (Dict.keys t2)) /\
    Heap.get collectFiles_defaults
      (snd (collectFiles_call fs o1 DefaultDirs module_heap))
      = runtime_overlay :: appended_overlays fs o1 /\
    Heap.get collectFiles_defaults h
      = (runtime_overlay :: appended_overlays fs o1 ++ appended_overlays fs o2)%list /\
    (forall dirs,
       Heap.get collectFiles_defaults
         (snd (collectFiles_call fs o1 (GivenDirs dirs) module_heap))
       = [runtime_overlay]).
Proof.
  assert (H0 : 0 < List.length module_heap) by (cbn; lia).
  destruct (collectFiles_call_spec fs o1 DefaultDirs module_heap H0) as (F1 & G1 & L1).
  destruct (collectFiles_call fs o1 DefaultDirs module_heap) as [t1 h1] eqn:E1.
  cbn [fst snd] in F1, G1, L1.
  destruct (collectFiles_call_spec fs o2 DefaultDirs h1 L1) as (F2 & G2 & _).
  destruct (collectFiles_call fs o2 DefaultDirs h1) as [t2 h2] eqn:E2.
  cbn [fst snd] in F2, G2.
  change (Heap.get collectFiles_defaults module_heap) with [runtime_overlay] in *.
  cbn [call_collectFiles] in *. unfold collectFiles in G1, G2. cbn [snd] in G1, G2.
  rewrite <- appended_overlays_eq in G1, G2. rewrite G1 in F2, G2.
  exists t1, t2, h2.
  split; [cbn [collectFiles_calls]; now rewrite E1, E2|].
  split.
  { rewrite F1.
    destruct (collectFiles_call_spec fs o1 (GivenDirs [runtime_overlay]) module_heap H0)
      as (F & _). rewrite F. reflexivity. }
  split.
  { rewrite F2.
    destruct (collectFiles_call_spec fs o2
                (GivenDirs (runtime_overlay :: appended_overlays fs o1)) module_heap H0)
      as (F & _). rewrite F. reflexivity. }
  split.
  { intros d k s Hd Hc. apply contributes_iff in Hc. rewrite F2.
    unfold collectFiles, overlay_table. cbn [fst]. rewrite update_update.
    apply (update_has_key k s). apply in_or_app. left.
    apply in_flat_map. exists d. split; [|exact Hc].
    apply in_or_app. left. right. exact Hd. }
  split; [exact G1|].
  split.
  { rewrite G2. reflexivity. }
  intros dirs.
  destruct (collectFiles_call_spec fs o1 (GivenDirs dirs) module_heap H0) as (_ & G & _).
  rewrite G. reflexivity.
Qed.

Lemma default_dirs_shared_between_calls_witness :
  exists (t1 t2 : table) (h : heap),
    collectFiles_calls Demo.fs
      [(Demo.opts, DefaultDirs); (Demo.with_themes Demo.opts [], DefaultDirs)]
      module_heap = ([t1; t2], h) /\
    In "./css/leaf.css" (Dict.keys t2).
Proof.
  destruct (default_dirs_shared_between_calls Demo.fs Demo.opts
              (Demo.with_themes Demo.opts []))
    as (t1 & t2 & h & E & _ & _ & Hk & _).
  exists t1, t2, h. split; [exact E|].
  apply (Hk ("/n/themes/leaf/files", ".") "./css/leaf.css"
            (OnDisk "/n/themes/leaf/files/css/leaf.css")).
  - vm_compute. tauto.
  - exists "/n/themes/leaf/files/css", ["leaf.css"], "leaf.css".
    split; [vm_compute; tauto|]. split; [now left|]. repeat split.
Defined.

(** ** URLs of relative keys *)

Lemma strip_proper (l : list string) : all_proper l -> strip l = l.
Proof.
  unfold all_proper. induction l as [|x l IH]; intros Hl; [reflexivity|].
  inversion Hl as [|? ? [_ Hx] Hl']; subst. cbn [strip]. rewrite (IH Hl').
  destruct l as [|y l]; [|reflexivity].
  apply String.eqb_neq in Hx. now rewrite Hx.
Qed.

Lemma all_proper_slash_free (l : list string) : all_proper l -> all_slash_free l.
Proof.
  unfold all_proper, all_slash_free. intros H.
  eapply List.Forall_impl; [|exact H]. now intros x [Hx _].
Qed.

Lemma all_proper_hd (l : list string) : all_proper l -> l = [] \/ List.hd "" l <> "".
Proof.
  intros H. destruct l as [|x l]; [now left|]. right.
  inversion H as [|? ? [_ Hx] _]; subst. exact Hx.
Qed.

(** the loop of [to_relative_url] on a normalised relative path returns
    its components *)
Lemma url_loop_segs (fuel : nat) (l : list string) (t : string) (bits : list string) :
  all_proper l -> slash_free t = true ->
  List.length l < fuel ->
  url_loop fuel (Str.join "/" l) t bits = Ok (l ++ t :: bits)%list.
Proof.
  revert l t bits. induction fuel as [|fuel IH]; intros l t bits Hl Ht Hlen; [lia|].
  cbn [url_loop]. destruct l as [|x0 l0] eqn:El.
  - reflexivity.
  - rewrite <- El in *. assert (Hne : l <> []) by (rewrite El; discriminate).
    clear El. destruct (exists_last Hne) as (l' & t' & ->).
    pose proof Hl as Hl2. apply Forall_app in Hl2 as [Hl' Ht'].
    inversion Ht' as [|? ? [Hsf Hnz] _]; subst.
    destruct (String.eqb_spec (Str.join "/" (l' ++ [t'])) "") as [E | _];
      [now apply join_last_nonempty in E|].
    cbn [negb].
    rewrite split_join;
      [|now apply all_proper_slash_free | exact Hsf | now apply all_proper_hd].
    rewrite strip_proper by exact Hl'.
    rewrite IH; [|exact Hl' | exact Hsf |].
    + now rewrite <- app_assoc.
    + rewrite length_app in Hlen. cbn [List.length] in Hlen. lia.
Qed.

Lemma all_proper_removelast (l : list string) : all_proper l -> all_proper (List.removelast l).
Proof.
  intros H. destruct l as [|x l]; [exact H|].
  assert (Hne : x :: l <> []) by discriminate.
  rewrite (app_removelast_last "" Hne) in H. now apply Forall_app in H as [H _].
Qed.

Lemma norm_comps_proper (n : nat) (comps acc : list string) :
  all_slash_free comps -> all_proper acc -> all_proper (Path.norm_comps n comps acc).
Proof.
  revert acc. induction comps as [|c comps IH]; intros acc Hc Ha; [exact Ha|].
  inversion Hc as [|? ? Hsf Hc']; subst. cbn [Path.norm_comps].
  destruct (String.eqb_spec c "") as [-> | Hne]; cbn [orb]; [now apply IH|].
  destruct (String.eqb c "."); [now apply IH|].
  match goal with |- context [if ?b then _ else _] => destruct b end.
  - apply IH; [exact Hc'|]. apply Forall_app. split; [exact Ha|].
    constructor; [now split | constructor].
  - apply IH; [exact Hc' | now apply all_proper_removelast].
Qed.

Lemma removelast_length (l : list string) :
  List.length (List.removelast l) <= List.length l.
Proof.
  induction l as [|x l IH]; [reflexivity|]. cbn [List.removelast].
  destruct l; cbn [List.length] in *; lia.
Qed.

Lemma norm_comps_length (n : nat) (comps acc : list string) :
  List.length (Path.norm_comps n comps acc) <= List.length comps + List.length acc.
Proof.
  revert acc. induction comps as [|c comps IH]; intros acc; [cbn; lia|].
  cbn [Path.norm_comps List.length].
  destruct (String.eqb c "" || String.eqb c "."); [specialize (IH acc); lia|].
  match goal with |- context [if ?b then _ else _] => destruct b end.
  - specialize (IH (acc ++ [c])%list). rewrite length_app in IH.
    cbn [List.length] in IH. lia.
  - specialize (IH (List.removelast acc)). pose proof (removelast_length acc). lia.
Qed.

(** [to_relative_url] of a key that does not start with a slash is its
    [os.path.normpath] *)
Lemma to_relative_url_relative (fuel : nat) (k : string) :
  Str.startswith "/" k = false ->
  List.length (Str.split_sep k) < fuel ->
  to_relative_url fuel k = Ok (Path.normpath k).
Proof.
  intros Hs Hlen. unfold to_relative_url.
  assert (Hdot : forall f, 0 < f ->
            (let '(head, tail) := Path.split "." in
             bind (url_loop f head tail []) (fun bits => Ok (Str.join "/" bits)))
            = Ok ".").
  { intros f Hf. destruct f; [lia | reflexivity]. }
  assert (Hfuel : 0 < fuel) by lia.
  unfold Path.normpath. destruct k as [|c r]; [now apply Hdot|].
  cbn [Str.is_empty]. rewrite Hs.
  pose proof (norm_comps_proper 0 (Str.split_sep (String c r)) []
                (split_sep_slash_free _) (List.Forall_nil _)) as Hp.
  pose proof (norm_comps_length 0 (Str.split_sep (String c r)) []) as Hl.
  destruct (Path.norm_comps 0 (Str.split_sep (String c r)) []) as [|x0 l0] eqn:E.
  - now apply Hdot.
  - rewrite <- E in *. assert (Hne : Path.norm_comps 0 (Str.split_sep (String c r)) [] <> [])
      by (rewrite E; discriminate).
    clear E. destruct (join_proper_last _ Hp Hne) as [Hemp _]. rewrite Hemp.
    destruct (exists_last Hne) as (l & t & E). rewrite E in *.
    pose proof Hp as Hp2. apply Forall_app in Hp2 as [Hpl Hpt].
    inversion Hpt as [|? ? [Hsf _] _]; subst.
    rewrite split_join;
      [|now apply all_proper_slash_free | exact Hsf | now apply all_proper_hd].
    rewrite strip_proper by exact Hpl.
    rewrite url_loop_segs; [reflexivity | exact Hpl | exact Hsf |].
    rewrite length_app in Hl. cbn [List.length] in Hl. lia.
Qed.

Example url_is_normpath :
  to_relative_url 6 "./a/../b//c.js" = Ok "b/c.js" /\
  Path.normpath "./a/../b//c.js" = "b/c.js".
Proof. split; reflexivity. Qed.

(** ** The SCORM manifest *)

Lemma mapM_Forall2 {A B : Type} (f : A -> result B) (l : list A) (r : list B) :
  mapM f l = Ok r -> List.Forall2 (fun a b => f a = Ok b) l r.
Proof.
  revert r. induction l as [|x l IH]; intros r H; cbn [mapM] in H.
  - injection H as <-. constructor.
  - apply bind_ok in H as (y & Hy & H). apply bind_ok in H as (ys & Hys & H).
    injection H as <-. constructor; [exact Hy | now apply IH].
Qed.

Example demo_scorm_build :
  match makeExam_table 10 Demo.fs (Demo.cb [] 0) (Demo.with_flags Demo.opts true "")
          "" initial_default_dirs with
  | Ok b => (Dict.keys (b_final b), option_map mf_files (b_manifest b))
  | Err _ => ([], None)
  end =
  (["./index.html"; "./imsmanifest.xml"; "./styles.css"; "./scripts.js"],
   Some ["index.html"; "scripts/jme.js"; "scripts/numbas.js"; "css/main.css";
         "css/leaf.css"; "settings.js"; "locale.js"]).
Proof. vm_compute. reflexivity. Qed.

(** C6: the code does not do what the statement says. [makeExam] takes
    [files.keys()] for the manifest inside the SCORM block, before it adds
    the SCORM support files and the manifest entry and before aggregation
    replaces the style and script entries by the two merged ones. In the
    demo SCORM build the package holds [index.html], [imsmanifest.xml],
    [styles.css] and [scripts.js]; the manifest lists [index.html] and six
    files that are not in the package, and lists none of the other three
    files that are. *)
Theorem scorm_manifest_lists_stale_table :
  exists (b : build) (m : manifest),
    makeExam_table 10 Demo.fs (Demo.cb [] 0) (Demo.with_flags Demo.opts true "")
      "" initial_default_dirs = Ok b /\
    b_manifest b = Some m /\
    mapM (to_relative_url 10) (Dict.keys (b_final b)) =
      Ok ["index.html"; "imsmanifest.xml"; "styles.css"; "scripts.js"] /\
    mf_files m =
      ["index.html"; "scripts/jme.js"; "scripts/numbas.js"; "css/main.css";
       "css/leaf.css"; "settings.js"; "locale.js"] /\
    Dict.get "./imsmanifest.xml" (b_final b) = Some (InMemory (manifest_tostring (Demo.cb [] 0) m)).
Proof.
  destruct (makeExam_table 10 Demo.fs (Demo.cb [] 0)
              (Demo.with_flags Demo.opts true "") "" initial_default_dirs)
    as [b|e] eqn:Hb; [|vm_compute in Hb; discriminate].
  destruct (b_manifest b) as [m|] eqn:Hm;
    [|vm_compute in Hb; injection Hb as <-; discriminate].
  exists b, m. split; [reflexivity|]. split; [exact Hm|].
  vm_compute in Hb. injection Hb as <-. cbn in Hm. injection Hm as <-.
  vm_compute. repeat split.
Qed.

(** the statement of C6 is therefore not a property of [makeExam]: the
    table handed to the writer has [./scripts.js], and the manifest has no
    [scripts.js] *)
Lemma manifest_lists_final_table_fails : ~ manifest_lists_final_table.
Proof.
  intros H.
  destruct (makeExam_table 10 Demo.fs (Demo.cb [] 0)
              (Demo.with_flags Demo.opts true "") "" initial_default_dirs)
    as [b|e] eqn:Hb; [|vm_compute in Hb; discriminate].
  destruct (b_manifest b) as [m|] eqn:Hm;
    [|vm_compute in Hb; injection Hb as <-; discriminate].
  destruct (H _ _ _ _ _ _ _ Hb Hm) as [Hall _].
  vm_compute in Hb. injection Hb as <-. cbn in Hm. injection Hm as <-.
  destruct (Hall "./scripts.js") as (href & Hurl & Hin).
  - cbn. tauto.
  - vm_compute in Hurl. injection Hurl as <-.
    cbn in Hin. intuition discriminate.
Qed.

Lemma mapM_pointwise {A B : Type} (f : A -> result B) (g : A -> B) (l : list A) :
  (forall x, In x l -> f x = Ok (g x)) -> mapM f l = Ok (List.map g l).
Proof.
  induction l as [|x l IH]; intros H; [reflexivity|].
  cbn [mapM List.map]. rewrite (H x (or_introl eq_refl)). cbn [bind].
  rewrite IH; [reflexivity|]. intros z Hz. apply H. now right.
Qed.

(** What the manifest lists instead, on every SCORM build: after the [file]
    elements of the template, one [file] element for every key of the table
    as it is right after the settings and locale entries are injected, in
    table order, with the URL of that key as [href]. The SCORM support
    files, the manifest entry and the merged bundles are added to the table
    afterwards; the statement of C6 asks for them, and for no element for
    the style and script files that aggregation removes. When the template
    parses and no key starts with a slash, the patch completes, and the URL
    of a key is its normalised path. *)
Lemma manifest_lists_injected_table
  (fuel : nat) (fs : filesystem) (cb : collaborators) (o : options)
  (text : string) (dd : list overlay) :
  (forall (b : build) (m : manifest),
     makeExam_table fuel fs cb o text dd = Ok b ->
     b_manifest b = Some m ->
     exists tmpl urls,
       opt_scorm o = true /\
       manifest_template cb
         (Path.join (Path.join (opt_path o) "scormfiles") "imsmanifest.xml") = Some tmpl /\
       List.Forall2 (fun k href => to_relative_url fuel k = Ok href)
         (Dict.keys (b_injected b)) urls /\
       mf_files m = (mf_files tmpl ++ urls)%list)
  /\ (forall (ex : exam) (files : table) (tmpl : manifest),
        manifest_template cb
          (Path.join (Path.join (opt_path o) "scormfiles") "imsmanifest.xml") = Some tmpl ->
        (forall k, In k (Dict.keys files) ->
           Str.startswith "/" k = false /\ List.length (Str.split_sep k) < fuel) ->
        patch_manifest fuel cb o ex files =
        Ok {| mf_identifier := "Numbas: " ++ exam_name ex;
              mf_title := exam_name ex;
              mf_files := (mf_files tmpl ++ List.map Path.normpath (Dict.keys files))%list |}).
Proof.
  split.
  - unfold makeExam_table. intros b m H Hm.
    destruct (parse_exam cb text) as [ex|]; [|discriminate].
    destruct (call_collectFiles fs _ DefaultDirs dd) as [files dd'].
    destruct (locale_js cb _) as [locale|]; [|discriminate].
    cbn [opt_scorm set_exam opt_xmls] in H.
    destruct (opt_scorm o) eqn:Hs.
    + apply bind_ok in H as ([t1 om] & H1 & H).
      apply bind_ok in H1 as ([t2 m2] & H1 & E). injection E as <- <-.
      apply bind_ok in H as (t3 & _ & H). apply bind_ok in H as (t4 & _ & H).
      injection H as <-. cbn in Hm. injection Hm as ->.
      unfold scorm_stage in H1. apply bind_ok in H1 as (m' & Hp & E).
      injection E as _ <-. unfold patch_manifest in Hp. cbn [opt_path set_exam] in Hp.
      destruct (manifest_template cb _) as [tmpl|]; [|discriminate].
      apply bind_ok in Hp as (urls & Hu & E). injection E as <-.
      exists tmpl, urls. cbn [b_injected mf_files].
      repeat split. now apply mapM_Forall2.
    + apply bind_ok in H as ([t1 om] & H1 & H). injection H1 as <- <-.
      apply bind_ok in H as (t3 & _ & H). apply bind_ok in H as (t4 & _ & H).
      injection H as <-. discriminate.
  - intros ex files tmpl Ht Hk. unfold patch_manifest. rewrite Ht.
    rewrite (mapM_pointwise _ Path.normpath); [reflexivity|].
    intros k Hin. destruct (Hk k Hin) as [Hs Hl].
    now apply to_relative_url_relative.
Qed.

Lemma manifest_lists_injected_table_witness :
  exists tmpl urls,
    opt_scorm (Demo.with_flags Demo.opts true "") = true /\
    manifest_template (Demo.cb [] 0) "/n/scormfiles/imsmanifest.xml" = Some tmpl /\
    List.Forall2 (fun k href => to_relative_url 10 k = Ok href)
      ["./index.html"; "./scripts/jme.js"; "./scripts/numbas.js"; "./css/main.css";
       "./css/leaf.css"; "./settings.js"; "./locale.js"] urls /\
    ["index.html"; "scripts/jme.js"; "scripts/numbas.js"; "css/main.css";
     "css/leaf.css"; "settings.js"; "locale.js"] = (mf_files tmpl ++ urls)%list.
Proof.
  destruct (makeExam_table 10 Demo.fs (Demo.cb [] 0)
              (Demo.with_flags Demo.opts true "") "" initial_default_dirs)
    as [b|e] eqn:Hb; [|vm_compute in Hb; discriminate].
  destruct (b_manifest b) as [m|] eqn:Hm;
    [|vm_compute in Hb; injection Hb as <-; discriminate].
  pose proof (proj1 (manifest_lists_injected_table 10 Demo.fs (Demo.cb [] 0)
                       (Demo.with_flags Demo.opts true "") "" initial_default_dirs)
                _ _ Hb Hm) as H.
  vm_compute in Hb. injection Hb as <-. cbn in Hm. injection Hm as <-.
  exact H.
Defined.

(* ================================================================== *)
(** * Further properties of the build *)

(** ** Aggregation and minification *)

Lemma get_app {V : Type} (k : string) (a b : Dict.t V) :
  Dict.get k (a ++ b)%list =
  match Dict.get k a with
  | Some v => Some v
  | None => Dict.get k b
  end.
Proof.
  induction a as [|[k' v'] a IH]; cbn [app Dict.get]; [reflexivity|].
  destruct (String.eqb k' k); [reflexivity | exact IH].
Qed.

Lemma get_without_ext (e k : string) (files : table) :
  Path.ext k <> e -> Dict.get k (without_ext e files) = Dict.get k files.
Proof.
  intros Hk. unfold without_ext.
  induction files as [|[k' v'] l IH]; [reflexivity|]. cbn [List.filter fst].
  destruct (String.eqb_spec (Path.ext k') e) as [E | E]; cbn [negb Dict.get].
  - rewrite IH. destruct (String.eqb_spec k' k) as [-> | _]; [contradiction | reflexivity].
  - now rewrite IH.
Qed.

Lemma get_app_none_tail (k k1 k2 : string) (v1 v2 : source) :
  k1 <> k -> k2 <> k -> Dict.get k [(k1, v1); (k2, v2)] = None.
Proof.
  intros H1 H2. cbn [Dict.get].
  apply String.eqb_neq in H1, H2. now rewrite H1, H2.
Qed.

Lemma aggregate_get_other
  (fs : filesystem) (o : options) (files t : table) (k : string) :
  aggregate fs o files = Ok t ->
  Path.ext k <> ".css" -> Path.ext k <> ".js" ->
  Dict.get k t = Dict.get k files.
Proof.
  intros H Hcss Hjs. apply aggregate_ok in H as (css & js & ->).
  rewrite get_app, !get_without_ext by assumption.
  destruct (Dict.get k files) as [v|]; [reflexivity|].
  cbn [Dict.get].
  destruct (String.eqb_spec "./styles.css" k) as [<- | _]; [now contradiction Hcss|].
  destruct (String.eqb_spec "./scripts.js" k) as [<- | _]; [now contradiction Hjs|].
  reflexivity.
Qed.

(** Aggregation leaves alone every entry that is neither a style sheet
    nor a script: a key with another extension holds after aggregation
    what it held before. *)
Theorem aggregate_keeps_other_entries
  (fs : filesystem) (o : options) (files t : table) (k : string) :
  aggregate fs o files = Ok t ->
  Path.ext k <> ".css" -> Path.ext k <> ".js" ->
  Dict.get k t = Dict.get k files.
Proof.
  intros H Hcss Hjs. apply aggregate_ok in H as (css & js & ->).
  rewrite get_app. rewrite (get_without_ext ".js"), (get_without_ext ".css")
    by assumption.
  destruct (Dict.get k files) as [v|] eqn:Ek; [reflexivity|].
  apply get_app_none_tail; intros E; [apply Hcss | apply Hjs]; now rewrite <- E.
Qed.

Lemma aggregate_keeps_other_entries_witness :
  Dict.get "./index.html"
    [("./index.html", OnDisk "/n/themes/leaf/files/index.html");
     ("./styles.css", InMemory ("body{}" ++ String "010" "p{}"));
     ("./scripts.js", InMemory ("boot();" ++ String "010" "jme();"))] =
  Dict.get "./index.html" (Demo.collected ["/n/themes/leaf"] []).
Proof.
  apply (aggregate_keeps_other_entries Demo.fs Demo.opts
           (Demo.collected ["/n/themes/leaf"] []) _ "./index.html" eq_refl);
    discriminate.
Defined.

(** The merged style sheet is the text of the style sheets in table
    order, joined by newlines. *)
Theorem styles_in_table_order (fs : filesystem) (files t : table) :
  merge_styles fs files = Ok t ->
  exists texts,
    List.Forall2 (fun src text => read_source fs src = Ok text)
      (List.map snd (with_ext ".css" files)) texts /\
    Dict.get "./styles.css" t = Some (InMemory (Str.join (String "010" "") texts)).
Proof.
  intros H. unfold merge_styles in H.
  apply bind_ok in H as (texts & Ht & H). injection H as <-.
  exists texts. split; [now apply mapM_Forall2|].
  rewrite del_all_with_ext, set_merged by reflexivity.
  apply get_app_fresh. intros kv Hkv E.
  apply without_ext_key in Hkv. rewrite E in Hkv. now apply Hkv.
Qed.

Lemma styles_in_table_order_witness :
  exists texts,
    List.Forall2 (fun src text => read_source Demo.fs src = Ok text)
      [OnDisk "/n/runtime/css/main.css"; OnDisk "/n/themes/leaf/files/css/leaf.css"]
      texts /\
    Dict.get "./styles.css"
      [("./index.html", OnDisk "/n/themes/leaf/files/index.html");
       ("./scripts/jme.js", OnDisk "/n/runtime/scripts/jme.js");
       ("./scripts/numbas.js", OnDisk "/n/runtime/scripts/numbas.js");
       ("./styles.css", InMemory ("body{}" ++ String "010" "p{}"))] =
    Some (InMemory (Str.join (String "010" "") texts)).
Proof.
  apply (styles_in_table_order Demo.fs (Demo.collected ["/n/themes/leaf"] [])).
  reflexivity.
Defined.

Lemma minify_fold_err (cb : collaborators) (o : options) (l : table) (e : error) :
  fold_left (minify_entry cb o) l (Err e) = Err e.
Proof. induction l as [|kv l IH]; [reflexivity | exact IH]. Qed.

(** The minification loop on its own: on a table whose first file-backed
    script entry makes the minifier exit with a status other than 0, it
    raises, naming that entry's source. *)
Theorem minify_raises_on_first_failure
  (cb : collaborators) (o : options) (l1 l2 : table) (k src : string) :
  opt_minify o <> "" ->
  (forall kv, In kv l1 ->
     is_basestring (snd kv) = true -> Path.ext (fst kv) <> ".js") ->
  Path.ext k = ".js" ->
  fst (run_minifier cb (opt_minify o) src) <> 0%Z ->
  minify_stage cb o (l1 ++ (k, OnDisk src) :: l2)%list =
  Err (MinificationFailed src (opt_minify o)).
Proof.
  intros Hm Hl1 Hk Hcode. unfold minify_stage.
  apply String.eqb_neq in Hm. rewrite Hm. cbn [negb].
  rewrite fold_left_app, minify_fold_skip by exact Hl1.
  cbn [fold_left]. unfold minify_entry at 2. cbn [bind fst snd].
  rewrite Hk, String.eqb_refl.
  destruct (run_minifier cb (opt_minify o) src) as [code out]. cbn [fst] in Hcode.
  apply Z.eqb_neq in Hcode. rewrite Hcode. cbn [negb].
  apply minify_fold_err.
Qed.

Lemma minify_raises_on_first_failure_witness :
  minify_stage (Demo.cb [] 1) (Demo.with_flags Demo.opts false "/bin/false")
    [("./index.html", OnDisk "/n/runtime/index.html");
     ("./scripts/jme.js", OnDisk "/n/runtime/scripts/jme.js");
     ("./scripts/numbas.js", OnDisk "/n/runtime/scripts/numbas.js")] =
  Err (MinificationFailed "/n/runtime/scripts/jme.js" "/bin/false").
Proof.
  apply (minify_raises_on_first_failure (Demo.cb [] 1)
           (Demo.with_flags Demo.opts false "/bin/false")
           [("./index.html", OnDisk "/n/runtime/index.html")]).
  - discriminate.
  - intros kv [<- | []] _. discriminate.
  - reflexivity.
  - discriminate.
Defined.

(** What [makeExam] hands to the writer does not depend on the minifier:
    with any other minifier process the stages before the writer give the
    same result. *)
Theorem build_ignores_minifier
  (fuel : nat) (fs : filesystem) (cb : collaborators) (o : options)
  (text : string) (dd : list overlay) (f : string -> string -> Z * string) :
  makeExam_table fuel fs (with_minifier cb f) o text dd =
  makeExam_table fuel fs cb o text dd.
Proof.
  unfold makeExam_table. cbn [parse_exam xml2js locale_js with_minifier].
  destruct (parse_exam cb text) as [ex|]; [|reflexivity].
  destruct (call_collectFiles fs _ DefaultDirs dd) as [files dd'].
  destruct (locale_js cb _) as [locale|]; [|reflexivity].
  match goal with
  | |- bind ?a _ = bind ?b _ => replace a with b by reflexivity; destruct b as [fm|e]
  end; [|reflexivity].
  cbn [bind]. destruct (aggregate fs _ (fst fm)) as [t|e] eqn:Ha; [|reflexivity].
  cbn [bind]. now rewrite !(minify_after_aggregate _ _ _ _ _ Ha).
Qed.

(** In a SCORM build the table handed to the writer holds the generated
    manifest at [./imsmanifest.xml], whatever file of that name the SCORM
    support directory or a theme supplies. *)
Theorem generated_manifest_wins
  (fuel : nat) (fs : filesystem) (cb : collaborators) (o : options)
  (text : string) (dd : list overlay) (b : build) (m : manifest) :
  makeExam_table fuel fs cb o text dd = Ok b ->
  b_manifest b = Some m ->
  Dict.get "./imsmanifest.xml" (b_final b) = Some (InMemory (manifest_tostring cb m)).
Proof.
  unfold makeExam_table. intros H Hm.
  destruct (parse_exam cb text) as [ex|]; [|discriminate].
  destruct (call_collectFiles fs _ DefaultDirs dd) as [files dd'].
  destruct (locale_js cb _) as [locale|]; [|discriminate].
  cbn [opt_scorm set_exam opt_xmls] in H.
  destruct (opt_scorm o).
  - apply bind_ok in H as ([t1 om] & H1 & H).
    apply bind_ok in H1 as ([t2 m2] & H1 & E). injection E as <- <-.
    apply bind_ok in H as (t3 & Ha & H). apply bind_ok in H as (t4 & Hmin & H).
    injection H as <-. cbn in Hm. injection Hm as ->. cbn [b_final].
    rewrite (minify_after_aggregate _ _ _ _ _ Ha) in Hmin. injection Hmin as <-.
    cbn [fst] in Ha.
    rewrite (aggregate_get_other _ _ _ _ "./imsmanifest.xml" Ha)
      by discriminate.
    unfold scorm_stage in H1. apply bind_ok in H1 as (m' & Hp & E).
    injection E as <- <-. rewrite get_set. reflexivity.
  - apply bind_ok in H as ([t1 om] & H1 & H). injection H1 as <- <-.
    apply bind_ok in H as (t3 & _ & H). apply bind_ok in H as (t4 & _ & H).
    injection H as <-. discriminate.
Qed.

Lemma generated_manifest_wins_witness :
  Dict.get "./imsmanifest.xml"
    [("./index.html", OnDisk "/n/themes/leaf/files/index.html");
     ("./imsmanifest.xml",
      InMemory "index.html,scripts/jme.js,scripts/numbas.js,css/main.css,css/leaf.css,settings.js,locale.js");
     ("./styles.css", InMemory ("body{}" ++ String "010" "p{}"));
     ("./scripts.js",
      InMemory ("boot();" ++ String "010" ("jme();" ++ String "010"
        ("settings();" ++ String "010" ("locale();" ++ String "010" "scorm();")))))] =
  Some (InMemory "index.html,scripts/jme.js,scripts/numbas.js,css/main.css,css/leaf.css,settings.js,locale.js").
Proof.
  destruct (makeExam_table 10 Demo.fs (Demo.cb [] 0)
              (Demo.with_flags Demo.opts true "") "" initial_default_dirs)
    as [b|e] eqn:Hb; [|vm_compute in Hb; discriminate].
  destruct (b_manifest b) as [m|] eqn:Hm;
    [|vm_compute in Hb; injection Hb as <-; discriminate].
  pose proof (generated_manifest_wins _ _ _ _ _ _ _ _ Hb Hm) as H.
  vm_compute in Hb. injection Hb as <-. cbn in Hm. injection Hm as <-.
  exact H.
Defined.

(** ** The theme chain *)

Lemma get_theme_path_exists (fs : filesystem) (path theme t : string) :
  get_theme_path fs path theme = Ok t -> exists_ fs t = true.
Proof.
  unfold get_theme_path. destruct (exists_ fs theme) eqn:E1.
  - intros H. cbv iota in H. injection H as <-. exact E1.
  - cbv iota.
    destruct (exists_ fs (Path.join (Path.join path "themes") theme)) eqn:E2;
      intros H; cbv iota in H; [|discriminate].
    injection H as <-. exact E2.
Qed.

(** the loop keeps the entries below its index and returns only themes
    that exist, when the entries below its index exist *)
Lemma theme_loop_inv (fuel : nat) (fs : filesystem) (path : string)
  (themepaths l : list string) (i : nat) :
  theme_loop fuel fs path themepaths i = Ok l ->
  (forall j x, j < i -> themepaths !! j = Some x -> exists_ fs x = true) ->
  (forall j, j < i -> l !! j = themepaths !! j) /\
  (forall j x, l !! j = Some x -> exists_ fs x = true).
Proof.
  revert themepaths i. induction fuel as [|fuel IH]; intros tp i H Hinv; [discriminate|].
  cbn [theme_loop] in H. destruct (tp !! i) as [theme|] eqn:Ei.
  - apply bind_ok in H as (t & Ht & H). apply bind_ok in H as (tp2 & Htp2 & H).
    pose proof (lookup_lt_Some _ _ _ Ei) as Hlen.
    assert (Hpre : forall j, j < S i ->
              tp2 !! j = (<[i:=t]> tp) !! j).
    { intros j Hj. destruct (exists_ fs (Path.join t "inherit.txt")).
      - destruct (read_lines fs _) as [lines|]; [|discriminate].
        injection Htp2 as <-. apply lookup_app_l. rewrite length_insert. lia.
      - now injection Htp2 as <-. }
    destruct (IH tp2 (S i) H) as [Hkeep Hex].
    + intros j x Hj Hx. rewrite Hpre in Hx by exact Hj.
      destruct (decide (i = j)) as [<- | Hne].
      * rewrite list_lookup_insert_eq in Hx by exact Hlen. injection Hx as <-.
        now apply get_theme_path_exists in Ht.
      * rewrite list_lookup_insert_ne in Hx by exact Hne. apply (Hinv j); [lia | exact Hx].
    + split; [|exact Hex].
      intros j Hj. rewrite Hkeep by lia. rewrite Hpre by lia.
      apply list_lookup_insert_ne. lia.
  - injection H as <-. split; [reflexivity|].
    intros j x Hx. apply (Hinv j); [|exact Hx].
    apply lookup_ge_None_1 in Ei. apply lookup_lt_Some in Hx. lia.
Qed.

(** Every theme of a resolved chain exists, and the chain ends with the
    directory the requested theme resolves to. *)
Theorem resolved_chain_exists
  (fuel : nat) (fs : filesystem) (path theme : string) (chain : list string) :
  resolve_themepaths fuel fs path theme = Ok chain ->
  (forall x, In x chain -> exists_ fs x = true) /\
  exists t rest,
    get_theme_path fs path theme = Ok t /\ chain = (rest ++ [t])%list.
Proof.
  unfold resolve_themepaths. intros H. apply bind_ok in H as (l & Hl & H).
  injection H as <-.
  destruct fuel as [|fuel]; [discriminate|]. cbn [theme_loop] in Hl.
  change ([theme] !! 0) with (Some theme) in Hl. cbn iota in Hl.
  apply bind_ok in Hl as (t & Ht & Hl). apply bind_ok in Hl as (tp2 & Htp2 & Hl).
  assert (H0 : tp2 !! 0 = Some t).
  { destruct (exists_ fs (Path.join t "inherit.txt")).
    - destruct (read_lines fs _) as [lines|]; [|discriminate]. now injection Htp2 as <-.
    - now injection Htp2 as <-. }
  destruct (theme_loop_inv _ _ _ _ _ _ Hl) as [Hkeep Hex].
  - intros j x Hj Hx. assert (j = 0) as -> by lia. rewrite H0 in Hx.
    injection Hx as <-. now apply get_theme_path_exists in Ht.
  - split.
    + intros x Hx. apply in_rev in Hx. apply list_elem_of_In in Hx.
      apply list_elem_of_lookup in Hx as (j & Hj). now apply (Hex j).
    + exists t. specialize (Hkeep 0 (Nat.lt_0_succ 0)). rewrite H0 in Hkeep.
      destruct l as [|x l]; [discriminate|]. injection Hkeep as ->.
      exists (List.rev l). split; [exact Ht | reflexivity].
Qed.

Lemma resolved_chain_exists_witness :
  (forall x, In x ["/n/themes/B"; "/n/themes/A"; "/n/themes/leaf"] ->
             exists_ Demo.fs x = true) /\
  exists t rest,
    get_theme_path Demo.fs "/n" "leaf" = Ok t /\
    ["/n/themes/B"; "/n/themes/A"; "/n/themes/leaf"] = (rest ++ [t])%list.
Proof.
  apply (resolved_chain_exists 4 Demo.fs "/n" "leaf"). reflexivity.
Defined.

Lemma theme_loop_pending (fuel : nat) (fs : filesystem) (path theme t : string)
  (lines themepaths : list string) (i j : nat) :
  get_theme_path fs path theme = Ok t ->
  exists_ fs (Path.join t "inherit.txt") = true ->
  read_lines fs (Path.join t "inherit.txt") = Some lines ->
  In theme lines ->
  i <= j -> themepaths !! j = Some theme ->
  is_ok (theme_loop fuel fs path themepaths i) = false.
Proof.
  intros Ht Hex Hlines Hin. revert themepaths i j.
  induction fuel as [|fuel IH]; intros tp i j Hij Hj; [reflexivity|].
  cbn [theme_loop]. pose proof (lookup_lt_Some _ _ _ Hj) as Hlen.
  destruct (tp !! i) as [x|] eqn:Ei; [|apply lookup_ge_None_1 in Ei; lia].
  destruct (get_theme_path fs path x) as [x'|e] eqn:Hx; [|reflexivity]. cbn [bind].
  destruct (decide (i = j)) as [-> | Hne].
  - rewrite Hj in Ei. injection Ei as <-. rewrite Ht in Hx. injection Hx as <-.
    rewrite Hex, Hlines. cbn [bind].
    apply list_elem_of_In, list_elem_of_lookup in Hin as (n & Hn).
    apply (IH _ _ (length (<[j:=t]> tp) + n)).
    + rewrite length_insert. lia.
    + rewrite lookup_app_r by lia.
      replace (length (<[j:=t]> tp) + n - length (<[j:=t]> tp)) with n by lia.
      exact Hn.
  - assert (Hj1 : (<[i:=x']> tp) !! j = Some theme)
      by (now rewrite list_lookup_insert_ne).
    destruct (exists_ fs (Path.join x' "inherit.txt")).
    + destruct (read_lines fs (Path.join x' "inherit.txt")) as [ls|];
        [|reflexivity].
      cbn [bind]. apply (IH _ _ j); [lia|].
      rewrite lookup_app_l; [exact Hj1 | rewrite length_insert; lia].
    + cbn [bind]. apply (IH _ _ j); [lia | exact Hj1].
Qed.

(** A theme whose inheritance file lists the theme itself never resolves:
    the loop keeps appending it, for every bound on the iterations. *)
Theorem self_inheriting_theme_never_resolves
  (fs : filesystem) (path theme t : string) (lines : list string) (fuel : nat) :
  get_theme_path fs path theme = Ok t ->
  exists_ fs (Path.join t "inherit.txt") = true ->
  read_lines fs (Path.join t "inherit.txt") = Some lines ->
  In theme lines ->
  is_ok (resolve_themepaths fuel fs path theme) = false.
Proof.
  intros Ht Hex Hlines Hin. unfold resolve_themepaths.
  pose proof (theme_loop_pending fuel fs path theme t lines [theme] 0 0
                Ht Hex Hlines Hin (le_n 0) eq_refl) as H.
  destruct (theme_loop fuel fs path [theme] 0); [discriminate | reflexivity].
Qed.

Lemma self_inheriting_theme_never_resolves_witness :
  is_ok (resolve_themepaths 50
           (Demo.mk_fs [] ["/n/themes/loop"; "/n/themes/loop/inherit.txt"] [] []
              [("/n/themes/loop/inherit.txt", ["loop"])])
           "/n" "loop") = false.
Proof.
  apply (self_inheriting_theme_never_resolves _ "/n" "loop" "/n/themes/loop" ["loop"]).
  - reflexivity.
  - reflexivity.
  - reflexivity.
  - now left.
Defined.

(** Inheritance is followed breadth first: when the requested theme lists
    [A] then [B], and [A] lists [C], the chain is [[C; B; A; requested]], so
    the parent of [A] ranks below [B]. *)
Theorem chain_is_breadth_first
  (fs : filesystem) (path theme A B C t a b c : string) (fuel : nat) :
  get_theme_path fs path theme = Ok t ->
  exists_ fs (Path.join t "inherit.txt") = true ->
  read_lines fs (Path.join t "inherit.txt") = Some [A; B] ->
  get_theme_path fs path A = Ok a ->
  exists_ fs (Path.join a "inherit.txt") = true ->
  read_lines fs (Path.join a "inherit.txt") = Some [C] ->
  get_theme_path fs path B = Ok b ->
  exists_ fs (Path.join b "inherit.txt") = false ->
  get_theme_path fs path C = Ok c ->
  exists_ fs (Path.join c "inherit.txt") = false ->
  5 <= fuel ->
  resolve_themepaths fuel fs path theme = Ok [c; b; a; t].
Proof.
  intros Ht Hti Htl Ha Hai Hal Hb Hbi Hc Hci Hfuel.
  destruct fuel as [|[|[|[|[|fuel]]]]]; try lia.
  unfold resolve_themepaths.
  cbn [theme_loop lookup list_lookup].
  rewrite Ht. cbn [bind]. rewrite Hti, Htl. cbn [bind insert list_insert app].
  cbn [lookup list_lookup]. rewrite Ha. cbn [bind]. rewrite Hai, Hal.
  cbn [bind insert list_insert app lookup list_lookup]. rewrite Hb. cbn [bind].
  rewrite Hbi. cbn [bind insert list_insert lookup list_lookup]. rewrite Hc.
  cbn [bind]. rewrite Hci. cbn [bind insert list_insert lookup list_lookup].
  reflexivity.
Qed.

Lemma chain_is_breadth_first_witness :
  resolve_themepaths 5
    (Demo.mk_fs []
       ["/n/themes/leaf"; "/n/themes/A"; "/n/themes/B"; "/n/themes/C";
        "/n/themes/leaf/inherit.txt"; "/n/themes/A/inherit.txt"] [] []
       [("/n/themes/leaf/inherit.txt", ["A"; "B"]);
        ("/n/themes/A/inherit.txt", ["C"])])
    "/n" "leaf" =
  Ok ["/n/themes/C"; "/n/themes/B"; "/n/themes/A"; "/n/themes/leaf"].
Proof.
  apply (chain_is_breadth_first _ "/n" "leaf" "A" "B" "C");
    first [reflexivity | lia].
Defined.

(** ** Archive names and URLs of absolute paths *)

Lemma rstrip_empty_all_sep (s : string) :
  Str.is_empty (Str.rstrip_sep s) = Str.all_sep s.
Proof.
  induction s as [|c s IH]; [reflexivity|]. cbn [Str.rstrip_sep Str.all_sep].
  rewrite <- IH. destruct (Str.is_empty (Str.rstrip_sep s)), (Str.is_sep c); reflexivity.
Qed.

Lemma split_fst (p : string) :
  fst (Path.split p) =
  if negb (Str.is_empty (fst (Str.cut_last_sep p)))
     && negb (Str.all_sep (fst (Str.cut_last_sep p)))
  then Str.rstrip_sep (fst (Str.cut_last_sep p))
  else fst (Str.cut_last_sep p).
Proof. unfold Path.split. now destruct (Str.cut_last_sep p). Qed.

(** the directory part of an absolute path is absolute *)
Lemma split_head_absolute (p : string) :
  Str.startswith "/" p = true -> Str.startswith "/" (fst (Path.split p)) = true.
Proof.
  rewrite !startswith_sep. destruct p as [|c r]; [discriminate|]. intros Hc.
  rewrite split_fst, cut_last_sep_cons, Hc.
  assert (Hh : exists h, (if negb (Str.is_empty (fst (Str.cut_last_sep r)))
                          then (String c (fst (Str.cut_last_sep r)),
                                snd (Str.cut_last_sep r))
                          else (String c "", snd (Str.cut_last_sep r)))
                         = (String c h, snd (Str.cut_last_sep r))).
  { destruct (negb (Str.is_empty (fst (Str.cut_last_sep r)))); eauto. }
  destruct Hh as (h & ->). cbn [fst Str.is_empty negb andb].
  destruct (Str.all_sep (String c h)) eqn:Ha; cbn [negb]; [exact Hc|].
  pose proof (rstrip_empty_all_sep (String c h)) as He. rewrite Ha in He.
  cbn [Str.rstrip_sep] in *.
  destruct (Str.is_empty (Str.rstrip_sep h) && Str.is_sep c); [discriminate | exact Hc].
Qed.

Lemma startswith_nonempty (p : string) : Str.startswith "/" p = true -> p <> "".
Proof. intros H ->. discriminate. Qed.

(** On a path that starts with a slash the recursion of [cleanpath] never
    reaches the empty string: it does not return, whatever the bound. *)
Theorem cleanpath_absolute_diverges (fuel : nat) (p : string) :
  Str.startswith "/" p = true -> cleanpath fuel p = Err OutOfFuel.
Proof.
  revert p. induction fuel as [|fuel IH]; intros p Hp; [reflexivity|].
  cbn [cleanpath].
  destruct (String.eqb_spec p "") as [E | _]; [now apply startswith_nonempty in Hp|].
  pose proof (split_head_absolute p Hp) as Hh.
  destruct (Path.split p) as [h t]. cbn [fst] in Hh. now rewrite (IH h Hh).
Qed.

Lemma cleanpath_absolute_diverges_witness :
  cleanpath 100 "/srv/pics/a.png" = Err OutOfFuel.
Proof. apply cleanpath_absolute_diverges. reflexivity. Defined.

Lemma url_loop_absolute (fuel : nat) (head tail : string) (bits : list string) :
  Str.startswith "/" head = true -> url_loop fuel head tail bits = Err OutOfFuel.
Proof.
  revert head tail bits. induction fuel as [|fuel IH]; intros h t bits Hh; [reflexivity|].
  cbn [url_loop].
  destruct (String.eqb_spec h "") as [E | _]; [now apply startswith_nonempty in Hh|].
  cbn [negb]. pose proof (split_head_absolute h Hh) as Hh'.
  destruct (Path.split h) as [h' t']. now apply IH.
Qed.

Lemma normpath_absolute (k : string) :
  Str.startswith "/" k = true -> Str.startswith "/" (Path.normpath k) = true.
Proof.
  intros Hk. unfold Path.normpath. rewrite Hk.
  destruct k as [|c r]; [discriminate|]. cbn [Str.is_empty].
  destruct (Str.startswith "//" (String c r) && negb (Str.startswith "///" (String c r)));
    push_app; cbn [Str.is_empty]; rewrite startswith_sep; reflexivity.
Qed.

(** [to_relative_url] returns the normalised path of a key that does not
    start with a slash, and on a key that starts with a slash its loop
    never ends, whatever the bound. *)
Theorem to_relative_url_total_on_relative_keys (fuel : nat) (k : string) :
  (Str.startswith "/" k = false -> List.length (Str.split_sep k) < fuel ->
   to_relative_url fuel k = Ok (Path.normpath k))
  /\ (Str.startswith "/" k = true -> to_relative_url fuel k = Err OutOfFuel).
Proof.
  split; [apply to_relative_url_relative|].
  intros Hk. unfold to_relative_url.
  pose proof (split_head_absolute _ (normpath_absolute k Hk)) as Hh.
  destruct (Path.split (Path.normpath k)) as [h t]. cbn [fst] in Hh.
  now rewrite url_loop_absolute.
Qed.

Lemma to_relative_url_total_on_relative_keys_witness :
  to_relative_url 7 "./css/../scripts//numbas.js" = Ok "scripts/numbas.js" /\
  to_relative_url 100 "/srv/pics/a.png" = Err OutOfFuel.
Proof.
  split.
  - apply (proj1 (to_relative_url_total_on_relative_keys 7 "./css/../scripts//numbas.js"));
      [reflexivity | cbn; lia].
  - apply (proj2 (to_relative_url_total_on_relative_keys 100 "/srv/pics/a.png")).
    reflexivity.
Defined.

Lemma split_sep_free (x : string) : slash_free x = true -> Str.split_sep x = [x].
Proof.
  induction x as [|c x IH]; [reflexivity|]. cbn [slash_free Str.split_sep].
  intros H. apply andb_true_iff in H as [Hc Hx]. apply negb_true_iff in Hc.
  now rewrite Hc, (IH Hx).
Qed.

Lemma split_sep_app (x s : string) :
  slash_free x = true -> Str.split_sep (x ++ String "/" s) = x :: Str.split_sep s.
Proof.
  induction x as [|c x IH]; intros H; push_app; [reflexivity|].
  cbn [slash_free] in H. apply andb_true_iff in H as [Hc Hx].
  apply negb_true_iff in Hc. cbn [Str.split_sep]. now rewrite Hc, (IH Hx).
Qed.

Lemma split_sep_join (l : list string) :
  all_slash_free l -> l <> [] -> Str.split_sep (Str.join "/" l) = l.
Proof.
  unfold all_slash_free. induction l as [|x l IH]; intros Hl Hne; [contradiction|].
  inversion Hl as [|? ? Hx Hl']; subst. destruct l as [|y l].
  - now apply split_sep_free.
  - rewrite join_cons2. change ("/" ++ Str.join "/" (y :: l)) with
      (String "/" (Str.join "/" (y :: l))).
    rewrite split_sep_app by exact Hx. now rewrite IH.
Qed.

Lemma proper_idem (l : list string) : proper (proper l) = proper l.
Proof.
  induction l as [|x l IH]; [reflexivity|]. rewrite proper_cons.
  destruct (negb (String.eqb x "" || String.eqb x ".")) eqn:E; [|exact IH].
  now rewrite proper_cons, E, IH.
Qed.

Lemma proper_length (l : list string) : List.length (proper l) <= List.length l.
Proof.
  induction l as [|x l IH]; [reflexivity|]. rewrite proper_cons.
  destruct (negb _); cbn [List.length]; lia.
Qed.

(** An archive entry name is a fixed point of [cleanpath]: cleaning the
    name of a relative path that does not end in a slash gives the name
    again. *)
Theorem cleanpath_idempotent (fuel : nat) (p : string) :
  Str.startswith "/" p = false -> Str.endswith "/" p = false ->
  List.length (Str.split_sep p) < fuel ->
  exists name, cleanpath fuel p = Ok name /\ cleanpath fuel name = Ok name.
Proof.
  intros Hs He Hlen. exists (Str.join "/" (proper_segments p)).
  split; [now apply cleanpath_relative|].
  pose proof (proper_all_proper _ (split_sep_slash_free p)) as Hp.
  unfold proper_segments in *.
  destruct (proper (Str.split_sep p)) as [|x l] eqn:E.
  - destruct fuel; [lia | reflexivity].
  - rewrite <- E in *. assert (Hne : proper (Str.split_sep p) <> [])
      by (rewrite E; discriminate).
    clear E. destruct (join_proper_last _ Hp Hne) as [Hemp Hlast].
    pose proof (split_sep_join _ (all_proper_slash_free _ Hp) Hne) as Hsplit.
    rewrite cleanpath_relative.
    + unfold proper_segments. now rewrite Hsplit, proper_idem.
    + rewrite startswith_sep.
      destruct (Str.join "/" (proper (Str.split_sep p))) as [|c r] eqn:Ej;
        [discriminate|].
      destruct (all_proper_hd _ Hp) as [E0 | Hhd]; [contradiction|].
      destruct (proper (Str.split_sep p)) as [|x0 l0]; [contradiction|].
      cbn [List.hd] in Hhd. destruct x0 as [|c0 x0]; [contradiction|].
      inversion Hp as [|? ? [Hsf _] _]; subst. cbn [slash_free] in Hsf.
      apply andb_true_iff in Hsf as [Hc0 _]. apply negb_true_iff in Hc0.
      destruct (join_hd_cons c0 x0 l0) as (r0 & Er). rewrite Er in Ej.
      injection Ej as <- _. exact Hc0.
    + now rewrite endswith_sep.
    + rewrite Hsplit. pose proof (proper_length (Str.split_sep p)). lia.
Qed.

Lemma cleanpath_idempotent_witness :
  exists name, cleanpath 7 "./a//b/./c.js" = Ok name /\ cleanpath 7 name = Ok name.
Proof.
  apply cleanpath_idempotent; first [reflexivity | cbn; lia].
Defined.

(** ** The writers *)

(** The archive gets one member per table entry, in table order, and
    members are not merged by name: two entries whose keys differ only in
    empty and [.] components, such as [./resources/a.png] from a theme and
    [resources/a.png] from a resource, give two members with the same
    name. *)
Theorem zip_keeps_entries_with_equal_names
  (fuel : nat) (fs : filesystem) (files : table) (entries : list (string * string))
  (i j : nat) (k1 k2 : string) (s1 s2 : source) :
  compileToZip fuel fs files = Ok entries ->
  files !! i = Some (k1, s1) -> files !! j = Some (k2, s2) ->
  Str.startswith "/" k1 = false -> Str.endswith "/" k1 = false ->
  Str.startswith "/" k2 = false -> Str.endswith "/" k2 = false ->
  List.length (Str.split_sep k1) < fuel -> List.length (Str.split_sep k2) < fuel ->
  proper_segments k1 = proper_segments k2 ->
  List.length entries = List.length files /\
  exists d1 d2,
    read_member fs s1 = Ok d1 /\ read_member fs s2 = Ok d2 /\
    entries !! i = Some (Str.join "/" (proper_segments k1), d1) /\
    entries !! j = Some (Str.join "/" (proper_segments k1), d2).
Proof.
  intros H Hi Hj Hs1 He1 Hs2 He2 Hl1 Hl2 Hseg. unfold compileToZip in H.
  apply mapM_Forall2 in H. split; [symmetry; exact (Forall2_length _ _ _ H)|].
  destruct (Forall2_lookup_l _ _ _ _ _ H Hi) as ([n1 d1] & Hn1 & Hz1).
  destruct (Forall2_lookup_l _ _ _ _ _ H Hj) as ([n2 d2] & Hn2 & Hz2).
  unfold zip_entry in Hz1, Hz2. cbn [fst snd] in Hz1, Hz2.
  rewrite cleanpath_relative in Hz1 by assumption.
  rewrite cleanpath_relative in Hz2 by assumption. cbn [bind] in Hz1, Hz2.
  apply bind_ok in Hz1 as (x1 & Hr1 & E1). injection E1 as <- <-.
  apply bind_ok in Hz2 as (x2 & Hr2 & E2). injection E2 as <- <-.
  exists x1, x2. rewrite <- Hseg in Hn2. repeat split; assumption.
Qed.

Lemma zip_keeps_entries_with_equal_names_witness :
  List.length [("resources/a.png", "theme"); ("resources/a.png", "exam")] = 2 /\
  exists d1 d2,
    read_member Demo.fs (InMemory "theme") = Ok d1 /\
    read_member Demo.fs (InMemory "exam") = Ok d2 /\
    [("resources/a.png", "theme"); ("resources/a.png", "exam")] !! 0 =
      Some ("resources/a.png", d1) /\
    [("resources/a.png", "theme"); ("resources/a.png", "exam")] !! 1 =
      Some ("resources/a.png", d2).
Proof.
  apply (zip_keeps_entries_with_equal_names 5 Demo.fs
           [("./resources/a.png", InMemory "theme");
            ("resources/a.png", InMemory "exam")]
           _ 0 1 "./resources/a.png" "resources/a.png"
           (InMemory "theme") (InMemory "exam"));
    first [reflexivity | cbn; lia].
Defined.

Lemma is_dir_nonempty (d : disk) (p : string) :
  Disk.is_dir d p = true -> p <> ""%string.
Proof. intros H ->. discriminate H. Qed.

(** a destination whose directory is on the disk is not the empty path,
    and that directory is its parent *)
Lemma parent_on_disk (d : disk) (dst : string) :
  Disk.is_dir d (fst (Path.split (Disk.key dst))) = true ->
  String.eqb dst "" = false /\
  Disk.parent dst = fst (Path.split (Disk.key dst)).
Proof.
  intros H. split.
  - destruct (String.eqb_spec dst "") as [-> | _]; [discriminate H | reflexivity].
  - unfold Disk.parent. cbv zeta.
    destruct (String.eqb_spec (fst (Path.split (Disk.key dst))) "") as [E | _];
      [|reflexivity].
    rewrite E in H. discriminate H.
Qed.

Lemma try_mkdir_frame (d : disk) (p : string) :
  writes (Disk.try_mkdir d p) = writes d /\
  now (Disk.try_mkdir d p) = now d /\
  (forall q n, nodes d !! q = Some n -> nodes (Disk.try_mkdir d p) !! q = Some n) /\
  (forall q n, nodes (Disk.try_mkdir d p) !! q = Some n ->
     nodes d !! q = Some n \/ exists t, n = Dir t).
Proof.
  unfold Disk.try_mkdir, Disk.mkdir.
  destruct (String.eqb p "") eqn:Ep; [now repeat split; eauto|].
  destruct (Disk.exists_ d p) eqn:Ex; [now repeat split; eauto|].
  unfold Disk.exists_, Disk.lookup in Ex. rewrite Ep in Ex.
  destruct (nodes d !! Disk.key p) as [x|] eqn:Ex'; [discriminate Ex|].
  destruct (Disk.is_dir d _); [|now repeat split; eauto].
  cbn [Disk.with_nodes writes now nodes]. repeat split.
  - intros q n Hq. destruct (decide (Disk.key p = q)) as [<- | Hne]; [congruence|].
    now rewrite lookup_insert_ne.
  - intros q n Hq. destruct (decide (Disk.key p = q)) as [<- | Hne].
    + rewrite lookup_insert_eq in Hq. injection Hq as <-. eauto.
    + rewrite lookup_insert_ne in Hq by exact Hne. now left.
Qed.

Lemma makepath_frame (fuel : nat) (d d' : disk) (path : string) :
  makepath fuel d path = Ok d' ->
  writes d' = writes d /\
  (forall q n, nodes d !! q = Some n -> nodes d' !! q = Some n) /\
  (forall q n, nodes d' !! q = Some n -> nodes d !! q = Some n \/ exists t, n = Dir t).
Proof.
  revert d d' path. induction fuel as [|fuel IH]; intros d d' path H; [discriminate|].
  cbn [makepath] in H. destruct (Disk.exists_ d (fst (Path.split path))); cbn [negb] in H.
  - injection H as <-. repeat split; eauto.
  - apply bind_ok in H as (d1 & H1 & H). injection H as <-.
    destruct (IH _ _ _ H1) as (Hw & Hkeep & Hnew).
    destruct (try_mkdir_frame d1 (fst (Path.split path))) as (Hw' & _ & Hkeep' & Hnew').
    split; [congruence|]. split.
    + intros q n Hq. apply Hkeep', Hkeep, Hq.
    + intros q n Hq. apply Hnew' in Hq as [Hq | Hq]; [now apply Hnew | now right].
Qed.

(** [makepath] only adds directories: it writes no file, and every node
    of the disk is still there, unchanged, when it returns. *)
Theorem makepath_only_adds_directories (fuel : nat) (d d' : disk) (path : string) :
  makepath fuel d path = Ok d' ->
  writes d' = writes d /\
  (forall q n, nodes d !! q = Some n -> nodes d' !! q = Some n) /\
  (forall q n, nodes d' !! q = Some n -> nodes d !! q = Some n \/ exists t, n = Dir t).
Proof.
  revert d d' path. induction fuel as [|fuel IH]; intros d d' path H; [discriminate|].
  cbn [makepath] in H.
  destruct (Disk.exists_ d (fst (Path.split path))); cbn [negb] in H.
  - injection H as <-. split; [reflexivity|]. split; [tauto | intros q n Hq; now left].
  - apply bind_ok in H as (d1 & H1 & H). injection H as <-.
    destruct (IH _ _ _ H1) as (Hw & Hkeep & Hnew).
    destruct (try_mkdir_frame d1 (fst (Path.split path))) as (Hw' & _ & Hkeep' & Hnew').
    split; [now rewrite Hw'|]. split.
    + intros q n Hq. now apply Hkeep', Hkeep.
    + intros q n Hq. apply Hnew' in Hq as [Hq | Hq]; [now apply Hnew | now right].
Qed.

Lemma makepath_only_adds_directories_witness :
  writes (Disk.try_mkdir Demo.built_disk "/out/css") = writes Demo.built_disk /\
  (forall q n, nodes Demo.built_disk !! q = Some n ->
     nodes (Disk.try_mkdir Demo.built_disk "/out/css") !! q = Some n) /\
  (forall q n, nodes (Disk.try_mkdir Demo.built_disk "/out/css") !! q = Some n ->
     nodes Demo.built_disk !! q = Some n \/ exists t, n = Dir t).
Proof.
  apply (makepath_only_adds_directories 2 Demo.built_disk _ "/out/css/main.css").
  vm_compute. reflexivity.
Defined.

(** A file-backed entry is copied when the build is a clean build, the
    destination is missing, or the source is strictly newer: the
    destination then holds the source's content, stamped with the current
    time, and the copy is logged. *)
Theorem copies_when_needed
  (fuel : nat) (o : options) (d : disk) (k src content : string) (ts : Z) :
  let dst := Path.join (opt_output o) k in
  Disk.exists_ d (fst (Path.split dst)) = true ->
  Disk.is_dir d (fst (Path.split (Disk.key dst))) = true ->
  Disk.is_dir d dst = false ->
  Disk.lookup d src = Some (File content ts) ->
  (opt_action o = Clean \/ Disk.exists_ d dst = false \/
   exists td, Disk.getmtime d dst = Ok td /\ (td < ts)%Z) ->
  exists d',
    write_entry (S fuel) o d (k, OnDisk src) = Ok d' /\
    Disk.lookup d' dst = Some (File content (now d)) /\
    writes d' = (writes d ++ [dst])%list.
Proof.
  cbv zeta. intros Hdir Hpar Hnd Hsrc Hcond.
  unfold write_entry. cbn [fst snd makepath]. rewrite Hdir. cbn [negb bind].
  assert (Hc : must_copy (opt_action o) d src (Path.join (opt_output o) k) = Ok true).
  { unfold must_copy. destruct Hcond as [-> | [Hmiss | (td & Htd & Hlt)]]; [reflexivity| |].
    - destruct (opt_action o); [|reflexivity]. now rewrite Hmiss.
    - destruct (opt_action o); [|reflexivity].
      destruct (Disk.exists_ d (Path.join (opt_output o) k)); [|reflexivity].
      cbn [negb]. unfold Disk.getmtime at 1. rewrite Hsrc, Htd. cbn [bind].
      apply Z.ltb_lt in Hlt. now rewrite Hlt. }
  destruct (parent_on_disk _ _ Hpar) as (Hne & Hp).
  rewrite Hc. cbn [bind]. unfold Disk.copyfile, Disk.write.
  rewrite Hsrc, Hne, Hnd, Hp, Hpar.
  eexists. split; [reflexivity|]. split; [|reflexivity].
  unfold Disk.lookup. rewrite Hne. cbn [nodes]. apply lookup_insert_eq.
Qed.

Lemma copies_when_needed_witness :
  exists d',
    write_entry 1 Demo.dir_opts Demo.built_disk
      ("./scripts/jme.js", OnDisk "/n/runtime/scripts/jme.js") = Ok d' /\
    Disk.lookup d' "/out/./scripts/jme.js" = Some (File "jme2();" 9) /\
    writes d' = ["/out/./scripts/jme.js"].
Proof.
  apply (copies_when_needed 0 Demo.dir_opts Demo.built_disk "./scripts/jme.js"
           "/n/runtime/scripts/jme.js" "jme2();" 6).
  - vm_compute. reflexivity.
  - vm_compute. reflexivity.
  - vm_compute. reflexivity.
  - vm_compute. reflexivity.
  - right. right. exists 3%Z. split; [vm_compute; reflexivity | lia].
Defined.

(** A generated entry is written on every build, also on an update build
    whose destination is newer than every source: there is no timestamp
    test for it. *)
Theorem generated_entries_always_written
  (fuel : nat) (o : options) (d : disk) (k text : string) :
  let dst := Path.join (opt_output o) k in
  Disk.exists_ d (fst (Path.split dst)) = true ->
  Disk.is_dir d (fst (Path.split (Disk.key dst))) = true ->
  Disk.is_dir d dst = false ->
  exists d',
    write_entry (S fuel) o d (k, InMemory text) = Ok d' /\
    Disk.lookup d' dst = Some (File text (now d)) /\
    writes d' = (writes d ++ [dst])%list.
Proof.
  cbv zeta. intros Hdir Hpar Hnd.
  unfold write_entry. cbn [fst snd makepath]. rewrite Hdir. cbn [negb bind].
  destruct (parent_on_disk _ _ Hpar) as (Hne & Hp).
  unfold Disk.write. rewrite Hne, Hnd, Hp, Hpar.
  eexists. split; [reflexivity|]. split; [|reflexivity].
  unfold Disk.lookup. rewrite Hne. cbn [nodes]. apply lookup_insert_eq.
Qed.

Lemma generated_entries_always_written_witness :
  exists d',
    write_entry 1 Demo.dir_opts Demo.built_disk ("./index.html", InMemory "<new>")
      = Ok d' /\
    Disk.lookup d' "/out/./index.html" = Some (File "<new>" 9) /\
    writes d' = ["/out/./index.html"].
Proof.
  apply (generated_entries_always_written 0 Demo.dir_opts Demo.built_disk
           "./index.html" "<new>"); vm_compute; reflexivity.
Defined.

(** ** What [collectFiles] collects *)

Lemma set_in {V : Type} (k k' : string) (v v' : V) (d : Dict.t V) :
  In (k', v') (Dict.set k v d) -> In (k', v') d \/ (k', v') = (k, v).
Proof.
  induction d as [|[k0 v0] d IH]; cbn [Dict.set In].
  - intros [E | []]. right. now symmetry.
  - destruct (String.eqb_spec k0 k) as [-> | Hne]; cbn [In].
    + intros [E | H]; [right; now symmetry | left; now right].
    + intros [E | H]; [left; now left|]. apply IH in H as [H | H]; [left; now right | now right].
Qed.

Lemma update_in {V : Type} (k : string) (v : V) (l : list (string * V)) (d : Dict.t V) :
  In (k, v) (Dict.update d l) -> In (k, v) d \/ In (k, v) l.
Proof.
  unfold Dict.update. revert d. induction l as [|[k0 v0] l IH]; intros d H; [now left|].
  cbn [fold_left fst snd] in H. apply IH in H as [H | H]; [|right; now right].
  apply set_in in H as [H | H]; [now left | right; left; now symmetry].
Qed.

Lemma last_is_sep_decomp (s : string) :
  last_is_sep s = true -> exists x, s = x ++ "/".
Proof.
  induction s as [|c s IH]; [discriminate|]. destruct s as [|c2 s].
  - cbn [last_is_sep]. intros H. apply is_sep_eq in H as ->. now exists "".
  - intros H. destruct (IH H) as (x & Hx). exists (String c x).
    rewrite app_cons. now rewrite <- Hx.
Qed.

(** the base name of a joined path is the name that was joined *)
Lemma split_join_name (a y : string) :
  slash_free y = true -> snd (Path.split (Path.join a y)) = y.
Proof.
  intros Hy.
  assert (Hsnd : forall p, snd (Path.split p) = snd (Str.cut_last_sep p))
    by (intros p; unfold Path.split; now destruct (Str.cut_last_sep p)).
  rewrite Hsnd. unfold Path.join. rewrite (slash_free_startswith _ Hy).
  destruct a as [|c a].
  - cbn [Str.is_empty orb]. rewrite app_nil_s. now rewrite cut_last_sep_free.
  - cbn [Str.is_empty orb]. rewrite endswith_sep.
    destruct (last_is_sep (String c a)) eqn:El.
    + apply last_is_sep_decomp in El as (x & ->). rewrite app_assoc_s.
      change ("/" ++ y) with (String "/" y). now rewrite cut_last_sep_app.
    + change ("/" ++ y) with (String "/" y). now rewrite cut_last_sep_app.
Qed.

(** Every entry that the overlay loop puts in the table is file-backed,
    and the base name of its file passes [realFile]: editor backups and
    swap files of the source trees are never collected. *)
Theorem collected_files_are_real
  (fs : filesystem) (o : options) (dirs : list overlay) (k : string) (v : source) :
  plain_names fs ->
  In (k, v) (overlay_table fs o dirs) ->
  exists p, v = OnDisk p /\ realFile (snd (Path.split p)) = true.
Proof.
  intros Hplain Hin. unfold overlay_table in Hin.
  apply update_in in Hin as [[] | Hin].
  apply in_flat_map in Hin as (d & _ & Hin). unfold overlay_entries in Hin.
  apply in_flat_map in Hin as ([x names] & Hx & Hin).
  apply in_map_iff in Hin as (y & E & Hy). apply filter_In in Hy as [Hy Hreal].
  cbn [fst snd] in *. injection E as _ <-.
  eexists. split; [reflexivity|].
  rewrite split_join_name; [exact Hreal|]. exact (Hplain _ _ _ _ _ Hx Hy).
Qed.

Lemma demo_plain_names : plain_names Demo.fs.
Proof.
  intros fl top d names y Hin Hy.
  destruct (demo_wf_walk fl top d names Hin) as [_ Hn].
  cbn [walk Demo.fs Demo.mk_fs Demo.assoc] in Hin.
  repeat match type of Hin with
         | context [String.eqb ?a top] =>
             destruct (String.eqb_spec a top) as [<- | _]
         end;
    cbv [Demo.runtime_walk] in Hin; cbn [In] in Hin;
    repeat match type of Hin with
           | _ \/ _ => destruct Hin as [Hin | Hin]
           | False => contradiction
           | (_, _) = (_, _) => injection Hin as <- <-
           end;
    cbn [In] in Hy;
    repeat (destruct Hy as [<- | Hy]; [reflexivity|]); contradiction.
Defined.

Lemma collected_files_are_real_witness :
  exists p,
    OnDisk "/n/runtime/scripts/numbas.js" = OnDisk p /\
    realFile (snd (Path.split p)) = true.
Proof.
  apply (collected_files_are_real Demo.fs Demo.opts initial_default_dirs
           "./scripts/numbas.js").
  - exact demo_plain_names.
  - vm_compute. tauto.
Defined.

Example backup_file_skipped :
  realFile "numbas.js~" = false /\ realFile ".numbas.js.swp" = false /\
  realFile ".swp" = false /\ realFile "swp" = true /\
  Dict.get "./scripts/numbas.js~" (fst (collectFiles Demo.fs Demo.opts initial_default_dirs))
  = None.
Proof. vm_compute. repeat split. Qed.

(** A file-valued resource always reaches the table: the key
    [resources/<name>] holds the path of a file-valued resource,
    whatever the overlays have put under that key. *)
Theorem file_resource_overrides_overlays
  (fs : filesystem) (o : options) (dirs : list overlay) (name path : string) :
  In (name, path) (List.map resource_pair (opt_resources o)) ->
  isdir fs path = false ->
  exists path',
    In (name, path') (List.map resource_pair (opt_resources o)) /\
    isdir fs path' = false /\
    Dict.get (Path.join "resources" name) (fst (collectFiles fs o dirs)) =
    Some (OnDisk (Path.join (opt_path o) path')).
Proof.
  intros Hin Hdir. unfold collectFiles. cbn [fst]. rewrite get_update.
  assert (He : In (Path.join "resources" name, OnDisk (Path.join (opt_path o) path))
                 (resource_file_entries fs o)).
  { unfold resource_file_entries. apply in_map_iff. exists (name, path).
    split; [reflexivity|]. apply filter_In. split; [exact Hin|].
    cbn [snd]. now rewrite Hdir. }
  destruct (lookup_last_some _ _ _ He) as (v' & Hv'). rewrite Hv'.
  apply lookup_last_in in Hv'. unfold resource_file_entries in Hv'.
  apply in_map_iff in Hv' as ([n' p'] & E & Hnp). cbn [fst snd] in E.
  apply filter_In in Hnp as [Hnp Hd']. cbn [snd] in Hd'.
  apply negb_true_iff in Hd'. injection E as Ek <-.
  exists p'. split; [|split; [exact Hd' | reflexivity]].
  assert (n' = name) as ->; [|exact Hnp].
  unfold Path.join in Ek.
  destruct (Str.startswith "/" n') eqn:E1, (Str.startswith "/" name) eqn:E2.
  - exact Ek.
  - subst n'. cbn in E1. change ("resources" ++ "/" ++ name) with
      (String "r" ("esources" ++ "/" ++ name)) in E1. discriminate.
  - subst name. change ("resources" ++ "/" ++ n') with
      (String "r" ("esources" ++ "/" ++ n')) in E2. discriminate.
  - cbn [Str.is_empty orb] in Ek.
    change (Str.endswith "/" "resources") with false in Ek. cbn iota in Ek.
    change ("resources" ++ "/" ++ n') with
      (String "r" (String "e" (String "s" (String "o" (String "u" (String "r"
        (String "c" (String "e" (String "s" (String "/" n')))))))))) in Ek.
    change ("resources" ++ "/" ++ name) with
      (String "r" (String "e" (String "s" (String "o" (String "u" (String "r"
        (String "c" (String "e" (String "s" (String "/" name)))))))))) in Ek.
    now injection Ek.
Qed.

Lemma file_resource_overrides_overlays_witness :
  exists path',
    In ("a.png", path') [("a.png", "pics/a.png")] /\
    isdir Demo.fs path' = false /\
    Dict.get "resources/a.png"
      (fst (collectFiles Demo.fs
              (set_exam Demo.opts (Demo.the_exam [ResPair "a.png" "pics/a.png"]) "")
              initial_default_dirs)) =
    Some (OnDisk (Path.join "/n" path')).
Proof.
  apply (file_resource_overrides_overlays Demo.fs
           (set_exam Demo.opts (Demo.the_exam [ResPair "a.png" "pics/a.png"]) "")
           initial_default_dirs "a.png" "pics/a.png").
  - left. reflexivity.
  - reflexivity.
Defined.

(** ** Namespace prefixes *)

Example fixtag_examples :
  fixtag (register_namespaces []) "{http://www.imsglobal.org/xsd/imscp_v1p1}manifest" [] =
    Some ("manifest", Some ("xmlns", "http://www.imsglobal.org/xsd/imscp_v1p1"),
          [("http://www.imsglobal.org/xsd/imscp_v1p1", None)]) /\
  fixtag (register_namespaces []) "{http://www.adlnet.org/xsd/adlcp_v1p3}data" [] =
    Some ("adlcp:data", Some ("xmlns:adlcp", "http://www.adlnet.org/xsd/adlcp_v1p3"),
          [("http://www.adlnet.org/xsd/adlcp_v1p3", Some "adlcp")]) /\
  fixtag (register_namespaces []) "{urn:x}a" [("urn:y", Some "ns0")] =
    Some ("ns1:a", Some ("xmlns:ns1", "urn:x"),
          [("urn:y", Some "ns0"); ("urn:x", Some "ns1")]) /\
  fixtag (register_namespaces []) "file" [] = None.
Proof. vm_compute. repeat split. Qed.

Lemma cut_first_app (c : ascii) (a b : string) :
  cut_first c a = None -> cut_first c (a ++ String c b) = Some (a, b).
Proof.
  induction a as [|x a IH]; intros H; push_app; cbn [cut_first] in *.
  - now rewrite Ascii.eqb_refl.
  - destruct (Ascii.eqb x c); [discriminate|].
    destruct (cut_first c a) as [[u w]|]; [discriminate|]. now rewrite IH.
Qed.

(** A namespace is declared once: after a call of [fixtag] for a tag of a
    namespace, a call for any tag of the same namespace gives the same
    prefix, asks for no declaration and leaves the dictionary as it is. *)
Theorem fixtag_declares_namespace_once
  (namespace_map nss nss' : Dict.t (option string))
  (open1 : ascii) (uri tag1 qtag : string) (xmlns : option (string * string)) :
  cut_first "}" uri = None ->
  fixtag namespace_map (String open1 (uri ++ String "}" tag1)) nss
    = Some (qtag, xmlns, nss') ->
  exists prefix,
    qtag = prefix ++ tag1 /\
    forall (open2 : ascii) (tag2 : string),
      fixtag namespace_map (String open2 (uri ++ String "}" tag2)) nss'
      = Some (prefix ++ tag2, None, nss').
Proof.
  intros Huri H. unfold fixtag in *. cbn [Str.drop] in *.
  rewrite cut_first_app in H by exact Huri.
  destruct (Dict.get uri nss) as [prefix|] eqn:Eg.
  - injection H as <- <- <-.
    exists (match prefix with Some p => p ++ ":" | None => "" end).
    split; [reflexivity|]. intros open2 tag2.
    rewrite cut_first_app by exact Huri. now rewrite Eg.
  - injection H as <- _ <-.
    eexists. split; [reflexivity|]. intros open2 tag2.
    rewrite cut_first_app by exact Huri.
    rewrite get_set, String.eqb_refl. reflexivity.
Qed.

Lemma fixtag_declares_namespace_once_witness :
  exists prefix,
    "adlcp:data" = prefix ++ "data" /\
    forall (open2 : ascii) (tag2 : string),
      fixtag (register_namespaces [])
        (String open2 ("http://www.adlnet.org/xsd/adlcp_v1p3" ++ String "}" tag2))
        [("http://www.adlnet.org/xsd/adlcp_v1p3", Some "adlcp")]
      = Some (prefix ++ tag2, None,
              [("http://www.adlnet.org/xsd/adlcp_v1p3", Some "adlcp")]).
Proof.
  apply (fixtag_declares_namespace_once (register_namespaces []) []
           [("http://www.adlnet.org/xsd/adlcp_v1p3", Some "adlcp")]
           "{" "http://www.adlnet.org/xsd/adlcp_v1p3" "data" "adlcp:data"
           (Some ("xmlns:adlcp", "http://www.adlnet.org/xsd/adlcp_v1p3"))).
  - reflexivity.
  - vm_compute. reflexivity.
Defined.

Lemma register_default_namespace (namespace_map : Dict.t (option string)) :
  Dict.get "http://www.imsglobal.org/xsd/imscp_v1p1" (register_namespaces namespace_map)
  = Some None.
Proof. unfold register_namespaces. rewrite get_update. reflexivity. Qed.

(** The manifest's own namespace is registered with no prefix, whatever
    [etree] had registered for it: the first tag of that namespace comes out
    bare, with the declaration [xmlns], and the namespace is recorded as
    having no prefix. *)
Theorem manifest_namespace_has_no_prefix
  (namespace_map nss : Dict.t (option string)) (open : ascii) (tag : string) :
  Dict.get "http://www.imsglobal.org/xsd/imscp_v1p1" nss = None ->
  fixtag (register_namespaces namespace_map)
    (String open ("http://www.imsglobal.org/xsd/imscp_v1p1" ++ String "}" tag)) nss =
  Some (tag, Some ("xmlns", "http://www.imsglobal.org/xsd/imscp_v1p1"),
        Dict.set "http://www.imsglobal.org/xsd/imscp_v1p1" None nss).
Proof.
  intros Hn. unfold fixtag. cbn [Str.drop].
  rewrite cut_first_app by reflexivity.
  rewrite Hn, register_default_namespace. reflexivity.
Qed.

Lemma manifest_namespace_has_no_prefix_witness :
  fixtag (register_namespaces [("http://www.imsglobal.org/xsd/imscp_v1p1", Some "ims")])
    "{http://www.imsglobal.org/xsd/imscp_v1p1}resource" [] =
  Some ("resource", Some ("xmlns", "http://www.imsglobal.org/xsd/imscp_v1p1"),
        [("http://www.imsglobal.org/xsd/imscp_v1p1", None)]).
Proof.
  apply (manifest_namespace_has_no_prefix
           [("http://www.imsglobal.org/xsd/imscp_v1p1", Some "ims")] [] "{" "resource").
  reflexivity.
Defined.

(** ** Stale files in the output directory *)

Lemma write_nodes (d d' : disk) (dst content : string) :
  Disk.write d dst content = Ok d' ->
  nodes d' = <[Disk.key dst := File content (now d)]> (nodes d).
Proof.
  unfold Disk.write. destruct (String.eqb dst ""); [discriminate|].
  destruct (Disk.is_dir d dst); [discriminate|].
  destruct (Disk.is_dir d _); [|discriminate]. intros H. now injection H as <-.
Qed.

Lemma insert_frame (m : gmap string node) (k q : string) (x n : node) :
  (m !! q = Some n -> q <> k -> <[k := x]> m !! q = Some n) /\
  (<[k := x]> m !! q = Some n -> m !! q = Some n \/ q = k).
Proof.
  split.
  - intros Hq Hne. now rewrite lookup_insert_ne by congruence.
  - intros Hq. destruct (decide (k = q)) as [-> | Hne]; [now right|].
    rewrite lookup_insert_ne in Hq by exact Hne. now left.
Qed.

(** the loop body touches the node of its destination and adds
    directories, nothing else *)
Lemma write_entry_frame (fuel : nat) (o : options) (d d' : disk) (kv : string * source) :
  write_entry fuel o d kv = Ok d' ->
  (forall q n, nodes d !! q = Some n ->
     q <> Disk.key (Path.join (opt_output o) (fst kv)) -> nodes d' !! q = Some n) /\
  (forall q n, nodes d' !! q = Some n ->
     nodes d !! q = Some n \/ (exists t, n = Dir t) \/
     q = Disk.key (Path.join (opt_output o) (fst kv))).
Proof.
  unfold write_entry. intros H. apply bind_ok in H as (d1 & Hmk & H).
  destruct (makepath_frame _ _ _ _ Hmk) as (_ & Hkeep & Hnew).
  assert (Hw : d' = d1 \/ exists c, Disk.write d1 (Path.join (opt_output o) (fst kv)) c = Ok d').
  { destruct (snd kv) as [src|text]; [|right; eauto].
    apply bind_ok in H as (c & _ & H). destruct c; [|left; now injection H].
    unfold Disk.copyfile in H. destruct (Disk.lookup d1 src) as [[content t|t]|];
      try discriminate. right. eauto. }
  destruct Hw as [-> | (c & Hw)].
  - split; [intros q n Hq _; now apply Hkeep|].
    intros q n Hq. apply Hnew in Hq as [Hq | Hq]; [now left | right; now left].
  - apply write_nodes in Hw. rewrite Hw. split.
    + intros q n Hq Hne. apply insert_frame; [now apply Hkeep | exact Hne].
    + intros q n Hq. apply insert_frame in Hq as [Hq | Hq]; [|right; now right].
      apply Hnew in Hq as [Hq | Hq]; [now left | right; now left].
Qed.

Lemma write_entries_frame (fuel : nat) (o : options) (files : table) (d d' : disk) :
  write_entries fuel o d files = Ok d' ->
  (forall q n, nodes d !! q = Some n ->
     (forall kv, In kv files -> Disk.key (Path.join (opt_output o) (fst kv)) <> q) ->
     nodes d' !! q = Some n) /\
  (forall q n, nodes d' !! q = Some n ->
     nodes d !! q = Some n \/ (exists t, n = Dir t) \/
     exists kv, In kv files /\ q = Disk.key (Path.join (opt_output o) (fst kv))).
Proof.
  revert d. induction files as [|kv files IH]; intros d H; cbn [write_entries] in H.
  - injection H as <-. split; [tauto | intros q n Hq; now left].
  - apply bind_ok in H as (d1 & H1 & H).
    destruct (write_entry_frame _ _ _ _ _ H1) as [K1 N1].
    destruct (IH _ H) as [K N]. split.
    + intros q n Hq Hne. apply K.
      * apply K1; [exact Hq|]. intros E. apply (Hne kv); [now left | now symmetry].
      * intros kv' Hin. apply Hne. now right.
    + intros q n Hq. apply N in Hq as [Hq | [Hq | (kv' & Hin & E)]].
      * apply N1 in Hq as [Hq | [Hq | E]]; [now left | right; now left|].
        right. right. exists kv. split; [now left | exact E].
      * right. now left.
      * right. right. exists kv'. split; [now right | exact E].
Qed.

(** An update build deletes nothing: a node of the disk that is the
    destination of no table entry, such as a file left by an earlier build
    whose source is gone, is unchanged afterwards. *)
Theorem update_build_keeps_stale_files
  (fuel : nat) (o : options) (files : table) (d d' : disk) (q : string) (n : node) :
  opt_action o = Update ->
  compileToDir fuel o files d = Ok d' ->
  nodes d !! q = Some n ->
  (forall kv, In kv files -> Disk.key (Path.join (opt_output o) (fst kv)) <> q) ->
  nodes d' !! q = Some n.
Proof.
  intros Hact H Hq Hne. unfold compileToDir in H. rewrite Hact in H.
  destruct (write_entries_frame _ _ _ _ _ H) as [K _].
  apply K; [|exact Hne].
  now apply (try_mkdir_frame d (opt_output o)).
Qed.

Lemma update_build_keeps_stale_files_witness :
  match compileToDir 5 Demo.dir_opts
          [("./index.html", OnDisk "/n/runtime/index.html")] Demo.built_disk with
  | Ok d' => nodes d' !! "/out/scripts/jme.js" = Some (File "jme();" 3)
  | Err _ => False
  end.
Proof.
  destruct (compileToDir 5 Demo.dir_opts
              [("./index.html", OnDisk "/n/runtime/index.html")] Demo.built_disk)
    as [d'|e] eqn:H; [|vm_compute in H; discriminate].
  apply (update_build_keeps_stale_files 5 Demo.dir_opts
           [("./index.html", OnDisk "/n/runtime/index.html")] Demo.built_disk d'
           "/out/scripts/jme.js" (File "jme();" 3) eq_refl H).
  - vm_compute. reflexivity.
  - intros kv [<- | []]. vm_compute. discriminate.
Defined.



(** ** Running a build *)

(** A requested theme that exists neither as a path nor under the
    [themes] directory aborts the run with the error naming it, whatever
    the exam and the other inputs are: the chain is resolved before
    anything else. *)
Theorem run_aborts_on_missing_theme
  (fuel : nat) (fs : filesystem) (cb : collaborators) (o : options)
  (text : string) (d : disk) :
  0 < fuel ->
  exists_ fs (opt_theme o) = false ->
  exists_ fs (Path.join (Path.join (opt_path o) "themes") (opt_theme o)) = false ->
  run fuel fs cb o text d = Err (ThemeNotFound (opt_theme o)).
Proof.
  intros Hfuel H1 H2. destruct fuel as [|fuel]; [lia|].
  unfold run, resolve_themepaths. cbn [theme_loop].
  change ([opt_theme o] !! 0) with (Some (opt_theme o)). cbn iota.
  unfold get_theme_path. now rewrite H1, H2.
Qed.

Lemma run_aborts_on_missing_theme_witness :
  run 3 (Demo.mk_fs [] [] [] [] []) (Demo.cb [] 0) Demo.opts "" Demo.empty_disk
  = Err (ThemeNotFound "leaf").
Proof.
  apply (run_aborts_on_missing_theme 3 (Demo.mk_fs [] [] [] [] []) (Demo.cb [] 0)
           Demo.opts "" Demo.empty_disk); [lia | reflexivity | reflexivity].
Defined.
